(** * PythonMonkey: value marshalling between CPython and SpiderMonkey

    A shallow embedding of [src/IntType.cc]: the BigInt codec (the
    [IntType] constructor taking a [JS::BigInt] and [IntType::toJsBigInt])
    and of [pyTypeFactory.cc]: the two [pyTypeFactory] dispatchers and
    [pyTypeFactorySafe], together with the properties the design document
    states about them.

    Platform: 64-bit little-endian, CPython 3.11 (30-bit [digit]s, the
    small integers from -5 to 256 preallocated and shared), SpiderMonkey
    ESR 102 (64-bit [js_digit_t], a big integer of at most [2^20] bits). *)

From Stdlib Require Import ZArith Lia List Ascii String.
From stdpp Require Import base gmap list strings fin_maps.

Local Open Scope Z_scope.

(** ** Fixed-width integers *)

(** A [w]-bit unsigned C integer is a [Z] reduced modulo [2^w]. *)
Definition wrap (w x : Z) : Z := x mod 2 ^ w.

Definition size_t (x : Z) : Z := wrap 64 x.
Definition uint32_t (x : Z) : Z := wrap 32 x.
Definition uint64_t (x : Z) : Z := wrap 64 x.

Definition SIZE_MAX : Z := 2 ^ 64 - 1.
Definition PY_SSIZE_T_MAX : Z := 2 ^ 63 - 1.
Definition PY_SSIZE_T_MIN : Z := - 2 ^ 63.

(** ** Constants of [IntType.cc] *)

Definition SIGN_BIT_MASK : Z := 8.          (* 0b1000 *)
Definition CELL_HEADER_LENGTH : Z := 8.
Definition JS_BITS_PER_WORD : Z := 64.
Definition PYLONG_BITS_IN_DIGIT : Z := 30.
Definition JS_DIGIT_BIT : Z := JS_BITS_PER_WORD.
Definition PY_DIGIT_BIT : Z := PYLONG_BITS_IN_DIGIT.
Definition JS_DIGIT_BYTE : Z := 8.          (* sizeof(uintptr_t) / sizeof(uint8_t) *)
Definition JS_INLINE_DIGIT_MAX_LEN : Z := 1.

Definition HEX_CHAR_LOOKUP_TABLE : list ascii :=
  list_ascii_of_string "0123456789ABCDEF".

(** ** Positional digit strings

    Both runtimes store a magnitude as fixed-width digits, least
    significant first: 30-bit digits in CPython, 64-bit digits in
    SpiderMonkey, and the byte views of either are 8-bit digits. *)

Section Radix.
Variable w : Z.     (* digit width in bits *)

(** The number denoted by a least-significant-first digit string. *)
Fixpoint digits_value (ds : list Z) : Z :=
  match ds with
  | [] => 0
  | d :: r => d + 2 ^ w * digits_value r
  end.

(** The [n] low digits of [x], least significant first. *)
Fixpoint to_digits (n : nat) (x : Z) : list Z :=
  match n with
  | O => []
  | S n' => x mod 2 ^ w :: to_digits n' (x / 2 ^ w)
  end.

Definition digit_ok (d : Z) : Prop := 0 <= d < 2 ^ w.
End Radix.

(** Number of bits of a non-negative magnitude (0 for 0). *)
Definition bit_length (x : Z) : Z :=
  if x <=? 0 then 0 else Z.log2 x + 1.

(** Number of [w]-bit digits of the shortest digit string of [x]. *)
Definition digit_count (w x : Z) : Z := (bit_length x + w - 1) / w.

(** The shortest least-significant-first digit string of [x]
    (empty for 0, no most-significant zero digit). *)
Definition norm_digits (w x : Z) : list Z :=
  to_digits w (Z.to_nat (digit_count w x)) x.

(** ** CPython: objects, interpreter state, error indicator *)

Abbreviation loc := positive.

(** A type object, as far as the dispatcher looks at it: its identity
    (the name) and its [tp_flags] word. *)
Record PyTypeObject := { tp_name : string; tp_flags : Z }.

Global Instance PyTypeObject_eq_dec : EqDecision PyTypeObject.
Proof. solve_decision. Defined.

Definition Py_TPFLAGS_BASETYPE : Z := Z.shiftl 1 10.
Definition Py_TPFLAGS_DEFAULT : Z := Z.shiftl 1 18.
Definition Py_TPFLAGS_LONG_SUBCLASS : Z := Z.shiftl 1 24.
Definition Py_TPFLAGS_LIST_SUBCLASS : Z := Z.shiftl 1 25.
Definition Py_TPFLAGS_TUPLE_SUBCLASS : Z := Z.shiftl 1 26.
Definition Py_TPFLAGS_UNICODE_SUBCLASS : Z := Z.shiftl 1 28.
Definition Py_TPFLAGS_DICT_SUBCLASS : Z := Z.shiftl 1 29.

Definition PyLong_Type : PyTypeObject :=
  {| tp_name := "int";
     tp_flags := Z.lor Py_TPFLAGS_DEFAULT
                   (Z.lor Py_TPFLAGS_BASETYPE Py_TPFLAGS_LONG_SUBCLASS) |}.

(** [bool] derives from [int]: it inherits the long-subclass flag. *)
Definition PyBool_Type : PyTypeObject :=
  {| tp_name := "bool";
     tp_flags := Z.lor Py_TPFLAGS_DEFAULT Py_TPFLAGS_LONG_SUBCLASS |}.

Definition PyFunction_Type : PyTypeObject :=
  {| tp_name := "function"; tp_flags := Py_TPFLAGS_DEFAULT |}.

Definition PyFloat_Type : PyTypeObject :=
  {| tp_name := "float";
     tp_flags := Z.lor Py_TPFLAGS_DEFAULT Py_TPFLAGS_BASETYPE |}.

(** Modelled from the spec: [PythonMonkey_BigInt] is declared in
    [pythonmonkey.hh], which is not part of the sources at hand; it is the
    "distinguished arbitrary-precision-integer kind", a subclass of
    [int]. *)
Definition PythonMonkey_BigInt : PyTypeObject :=
  {| tp_name := "pythonmonkey.bigint";
     tp_flags := Z.lor Py_TPFLAGS_DEFAULT
                   (Z.lor Py_TPFLAGS_BASETYPE Py_TPFLAGS_LONG_SUBCLASS) |}.

(** An object header with the variable part of a [PyLongObject]:
    [ob_size] is the signed digit count, [ob_digit] the 30-bit digits of
    the magnitude, least significant first.  Objects of other types carry
    an empty digit array. *)
Record PyObject := {
  ob_type : PyTypeObject;
  ob_size : Z;
  ob_digit : list Z
}.

Inductive PyExc := PyExc_TypeError | PyExc_OverflowError.

(** What the code does to the outside world, in order: the library calls
    that allocate or mutate, and what it prints. *)
Inductive Event :=
| Ev_printf (msg : string)
| Ev_PyLong_New (size : Z) (p : loc)
| Ev_PyLong_FromByteArray (n : Z) (p : loc)
| Ev_PyLong_AsUnsignedLongLong (p : loc)
| Ev_PyLong_AsByteArray (p : loc) (n : Z)
| Ev_Py_SET_SIZE (p : loc) (size : Z)
| Ev_Py_SET_TYPE (p : loc) (t : PyTypeObject).

Record PyState := {
  heap : gmap loc PyObject;
  err : option (PyExc * string);     (* the error indicator *)
  log : list Event                   (* most recent first *)
}.

(** Statically allocated singletons. *)
Definition Py_None : loc := 1%positive.
Definition PythonMonkey_Null : loc := 2%positive.

(** The interpreter's preallocated small integers ([_PyLong_SMALL_INTS]):
    one shared object per value from [-_PY_NSMALLNEGINTS] to
    [_PY_NSMALLPOSINTS - 1].  [small_int ival] is the address
    [get_small_int(ival)] returns. *)
Definition _PY_NSMALLNEGINTS : Z := 5.
Definition _PY_NSMALLPOSINTS : Z := 257.

Definition IS_SMALL_INT (ival : Z) : bool :=
  (- _PY_NSMALLNEGINTS <=? ival) && (ival <? _PY_NSMALLPOSINTS).

Definition small_int (ival : Z) : loc := Z.to_pos (ival + 1000).
Definition small_int_zero : loc := small_int 0.

Definition small_ints : list loc :=
  map small_int (seqZ (- _PY_NSMALLNEGINTS) (_PY_NSMALLNEGINTS + _PY_NSMALLPOSINTS)).

Definition statics : gset loc :=
  {[ Py_None; PythonMonkey_Null ]} ∪ list_to_set small_ints.

(** ** The state monad of the embedding

    A computation reads and writes the interpreter state; [None] is a
    crash (a dangling or null pointer is dereferenced, storage is read out
    of bounds). *)
Definition M (A : Type) : Type := PyState -> option (A * PyState).

Definition ret {A} (a : A) : M A := fun s => Some (a, s).
Definition bind {A B} (m : M A) (k : A -> M B) : M B :=
  fun s => match m s with Some (a, s') => k a s' | None => None end.
Definition crash {A} : M A := fun _ => None.

Notation "x <- c ;; k" := (bind c (fun x => k))
  (at level 62, c at next level, right associativity).
Notation "c ;;; k" := (bind c (fun _ => k))
  (at level 62, right associativity).

Definition emit (e : Event) : M unit :=
  fun s => Some (tt, {| heap := heap s; err := err s; log := e :: log s |}).

Definition deref (p : loc) : M PyObject :=
  fun s => match heap s !! p with Some o => Some (o, s) | None => None end.

Definition store (p : loc) (o : PyObject) : M unit :=
  fun s => Some (tt, {| heap := <[p := o]> (heap s); err := err s; log := log s |}).

(** A fresh address: not live, not one of the singletons. *)
Definition fresh_loc (s : PyState) : loc := fresh (dom (heap s) ∪ statics).

Definition alloc (o : PyObject) : M loc :=
  fun s => let p := fresh_loc s in
           Some (p, {| heap := <[p := o]> (heap s); err := err s; log := log s |}).

Definition printf (msg : string) : M unit := emit (Ev_printf msg).

(** *** Object header macros *)

Definition Py_TYPE (p : loc) : M PyTypeObject := o <- deref p ;; ret (ob_type o).
Definition Py_SIZE (p : loc) : M Z := o <- deref p ;; ret (ob_size o).

Definition Py_SET_SIZE (p : loc) (size : Z) : M unit :=
  o <- deref p ;;
  store p {| ob_type := ob_type o; ob_size := size; ob_digit := ob_digit o |} ;;;
  emit (Ev_Py_SET_SIZE p size).

Definition Py_SET_TYPE (p : loc) (t : PyTypeObject) : M unit :=
  o <- deref p ;;
  store p {| ob_type := t; ob_size := ob_size o; ob_digit := ob_digit o |} ;;;
  emit (Ev_Py_SET_TYPE p t).

Definition PyType_FastSubclass (t : PyTypeObject) (flag : Z) : bool :=
  negb (Z.land (tp_flags t) flag =? 0).

Definition PyLong_Check (t : PyTypeObject) : bool :=
  PyType_FastSubclass t Py_TPFLAGS_LONG_SUBCLASS.
Definition PyUnicode_Check (t : PyTypeObject) : bool :=
  PyType_FastSubclass t Py_TPFLAGS_UNICODE_SUBCLASS.
Definition PyDict_Check (t : PyTypeObject) : bool :=
  PyType_FastSubclass t Py_TPFLAGS_DICT_SUBCLASS.
Definition PyList_Check (t : PyTypeObject) : bool :=
  PyType_FastSubclass t Py_TPFLAGS_LIST_SUBCLASS.
Definition PyTuple_Check (t : PyTypeObject) : bool :=
  PyType_FastSubclass t Py_TPFLAGS_TUPLE_SUBCLASS.
(** [PyFunction_Check] is an exact type test. *)
Definition PyFunction_Check (t : PyTypeObject) : bool :=
  bool_decide (t = PyFunction_Type).

(** *** The error indicator *)

Definition PyErr_Occurred : M bool :=
  fun s => Some (match err s with Some _ => true | None => false end, s).

Definition PyErr_Clear : M unit :=
  fun s => Some (tt, {| heap := heap s; err := None; log := log s |}).

Definition PyErr_SetString (exc : PyExc) (msg : string) : M unit :=
  fun s => Some (tt, {| heap := heap s; err := Some (exc, msg); log := log s |}).

(** *** [longobject.c]: the integer primitives the codec calls

    These are CPython's, modelled by what they compute on the object
    representation. *)

Definition PyLong_SHIFT : Z := PYLONG_BITS_IN_DIGIT.

(** The digits in use: the first [|ob_size|] entries of [ob_digit]. *)
Definition long_digits (o : PyObject) : list Z :=
  take (Z.to_nat (Z.abs (ob_size o))) (ob_digit o).

Definition long_magnitude (o : PyObject) : Z :=
  digits_value PyLong_SHIFT (long_digits o).

(** The integer an object denotes: the sign is the sign of [ob_size]. *)
Definition long_value (o : PyObject) : Z :=
  Z.sgn (ob_size o) * long_magnitude o.

Definition bits_in_digit (d : Z) : Z := bit_length d.

Definition _PyLong_NumBits (v : loc) : M Z :=
  let Overflow : M Z :=
    PyErr_SetString PyExc_OverflowError
      "int has too many bits to express in a platform size_t" ;;;
    ret (size_t (-1)) in
  o <- deref v ;;
  let ndigits := Z.abs (ob_size o) in
  if 0 <? ndigits then
    match ob_digit o !! Z.to_nat (ndigits - 1) with
    | None => crash
    | Some msd =>
        if SIZE_MAX / PyLong_SHIFT <? ndigits - 1 then Overflow
        else
          let result := (ndigits - 1) * PyLong_SHIFT in
          let msd_bits := bits_in_digit msd in
          if SIZE_MAX - msd_bits <? result then Overflow
          else ret (result + msd_bits)
    end
  else ret 0.

(** [_PyLong_AsByteArray(v, bytes, n, little_endian, is_signed)]: the
    return code and the contents of the [n]-byte buffer afterwards.  On
    overflow the low [n] bytes have been written. *)
Definition long_as_bytes (v : loc) (n : Z) (little_endian is_signed : bool)
  : M (Z * list Z) :=
  o <- deref v ;;
  if (ob_size o <? 0) && negb is_signed then
    PyErr_SetString PyExc_OverflowError "can't convert negative int to unsigned" ;;;
    ret (-1, repeat 0 (Z.to_nat n))
  else
    let x := long_value o in
    let le := to_digits 8 (Z.to_nat n) x in
    let bytes := if little_endian then le else rev le in
    let fits :=
      if is_signed then (- 2 ^ (8 * n - 1) <=? x) && (x <? 2 ^ (8 * n - 1))
      else x <? 2 ^ (8 * n) in
    if fits then ret (0, bytes)
    else
      PyErr_SetString PyExc_OverflowError "int too big to convert" ;;;
      ret (-1, bytes).

Definition _PyLong_AsByteArray (v : loc) (n : Z) (little_endian is_signed : bool)
  : M (Z * list Z) :=
  emit (Ev_PyLong_AsByteArray v n) ;;;
  long_as_bytes v n little_endian is_signed.

Definition PyLong_AsUnsignedLongLong (vv : loc) : M Z :=
  emit (Ev_PyLong_AsUnsignedLongLong vv) ;;;
  o <- deref vv ;;
  if negb (PyLong_Check (ob_type o)) then
    PyErr_SetString PyExc_TypeError "an integer is required" ;;;
    ret (uint64_t (-1))
  else if ob_size o =? 0 then ret 0
  else if ob_size o =? 1 then
    match ob_digit o !! 0%nat with Some d => ret d | None => crash end
  else
    r <- long_as_bytes vv 8 true false ;;
    if fst r <? 0 then ret (uint64_t (fst r))
    else ret (digits_value 8 (snd r)).

(** [_PyLong_New(size)]: a new object with room for [size] digits. *)
Definition _PyLong_New (size : Z) : M loc :=
  p <- alloc {| ob_type := PyLong_Type; ob_size := size;
                ob_digit := repeat 0 (Z.to_nat size) |} ;;
  emit (Ev_PyLong_New size p) ;;;
  ret p.

(** [_PyLong_FromByteArray(bytes, n, little_endian, is_signed)]: for
    [n = 0] it hands out the shared small integer 0 ([PyLong_FromLong(0)]);
    otherwise it builds a normalized object and returns
    [maybe_small_long] of it: the shared small integer when the value is
    one of the preallocated ones (the object just built is released), the
    new object otherwise.  [bytes] is the memory readable at the
    pointer. *)
Definition _PyLong_FromByteArray (bytes : list Z) (n : Z) (little_endian is_signed : bool)
  : M loc :=
  if n =? 0 then ret (small_int 0)
  else if Z.of_nat (length bytes) <? n then crash
  else
    let bs := take (Z.to_nat n) bytes in
    let u := digits_value 8 (if little_endian then bs else rev bs) in
    let x := if is_signed && (2 ^ (8 * n - 1) <=? u) then u - 2 ^ (8 * n) else u in
    p <- (if IS_SMALL_INT x then ret (small_int x)
          else alloc {| ob_type := PyLong_Type;
                        ob_size := Z.sgn x * digit_count PyLong_SHIFT (Z.abs x);
                        ob_digit := norm_digits PyLong_SHIFT (Z.abs x) |}) ;;
    emit (Ev_PyLong_FromByteArray n p) ;;;
    ret p.

(** ** SpiderMonkey: the private layout of a [JS::BigInt]

    An 8-byte cell header (32 bits of flags, then the 32-bit digit
    count), followed by a union: one inline digit, or a pointer to the
    digits on the heap. *)

Inductive DigitStorage :=
| inlineDigits (d : Z)
| heapDigits (ds : list Z).

Record BigInt := {
  flagsField : Z;          (* ((uint32_t * )bigint)[0] *)
  lengthField : Z;         (* ((uint32_t * )bigint)[1] *)
  storage : DigitStorage   (* at offset CELL_HEADER_LENGTH *)
}.

Definition BigIntIsNegative (bigint : BigInt) : bool :=
  negb (Z.land (flagsField bigint) SIGN_BIT_MASK =? 0).

(** The engine's own view of the digits. *)
Definition BigInt_digits (bigint : BigInt) : list Z :=
  match storage bigint with
  | inlineDigits d => take (Z.to_nat (lengthField bigint)) [d]
  | heapDigits ds => take (Z.to_nat (lengthField bigint)) ds
  end.

Definition BigInt_value (bigint : BigInt) : Z :=
  (if BigIntIsNegative bigint then -1 else 1)
  * digits_value JS_DIGIT_BIT (BigInt_digits bigint).

(** How the engine lays out a magnitude: no digit for zero, the inline
    digit when one suffices, heap digits otherwise. *)
Definition BigInt_create (x : Z) : BigInt :=
  let n := digit_count JS_DIGIT_BIT x in
  {| flagsField := 0;
     lengthField := n;
     storage := if n <=? JS_INLINE_DIGIT_MAX_LEN then inlineDigits (x mod 2 ^ JS_DIGIT_BIT)
                else heapDigits (norm_digits JS_DIGIT_BIT x) |}.

Definition BigIntFromUint64 (n : Z) : BigInt := BigInt_create n.

(** The value of one character as a digit, as the engine's literal
    parser reads it. *)
Definition char_digit (c : ascii) : option Z :=
  let n := Z.of_nat (nat_of_ascii c) in
  if (48 <=? n) && (n <=? 57) then Some (n - 48)
  else if (97 <=? n) && (n <=? 122) then Some (n - 87)
  else if (65 <=? n) && (n <=? 90) then Some (n - 55)
  else None.

Fixpoint parse_digits (radix : Z) (acc : Z) (chars : list ascii) : option Z :=
  match chars with
  | [] => Some acc
  | c :: r =>
      match char_digit c with
      | Some d => if d <? radix then parse_digits radix (acc * radix + d) r else None
      | None => None
      end
  end.

(** The engine's size limit ([BigInt::MaxBitLength], [MaxDigitLength]). *)
Definition BigInt_MaxBitLength : Z := 1024 * 1024.
Definition BigInt_MaxDigitLength : Z := BigInt_MaxBitLength / JS_DIGIT_BIT.

(** [maxBitsPerCharTable]: for each radix, 32 times the bits one
    character can hold, rounded up. *)
Definition maxBitsPerCharTable : list Z :=
  [0; 0; 32; 51; 64; 75; 83; 90; 96;
   102; 107; 111; 115; 119; 122; 126; 128;
   131; 134; 136; 139; 141; 143; 145; 147;
   149; 151; 153; 154; 156; 158; 159; 160;
   162; 163; 165; 166].
Definition bitsPerCharTableMultiplier : Z := 32.

(** [BigInt::calculateMaximumDigitsRequired]: the digits reserved for
    [charcount] characters; [None] when they exceed the limit (the engine
    reports "BigInt is too large to allocate"). *)
Definition calculateMaximumDigitsRequired (radix charcount : Z) : option Z :=
  let bitsPerChar := nth (Z.to_nat radix) maxBitsPerCharTable 0 in
  let d := JS_DIGIT_BIT * bitsPerCharTableMultiplier in
  let n := (charcount * bitsPerChar + d - 1) / d in
  if BigInt_MaxDigitLength <? n then None else Some n.

(** The leading zero characters the literal parser skips. *)
Fixpoint skip_zeros (chars : list ascii) : list ascii :=
  match chars with
  | c :: r => if Ascii.eqb c (ascii_of_nat 48) then skip_zeros r else chars
  | [] => []
  end.

(** [JS::SimpleStringToBigInt(cx, chars, radix)]: an optional sign, then
    digits ([BigInt::parseLiteralDigits]: leading zeros are skipped, room
    for the remaining characters is reserved, the digits are read);
    [None] is the null pointer of a syntax error or of a literal above the
    size limit. *)
Definition SimpleStringToBigInt (chars : list ascii) (radix : Z) : option BigInt :=
  let plus := ascii_of_nat 43 in
  let minus := ascii_of_nat 45 in
  let '(isNegative, body) :=
    match chars with
    | c :: (_ :: _) as r =>
        if Ascii.eqb c plus then (false, r)
        else if Ascii.eqb c minus then (true, r)
        else (false, chars)
    | _ => (false, chars)
    end in
  if (radix <? 2) || (36 <? radix) then None
  else
    match body with
    | [] => None
    | _ =>
        match skip_zeros body with
        | [] => Some (BigInt_create 0)
        | digits =>
            match calculateMaximumDigitsRequired radix (Z.of_nat (length digits)) with
            | None => None
            | Some _ =>
                match parse_digits radix 0 digits with
                | None => None
                | Some x =>
                    let b := BigInt_create x in
                    Some {| flagsField := if isNegative && negb (x =? 0)
                                          then Z.lor (flagsField b) SIGN_BIT_MASK
                                          else flagsField b;
                            lengthField := lengthField b;
                            storage := storage b |}
                end
            end
        end
    end.

(** ** Wrappers ([PyType] and its subclasses) *)

Inductive WrapperClass :=
| cls_PyType | cls_IntType | cls_StrType | cls_FuncType | cls_DictType
| cls_ListType | cls_TupleType | cls_NoneType | cls_NullType | cls_BoolType
| cls_FloatType | cls_DateType | cls_PromiseType | cls_ExceptionType
| cls_BufferType.

(** A wrapper: which class was instantiated, and the [pyObject] it
    holds ([None] is the null pointer). *)
Record PyType := {
  returnType : WrapperClass;
  pyObject : option loc
}.

(** Modelled from the spec: the base constructor [PyType(PyObject * )] is
    defined in [PyType.cc], which is not part of the sources at hand; a
    wrapper "holds a non-owning handle to the source object", so the
    constructors that only forward to it
    ([IntType::IntType(PyObject *object) : PyType(object) {}] and its
    siblings) store the pointer they are given. *)
Definition PyType_new (c : WrapperClass) (object : loc) : PyType :=
  {| returnType := c; pyObject := Some object |}.

(** ** [IntType.cc]: the BigInt codec *)

(** [std::endian::native == std::endian::big], fixed when compiling. *)
Definition native_endian_is_big : bool := false.

(** The bytes of a digit array in memory on a little-endian host. *)
Definition digit_bytes (ds : list Z) : list Z :=
  flat_map (to_digits 8 (Z.to_nat JS_DIGIT_BYTE)) ds.

(** What is readable at [jsDigits]: the inline digit, or the heap array
    behind the pointer when the count says there is one.  [None]: the
    union does not hold what the count says, reading is undefined. *)
Definition jsDigits_of (bigint : BigInt) (jsDigitCount : Z) : option (list Z) :=
  if JS_INLINE_DIGIT_MAX_LEN <? jsDigitCount then
    match storage bigint with
    | heapDigits ds => Some ds
    | inlineDigits _ => None
    end
  else
    match storage bigint with
    | inlineDigits d => Some [d]
    | heapDigits _ => None
    end.

(** [IntType::IntType(JSContext *cx, JS::BigInt *bigint)] *)
Definition IntType_from_BigInt (bigint : BigInt) : M PyType :=
  let isNegative := BigIntIsNegative bigint in
  let jsDigitCount := uint32_t (lengthField bigint) in
  let jsDigits := jsDigits_of bigint jsDigitCount in
  if native_endian_is_big then
    printf "big-endian cpu is not supported by PythonMonkey yet" ;;;
    ret {| returnType := cls_IntType; pyObject := None |}
  else
    object <-
      (if jsDigitCount =? 0 then _PyLong_New 0
       else
         match jsDigits with
         | None => crash
         | Some ds =>
             _PyLong_FromByteArray (digit_bytes ds)
               (size_t (jsDigitCount * JS_DIGIT_BYTE)) true false
         end) ;;
    (if isNegative then
       pyDigitCount <- Py_SIZE object ;;
       Py_SET_SIZE object (- pyDigitCount)
     else ret tt) ;;;
    Py_SET_TYPE object PythonMonkey_BigInt ;;;
    ret {| returnType := cls_IntType; pyObject := Some object |}.

(** The digit count [toJsBigInt] derives from the bit count:
    [uint32_t jsDigitCount = bitCount == 0 ? 1 : (bitCount - 1) / JS_DIGIT_BIT + 1;]
    The right-hand side is computed in [size_t] and then narrowed. *)
Definition jsDigitCount_expr (bitCount : Z) : Z :=
  if bitCount =? 0 then 1
  else size_t (size_t (bitCount - 1) / JS_DIGIT_BIT + 1).

Definition jsDigitCount_of (bitCount : Z) : Z :=
  uint32_t (jsDigitCount_expr bitCount).

(** The loop that writes two hex characters per byte:
    [for (size_t i = 0, j = 0; i < charCount; i += 2, j++)]. *)
Fixpoint hex_loop (fuel : nat) (charCount i j : Z) (bytes : list Z)
    (chars : list ascii) : list ascii :=
  match fuel with
  | O => chars
  | S fuel' =>
      if i <? charCount then
        let b := nth (Z.to_nat j) bytes 0 in
        let chars :=
          <[Z.to_nat i :=
              nth (Z.to_nat (Z.land (Z.shiftr b 4) 15)) HEX_CHAR_LOOKUP_TABLE zero]> chars in
        let chars :=
          <[Z.to_nat (i + 1) :=
              nth (Z.to_nat (Z.land b 15)) HEX_CHAR_LOOKUP_TABLE zero]> chars in
        hex_loop fuel' charCount (size_t (i + 2)) (size_t (j + 1)) bytes chars
      else chars
  end.

(** The two ways [toJsBigInt] builds the destination integer: the fast
    path through [unsigned long long] and the path through a hex string. *)
Definition toJsBigInt_convert (pyObject : loc) (jsDigitCount : Z) : M (option BigInt) :=
  if jsDigitCount <=? 1 then
    n <- PyLong_AsUnsignedLongLong pyObject ;;
    ret (Some (BigIntFromUint64 n))
  else
    let byteCount := size_t (JS_DIGIT_BYTE * jsDigitCount) in
    r <- _PyLong_AsByteArray pyObject byteCount false false ;;
    let bytes := snd r in
    let charCount := size_t (byteCount * 2) in
    let chars := repeat zero (Z.to_nat charCount) in
    let chars := hex_loop (Z.to_nat charCount) charCount 0 0 bytes chars in
    ret (SimpleStringToBigInt chars 16).

(** [((uint32_t * )bigint)[0] |= SIGN_BIT_MASK] *)
Definition set_sign_bit (b : BigInt) : BigInt :=
  {| flagsField := uint32_t (Z.lor (flagsField b) SIGN_BIT_MASK);
     lengthField := lengthField b;
     storage := storage b |}.

(** [JS::BigInt *IntType::toJsBigInt(JSContext *cx)] on the wrapper's
    [pyObject]; the result [None] is [nullptr]. *)
Definition toJsBigInt (pyObject : loc) : M (option BigInt) :=
  bitCount <- _PyLong_NumBits pyObject ;;
  failed <- (if bitCount =? size_t (-1) then PyErr_Occurred else ret false) ;;
  if failed : bool then ret None
  else
    let jsDigitCount := jsDigitCount_of bitCount in
    pyDigitCount <- Py_SIZE pyObject ;;
    let isNegative := pyDigitCount <? 0 in
    (if isNegative then Py_SET_SIZE pyObject (- pyDigitCount) else ret tt) ;;;
    bigint <- toJsBigInt_convert pyObject jsDigitCount ;;
    if isNegative then
      Py_SET_SIZE pyObject pyDigitCount ;;;
      match bigint with
      | None => crash
      | Some b => ret (Some (set_sign_bit b))
      end
    else ret bigint.

(** The canonical object for the integer [n], as the interpreter's own
    constructors build it. *)
Definition PyLong_FromZ (n : Z) : PyObject :=
  {| ob_type := PyLong_Type;
     ob_size := Z.sgn n * digit_count PyLong_SHIFT (Z.abs n);
     ob_digit := norm_digits PyLong_SHIFT (Z.abs n) |}.

(** An interpreter state with nothing pending and the singletons live:
    [None], [pythonmonkey.null] and every small integer. *)
Definition initial_heap : gmap loc PyObject :=
  foldr (fun ival h => <[small_int ival := PyLong_FromZ ival]> h)
    (<[Py_None := {| ob_type := {| tp_name := "NoneType"; tp_flags := Py_TPFLAGS_DEFAULT |};
                     ob_size := 0; ob_digit := [] |}]>
       (<[PythonMonkey_Null := {| ob_type := {| tp_name := "pythonmonkey.null";
                                                tp_flags := Py_TPFLAGS_DEFAULT |};
                                  ob_size := 0; ob_digit := [] |}]> ∅))
    (seqZ (- _PY_NSMALLNEGINTS) (_PY_NSMALLNEGINTS + _PY_NSMALLPOSINTS)).

Definition initial_state : PyState :=
  {| heap := initial_heap; err := None; log := [] |}.

(** Encoding the object at [p] and decoding the result again. *)
Definition roundtrip (p : loc) : M PyType :=
  r <- toJsBigInt p ;;
  match r with
  | None => crash
  | Some bigint => IntType_from_BigInt bigint
  end.

(** ** SpiderMonkey values, as the dispatcher queries them *)

Inductive ESClass :=
| ESClass_Object | ESClass_Array | ESClass_Number | ESClass_String
| ESClass_Boolean | ESClass_RegExp | ESClass_ArrayBuffer
| ESClass_SharedArrayBuffer | ESClass_Date | ESClass_Set | ESClass_Map
| ESClass_Promise | ESClass_MapIterator | ESClass_SetIterator
| ESClass_Arguments | ESClass_Error | ESClass_BigInt | ESClass_Function
| ESClass_Other.

(** The address of a handler class's static [family] member. *)
Inductive ProxyFamily :=
| PyDictProxyHandler_family
| PyListProxyHandler_family
| PyObjectProxyHandler_family
| foreign_family (id : Z).

Global Instance ProxyFamily_eq_dec : EqDecision ProxyFamily.
Proof. solve_decision. Defined.

(** [js::GetProxyHandler(obj)]: its [family()], and the [pyObject] member
    our three handler classes have. *)
Record ProxyHandler := {
  family : ProxyFamily;
  handler_pyObject : loc
}.

(** An IEEE-754 double by its bit pattern; never computed with. *)
Record double := { double_bits : Z }.

(** What [js::Unbox] finds inside a boxed primitive. *)
Inductive JSPrimitive :=
| prim_none
| prim_boolean (b : bool)
| prim_number (d : double)
| prim_string (str : string)
| prim_bigint (bigint : BigInt).

(** An object, by the answers of the engine queries made on it. *)
Record JSObject := {
  obj_proxy_handler : option ProxyHandler;  (* Some: GetClass(obj)->isProxyObject() *)
  obj_builtin_class : ESClass;              (* JS::GetBuiltinClass *)
  obj_is_bound_function : bool;             (* JS_ObjectIsBoundFunction *)
  obj_callPyFunc_slot : option loc;         (* JS_IsNativeFunction(obj, callPyFunc):
                                               the private pointer in reserved slot 0 *)
  obj_unboxed : JSPrimitive;                (* js::Unbox *)
  obj_is_supported_buffer : bool            (* BufferType::isSupportedJsTypes *)
}.

(** A [JS::Value]: exactly one tag. *)
Inductive JSValue :=
| JSVal_Undefined
| JSVal_Null
| JSVal_Boolean (b : bool)
| JSVal_Number (d : double)
| JSVal_String (str : string)
| JSVal_Symbol (description : string)
| JSVal_BigInt (bigint : BigInt)
| JSVal_Object (obj : JSObject)
| JSVal_Magic (why : Z)
| JSVal_PrivateGCThing.

(** The wrapper constructors whose definitions are in other translation
    units ([BoolType.cc], [StrType.cc], ...), by the [new] expression that
    calls them. *)
Inductive Ctor :=
| new_BoolType (b : bool)
| new_FloatType (d : double)
| new_StrType (str : string)
| new_DateType (obj : JSObject)
| new_PromiseType (obj : JSObject)
| new_ExceptionType (obj : JSObject)
| new_FuncType (rval : JSValue)
| new_ListType (obj : JSObject)
| new_BufferType (obj : JSObject)
| new_DictType (rval : JSValue).

Definition Ctor_class (c : Ctor) : WrapperClass :=
  match c with
  | new_BoolType _ => cls_BoolType
  | new_FloatType _ => cls_FloatType
  | new_StrType _ => cls_StrType
  | new_DateType _ => cls_DateType
  | new_PromiseType _ => cls_PromiseType
  | new_ExceptionType _ => cls_ExceptionType
  | new_FuncType _ => cls_FuncType
  | new_ListType _ => cls_ListType
  | new_BufferType _ => cls_BufferType
  | new_DictType _ => cls_DictType
  end.

(** Modelled from the spec: [NoneType.cc] and [NullType.cc] are not part
    of the sources at hand; the argument-less constructors wrap the
    interpreter's [None] and the canonical [pythonmonkey.null]. *)
Definition NoneType_new : PyType := PyType_new cls_NoneType Py_None.
Definition NullType_new : PyType := PyType_new cls_NullType PythonMonkey_Null.

(** ** [pyTypeFactory.cc] *)

(** [PyType *pyTypeFactory(PyObject *object)] *)
Definition pyTypeFactory_PyObject (object : loc) : M (option PyType) :=
  t <- Py_TYPE object ;;
  if PyLong_Check t then ret (Some (PyType_new cls_IntType object))
  else if PyUnicode_Check t then ret (Some (PyType_new cls_StrType object))
  else if PyFunction_Check t then ret (Some (PyType_new cls_FuncType object))
  else if PyDict_Check t then ret (Some (PyType_new cls_DictType object))
  else if PyList_Check t then ret (Some (PyType_new cls_ListType object))
  else if PyTuple_Check t then ret (Some (PyType_new cls_TupleType object))
  else ret None.

Section Dispatcher.
(** What a constructor from another translation unit does to the
    interpreter, and the [pyObject] its wrapper ends up with. *)
Variable construct : Ctor -> M (option loc).

(** [JS::ToString] followed by [JS_EncodeStringToUTF8]; [None] when the
    engine yields no string. *)
Variable JS_ToString : JSValue -> option string.

Definition new (c : Ctor) : M (option PyType) :=
  p <- construct c ;;
  ret (Some {| returnType := Ctor_class c; pyObject := p |}).

(** The tail of [pyTypeFactory], reached by every value no branch
    returned for. *)
Definition classification_error (rval : JSValue) : M (option PyType) :=
  match JS_ToString rval with
  | None => crash
  | Some str =>
      let errorString :=
        ("pythonmonkey cannot yet convert Javascript value of: " ++ str)%string in
      PyErr_SetString PyExc_TypeError errorString ;;;
      ret None
  end.

(** The identity short-circuit: [obj] is one of our own proxies. *)
Definition unwrap_proxy (obj : JSObject) : option PyType :=
  match obj_proxy_handler obj with
  | Some h =>
      if decide (family h = PyDictProxyHandler_family)
      then Some (PyType_new cls_DictType (handler_pyObject h))
      else if decide (family h = PyListProxyHandler_family)
      then Some (PyType_new cls_ListType (handler_pyObject h))
      else if decide (family h = PyObjectProxyHandler_family)
      then Some (PyType_new cls_PyType (handler_pyObject h))
      else None
  | None => None
  end.

(** [PyType *pyTypeFactory(JSContext *cx, JS::Rooted<JSObject *> *thisObj,
    JS::HandleValue rval)] *)
Definition pyTypeFactory (rval : JSValue) : M (option PyType) :=
  match rval with
  | JSVal_Undefined => ret (Some NoneType_new)
  | JSVal_Null => ret (Some NullType_new)
  | JSVal_Boolean b => new (new_BoolType b)
  | JSVal_Number d => new (new_FloatType d)
  | JSVal_String str => new (new_StrType str)
  | JSVal_Symbol _ =>
      printf "symbol type is not handled by PythonMonkey yet" ;;;
      classification_error rval
  | JSVal_BigInt bigint =>
      w <- IntType_from_BigInt bigint ;; ret (Some w)
  | JSVal_Object obj =>
      match unwrap_proxy obj with
      | Some w => ret (Some w)
      | None =>
          let cls := if obj_is_bound_function obj then ESClass_Function
                     else obj_builtin_class obj in
          match cls with
          | ESClass_Boolean =>
              match obj_unboxed obj with
              | prim_boolean b => new (new_BoolType b)
              | _ => crash
              end
          | ESClass_Date => new (new_DateType obj)
          | ESClass_Promise => new (new_PromiseType obj)
          | ESClass_Error => new (new_ExceptionType obj)
          | ESClass_Function =>
              match obj_callPyFunc_slot obj with
              | Some pyFunc => ret (Some (PyType_new cls_FuncType pyFunc))
              | None => new (new_FuncType rval)
              end
          | ESClass_Number =>
              match obj_unboxed obj with
              | prim_number d => new (new_FloatType d)
              | _ => crash
              end
          | ESClass_BigInt =>
              match obj_unboxed obj with
              | prim_bigint bigint =>
                  w <- IntType_from_BigInt bigint ;; ret (Some w)
              | _ => crash
              end
          | ESClass_String =>
              match obj_unboxed obj with
              | prim_string str => new (new_StrType str)
              | _ => crash
              end
          | ESClass_Array => new (new_ListType obj)
          | _ =>
              if obj_is_supported_buffer obj then new (new_BufferType obj)
              else new (new_DictType rval)
          end
      end
  | JSVal_Magic _ =>
      printf "magic type is not handled by PythonMonkey yet\n" ;;;
      classification_error rval
  | JSVal_PrivateGCThing => classification_error rval
  end.

(** [PyType *pyTypeFactorySafe(JSContext *cx, JS::Rooted<JSObject *> *thisObj,
    JS::HandleValue rval)] *)
Definition pyTypeFactorySafe (rval : JSValue) : M (option PyType) :=
  v <- pyTypeFactory rval ;;
  occurred <- PyErr_Occurred ;;
  if occurred : bool then
    PyErr_Clear ;;;
    ret (Some NullType_new)
  else ret v.
End Dispatcher.

(** ** Well-formed integer objects, and what the design document calls
    things *)

(** The representation invariant of a [PyLongObject]: [|ob_size|] digits,
    each below [2^30], the most significant one not zero, and a size that
    fits [Py_ssize_t] with its negation. *)
Definition PyLong_wf (o : PyObject) : bool :=
  (Z.abs (ob_size o) =? Z.of_nat (length (ob_digit o)))
  && forallb (fun d => (0 <=? d) && (d <? 2 ^ PyLong_SHIFT)) (ob_digit o)
  && bool_decide (last (ob_digit o) <> Some 0)
  && (PY_SSIZE_T_MIN <? ob_size o) && (ob_size o <=? PY_SSIZE_T_MAX).

(** The two boolean objects. *)
Definition Py_True_object : PyObject :=
  {| ob_type := PyBool_Type; ob_size := 1; ob_digit := [1] |}.
Definition Py_False_object : PyObject :=
  {| ob_type := PyBool_Type; ob_size := 0; ob_digit := [] |}.

(** The ceiling of [a / b], in the words of the design document. *)
Definition ceil_div (a b : Z) : Z := (a + b - 1) / b.

(** "ceil(bits / digit-width), with a minimum of one digit". *)
Definition spec_digit_count (bits : Z) : Z := Z.max 1 (ceil_div bits JS_DIGIT_BIT).

(** The largest bit count whose digit count fits the engine's 32-bit
    length field. *)
Definition MAX_BIT_COUNT : Z := JS_DIGIT_BIT * (2 ^ 32 - 1).

(** The values no branch of [pyTypeFactory] returns for. *)
Definition unrecognized (rval : JSValue) : bool :=
  match rval with
  | JSVal_Symbol _ | JSVal_Magic _ | JSVal_PrivateGCThing => true
  | _ => false
  end.

(** One of the three handler families of this project. *)
Definition is_our_family (f : ProxyFamily) : bool :=
  match f with
  | PyDictProxyHandler_family | PyListProxyHandler_family
  | PyObjectProxyHandler_family => true
  | foreign_family _ => false
  end.

Definition family_wrapper (f : ProxyFamily) : WrapperClass :=
  match f with
  | PyDictProxyHandler_family => cls_DictType
  | PyListProxyHandler_family => cls_ListType
  | _ => cls_PyType
  end.

(** None of the six checks of the A-to-B dispatcher accepts the type. *)
Definition unrecognized_kind (t : PyTypeObject) : bool :=
  negb (PyLong_Check t) && negb (PyUnicode_Check t) && negb (PyFunction_Check t)
  && negb (PyDict_Check t) && negb (PyList_Check t) && negb (PyTuple_Check t).

(** The magnitude that reaches the destination integer when the source
    magnitude is [mag] and the digit count came out as [jsDigitCount]:
    [mag] itself when it fits the digits, otherwise what the conversion
    primitives leave after their overflow. *)
Definition encoded_magnitude (jsDigitCount mag : Z) : Z :=
  if jsDigitCount <=? 1 then (if mag <? 2 ^ 64 then mag else 2 ^ 64 - 1)
  else mag mod 2 ^ (64 * jsDigitCount).

Definition encoded_fits (jsDigitCount mag : Z) : bool :=
  if jsDigitCount <=? 1 then mag <? 2 ^ 64 else mag <? 2 ^ (64 * jsDigitCount).

(** The hex string of a byte buffer, two characters per byte. *)
Definition hex_string (bytes : list Z) : list ascii :=
  flat_map (fun b => [nth (Z.to_nat (Z.land (Z.shiftr b 4) 15)) HEX_CHAR_LOOKUP_TABLE zero;
                      nth (Z.to_nat (Z.land b 15)) HEX_CHAR_LOOKUP_TABLE zero]) bytes.

Definition add_log (evs : list Event) (s : PyState) : PyState :=
  {| heap := heap s; err := err s; log := evs ++ log s |}.

Definition set_err (e : option (PyExc * string)) (s : PyState) : PyState :=
  {| heap := heap s; err := e; log := log s |}.

Definition clear_err (s : PyState) : PyState :=
  {| heap := heap s; err := None; log := log s |}.

(** Stand-ins for the constructors of the other translation units and for
    the engine's string conversion, to run the dispatcher on examples:
    every constructor allocates one object and touches nothing else. *)
Definition sample_construct (c : Ctor) : M (option loc) :=
  p <- alloc {| ob_type := {| tp_name := "object"; tp_flags := Py_TPFLAGS_DEFAULT |};
                ob_size := 0; ob_digit := [] |} ;;
  ret (Some p).

Definition sample_ToString (rval : JSValue) : option string :=
  match rval with
  | JSVal_Symbol description => Some ("Symbol(" ++ description ++ ")")%string
  | JSVal_Undefined => Some "undefined"
  | JSVal_Null => Some "null"
  | JSVal_Boolean true => Some "true"
  | JSVal_Boolean false => Some "false"
  | JSVal_String str => Some str
  | _ => None
  end.

(** [JS::ToString] as the language defines it on the values it is simple
    for: a symbol has no string conversion, the engine throws a
    [TypeError] and returns null.  Every other conversion (numbers, big
    integers, objects, and what is not a language value) is the parameter
    [other]. *)
Definition engine_ToString (other : JSValue -> option string) (rval : JSValue)
  : option string :=
  match rval with
  | JSVal_Symbol _ => None
  | JSVal_Undefined => Some "undefined"
  | JSVal_Null => Some "null"
  | JSVal_Boolean true => Some "true"
  | JSVal_Boolean false => Some "false"
  | JSVal_String str => Some str
  | _ => other rval
  end.

(** ** Names for what the codec leaves behind *)

Definition hex_char (n : Z) : ascii := nth (Z.to_nat n) HEX_CHAR_LOOKUP_TABLE zero.

(** The error [_PyLong_AsByteArray] raises when the buffer is too small. *)
Definition overflow_error : option (PyExc * string) :=
  Some (PyExc_OverflowError, "int too big to convert"%string).

(** Whether the destination integer gets built for the digit count [c]:
    always on the fast path; on the path through the hex string, when the
    literal parser finds room for the characters left after the leading
    zeros. *)
Definition parser_accepts (jsDigitCount mag : Z) : bool :=
  (jsDigitCount <=? 1)
  || match calculateMaximumDigitsRequired 16
             (Z.of_nat (length (skip_zeros
                (hex_string (rev (to_digits 8 (Z.to_nat (8 * jsDigitCount)) mag))))))
     with
     | Some _ => true
     | None => false
     end.

(** The library call [toJsBigInt_convert] makes for a digit count [c]. *)
Definition conv_event (p : loc) (c : Z) : Event :=
  if c <=? 1 then Ev_PyLong_AsUnsignedLongLong p
  else Ev_PyLong_AsByteArray p (size_t (JS_DIGIT_BYTE * c)).

(** The object with its stored length forced positive. *)
Definition forced_positive (o : PyObject) : PyObject :=
  {| ob_type := ob_type o; ob_size := - ob_size o; ob_digit := ob_digit o |}.

(** The calls of a successful [toJsBigInt], most recent first. *)
Definition toJsBigInt_events (p : loc) (o : PyObject) (c : Z) : list Event :=
  if ob_size o <? 0
  then [Ev_Py_SET_SIZE p (ob_size o); conv_event p c; Ev_Py_SET_SIZE p (- ob_size o)]
  else [conv_event p c].

Definition with_sign (negative : bool) (b : BigInt) : BigInt :=
  if negative then set_sign_bit b else b.

(** The object the decoder builds for the magnitude [x]. *)
Definition decoded_object (negative : bool) (x : Z) : PyObject :=
  {| ob_type := PythonMonkey_BigInt;
     ob_size := if negative then - digit_count PyLong_SHIFT x
                else digit_count PyLong_SHIFT x;
     ob_digit := norm_digits PyLong_SHIFT x |}.

(** The calls of the decoder, most recent first. *)
Definition decode_events (negative : bool) (p : loc) (c x : Z) : list Event :=
  Ev_Py_SET_TYPE p PythonMonkey_BigInt
  :: (if negative then [Ev_Py_SET_SIZE p (- digit_count PyLong_SHIFT x)] else [])
  ++ [if c =? 0 then Ev_PyLong_New 0 p else Ev_PyLong_FromByteArray (8 * c) p].

(** What the decoder makes of the shared small integer it was handed:
    the object [cached] at that address, retyped, its stored length
    negated for a negative big integer. *)
Definition retyped (negative : bool) (cached : PyObject) : PyObject :=
  {| ob_type := PythonMonkey_BigInt;
     ob_size := if negative then - ob_size cached else ob_size cached;
     ob_digit := ob_digit cached |}.

(** The calls of the decoder on a shared small integer, most recent
    first. *)
Definition decode_events_cached (negative : bool) (p : loc) (c : Z) (cached : PyObject)
  : list Event :=
  Ev_Py_SET_TYPE p PythonMonkey_BigInt
  :: (if negative then [Ev_Py_SET_SIZE p (- ob_size cached)] else [])
  ++ [Ev_PyLong_FromByteArray (8 * c) p].

(** The shared object of the small integer [ival] still denotes
    [ival]. *)
Definition small_int_intact (s : PyState) (ival : Z) : Prop :=
  exists cached,
    heap s !! small_int ival = Some cached
    /\ PyLong_wf cached = true /\ long_value cached = ival.

(** An integer of [k + 1] digits: [k] zero digits below the digit 16,
    that is [2^(30 k + 4)]. *)
Definition huge_int_of (k : nat) : PyObject :=
  {| ob_type := PyLong_Type; ob_size := Z.of_nat k + 1; ob_digit := repeat 0 k ++ [16] |}.

(** The integer [2^(2^38)]: 9162596898 zero digits below the digit 16
    (30 * 9162596898 + 4 = 2^38).  Its magnitude needs [2^32 + 1] 64-bit
    digits, one more than a 32-bit digit count can tell from 1. *)
Definition huge_int : PyObject := huge_int_of (Z.to_nat 9162596898).

Definition huge_state : PyState :=
  {| heap := <[10%positive := huge_int]> initial_heap; err := None; log := [] |}.

(** ** Well-formed big integers *)

(** The engine's invariant on a [JS::BigInt]: a digit count within the
    size limit; the digits inline when there is at most one, on the heap
    otherwise; every digit below [2^64] and the most significant one not
    zero; zero is not negative. *)
Definition BigInt_wf (b : BigInt) : bool :=
  (0 <=? lengthField b) && (lengthField b <=? BigInt_MaxDigitLength)
  && (negb (BigIntIsNegative b) || negb (lengthField b =? 0))
  && match storage b with
     | inlineDigits d =>
         (lengthField b <=? JS_INLINE_DIGIT_MAX_LEN)
         && ((lengthField b =? 0) || ((0 <? d) && (d <? 2 ^ JS_DIGIT_BIT)))
     | heapDigits ds =>
         (JS_INLINE_DIGIT_MAX_LEN <? lengthField b)
         && (Z.of_nat (length ds) =? lengthField b)
         && forallb (fun d => (0 <=? d) && (d <? 2 ^ JS_DIGIT_BIT)) ds
         && bool_decide (last ds <> Some 0)
     end.

(** ** The dispatcher's view of objects, as tables *)

(** The primitive a boxed primitive stands for: the built-in class and
    what [js::Unbox] finds agree. *)
Definition boxed_primitive (obj : JSObject) : option JSValue :=
  match obj_builtin_class obj, obj_unboxed obj with
  | ESClass_Boolean, prim_boolean b => Some (JSVal_Boolean b)
  | ESClass_Number, prim_number d => Some (JSVal_Number d)
  | ESClass_String, prim_string str => Some (JSVal_String str)
  | ESClass_BigInt, prim_bigint bigint => Some (JSVal_BigInt bigint)
  | _, _ => None
  end.

(** Which wrapper class an object ends up in: our own proxies by family,
    then bound functions and functions, then the built-in classes, then
    buffers, and a mapping for all the rest. *)
Definition object_wrapper_class (obj : JSObject) : WrapperClass :=
  let by_class :=
    if obj_is_bound_function obj then cls_FuncType
    else match obj_builtin_class obj with
         | ESClass_Boolean => cls_BoolType
         | ESClass_Date => cls_DateType
         | ESClass_Promise => cls_PromiseType
         | ESClass_Error => cls_ExceptionType
         | ESClass_Function => cls_FuncType
         | ESClass_Number => cls_FloatType
         | ESClass_BigInt => cls_IntType
         | ESClass_String => cls_StrType
         | ESClass_Array => cls_ListType
         | _ => if obj_is_supported_buffer obj then cls_BufferType else cls_DictType
         end in
  match obj_proxy_handler obj with
  | Some h => if is_our_family (family h) then family_wrapper (family h) else by_class
  | None => by_class
  end.


(** ** [PyEvaluator.cc]: the caller of the A-to-B dispatcher *)

Section Evaluator.
(** The interpreter calls [PyEvaluator::eval] makes, each by its result
    ([None] is [NULL]) and what it does to the interpreter state; and
    [operator<<] on a wrapper, by the text it writes. *)
Variable PyRun_String : string -> M (option loc).
Variable PyObject_GetAttrString : string -> M (option loc).
Variable PyCallable_Check : loc -> M bool.
Variable PyObject_CallObject : loc -> loc -> M (option loc).
Variable show_PyType : PyType -> string.

Definition cannot_find_function : string :=
  ("Cannot find function "
   ++ String (ascii_of_nat 34) ("blah" ++ String (ascii_of_nat 34) (String (ascii_of_nat 10) "")))%string.

(** [void PyEvaluator::eval(const std::string &input, const std::string
    &func_name, TupleType *args)]; [args] is [args->getPyObject()].  What
    goes to [std::cout] and to [stderr] is logged alike. *)
Definition PyEvaluator_eval (input func_name : string) (args : loc) : M unit :=
  py_create_func <- PyRun_String input ;;
  match py_create_func with
  | None =>
      occurred <- PyErr_Occurred ;;
      if occurred : bool then printf "Something wronog happened" else ret tt
  | Some _ =>
      py_func <- PyObject_GetAttrString func_name ;;
      callable <- match py_func with
                  | None => ret false
                  | Some f => PyCallable_Check f
                  end ;;
      match py_func, callable with
      | Some f, true =>
          function_return <- PyObject_CallObject f args ;;
          match function_return with
          | None => crash            (* PyLong_Check reads the type of NULL *)
          | Some r =>
              pytype_function_return <- pyTypeFactory_PyObject r ;;
              match pytype_function_return with
              | None => crash        (* the null wrapper is dereferenced *)
              | Some w => printf (show_PyType w)
              end
          end
      | _, _ =>
          occurred <- PyErr_Occurred ;;
          (if occurred : bool then printf "function is not callable" else ret tt) ;;;
          printf cannot_find_function
      end
  end.
End Evaluator.

(** Stand-ins for the interpreter, to run the evaluator on examples: the
    script defines its function at address 20, the function is callable
    and returns the object at address 21. *)
Definition sample_PyRun_String (input : string) : M (option loc) :=
  if String.eqb input "" then
    PyErr_SetString PyExc_TypeError "invalid syntax" ;;; ret None
  else ret (Some Py_None).
Definition sample_GetAttrString (name : string) : M (option loc) := ret (Some 20%positive).
Definition sample_Callable_Check (f : loc) : M bool := ret true.
Definition sample_CallObject (f args : loc) : M (option loc) := ret (Some 21%positive).
Definition sample_show (w : PyType) : string := "wrapper".

(** ** Further names and examples *)

(** The error [_PyLong_NumBits] leaves behind when the bit count does not
    fit [size_t]. *)
Definition too_many_bits_error : option (PyExc * string) :=
  Some (PyExc_OverflowError,
        "int has too many bits to express in a platform size_t"%string).

(** A negative big integer of two digits, [-(2^70 - 1)]. *)
Definition sample_bigint : BigInt :=
  {| flagsField := SIGN_BIT_MASK; lengthField := 2; storage := heapDigits [2 ^ 64 - 1; 63] |}.

(** The big integer [-5], whose magnitude is one of the small integers. *)
Definition sample_small_bigint : BigInt :=
  {| flagsField := SIGN_BIT_MASK; lengthField := 1; storage := inlineDigits 5 |}.

(** Objects and states to run the code on. *)
Definition sample_float : PyObject :=
  {| ob_type := PyFloat_Type; ob_size := 0; ob_digit := [] |}.

Definition sample_eval_state (returned : PyObject) : PyState :=
  {| heap := <[21%positive := returned]>
               (<[20%positive := {| ob_type := PyFunction_Type; ob_size := 0; ob_digit := [] |}]>
                  initial_heap);
     err := None; log := [] |}.

Definition sample_GetAttrString_missing (name : string) : M (option loc) :=
  PyErr_SetString PyExc_TypeError "module has no such attribute" ;;; ret None.

Definition sample_boxed_bigint : JSObject :=
  {| obj_proxy_handler := None; obj_builtin_class := ESClass_BigInt;
     obj_is_bound_function := false; obj_callPyFunc_slot := None;
     obj_unboxed := prim_bigint sample_bigint; obj_is_supported_buffer := false |}.

Definition sample_wrapped_function : JSObject :=
  {| obj_proxy_handler := None; obj_builtin_class := ESClass_Function;
     obj_is_bound_function := false; obj_callPyFunc_slot := Some 20%positive;
     obj_unboxed := prim_none; obj_is_supported_buffer := false |}.

Definition sample_int_state (n : Z) : PyState :=
  {| heap := <[10%positive := PyLong_FromZ n]> initial_heap; err := None; log := [] |}.

(** * Properties *)

(** ** Running the monad *)

Ltac munfold :=
  unfold bind, ret, crash, emit, printf, deref, store, alloc,
    PyErr_Occurred, PyErr_Clear, PyErr_SetString in *.

Ltac mcases :=
  simplify_eq /=; try done; repeat (case_match; simplify_eq /=; try done).

Lemma bind_Some {A B} (m : M A) (k : A -> M B) s b s' :
  bind m k s = Some (b, s') <->
  exists a s1, m s = Some (a, s1) /\ k a s1 = Some (b, s').
Proof.
  unfold bind. split.
  - destruct (m s) as [[a s1]|]; [eauto | done].
  - intros (a & s1 & -> & H). done.
Qed.

Lemma bind_run {A B} (m : M A) (k : A -> M B) s a s1 :
  m s = Some (a, s1) -> bind m k s = k a s1.
Proof. unfold bind. by intros ->. Qed.

(** ** Digit strings *)

Section RadixFacts.
Variable w : Z.
Hypothesis w_pos : 0 < w.


Lemma to_digits_length n x : length (to_digits w n x) = n.
Proof. revert x. induction n; intros; simpl; [done | by rewrite IHn]. Qed.

Lemma to_digits_ok n x : Forall (digit_ok w) (to_digits w n x).
Proof.
  revert x. induction n; intros; simpl; constructor; [| done].
  unfold digit_ok. apply Z.mod_pos_bound. apply Z.pow_pos_nonneg; lia.
Qed.

Lemma digits_value_to_digits n x :
  digits_value w (to_digits w n x) = x mod 2 ^ (w * Z.of_nat n).
Proof.
  revert x. induction n; intros x.
  - simpl. rewrite Z.mul_0_r, Z.pow_0_r. by rewrite Z.mod_1_r.
  - cbn [to_digits digits_value]. rewrite IHn.
    replace (w * Z.of_nat (S n)) with (w + w * Z.of_nat n) by lia.
    rewrite Z.pow_add_r by lia.
    rewrite Z.rem_mul_r; [done | |].
    + apply Z.pow_nonzero; lia.
    + apply Z.pow_pos_nonneg; lia.
Qed.

Lemma digits_value_bound ds :
  Forall (digit_ok w) ds ->
  0 <= digits_value w ds < 2 ^ (w * Z.of_nat (length ds)).
Proof.
  induction 1 as [|d ds Hd _ IH].
  - simpl. rewrite Z.mul_0_r, Z.pow_0_r. lia.
  - cbn [digits_value length].
    replace (w * Z.of_nat (S (length ds))) with (w + w * Z.of_nat (length ds)) by lia.
    rewrite Z.pow_add_r by lia. unfold digit_ok in Hd.
    assert (0 < 2 ^ w) by (apply Z.pow_pos_nonneg; lia).
    nia.
Qed.

Lemma digits_value_app a b :
  digits_value w (a ++ b) =
  digits_value w a + 2 ^ (w * Z.of_nat (length a)) * digits_value w b.
Proof.
  induction a as [|d a IH].
  - simpl. rewrite Z.mul_0_r, Z.pow_0_r. lia.
  - cbn [app digits_value length]. rewrite IH.
    replace (w * Z.of_nat (S (length a))) with (w + w * Z.of_nat (length a)) by lia.
    rewrite Z.pow_add_r by lia. ring.
Qed.

Lemma to_digits_digits_value ds :
  Forall (digit_ok w) ds ->
  to_digits w (length ds) (digits_value w ds) = ds.
Proof.
  induction 1 as [|d ds Hd _ IH]; [done |].
  cbn [length digits_value to_digits]. unfold digit_ok in Hd.
  assert (0 < 2 ^ w) by (apply Z.pow_pos_nonneg; lia).
  replace (d + 2 ^ w * digits_value w ds) with (d + digits_value w ds * 2 ^ w) by ring.
  rewrite Z.mod_add, Z.div_add by lia.
  rewrite Z.mod_small, Z.div_small by done. rewrite Z.add_0_l. by rewrite IH.
Qed.
End RadixFacts.

(** ** Bit lengths *)

Lemma bit_length_nonneg x : 0 <= bit_length x.
Proof.
  unfold bit_length. destruct (Z.leb_spec x 0); [lia |].
  pose proof (Z.log2_nonneg x). lia.
Qed.

(** [bit_length x] is the least [k] with [x < 2^k]. *)
Lemma bit_length_le x k : 0 <= x -> 0 <= k -> bit_length x <= k <-> x < 2 ^ k.
Proof.
  intros Hx Hk. unfold bit_length. destruct (Z.leb_spec x 0).
  - assert (x = 0) as -> by lia. split; [| lia]. intros _. apply Z.pow_pos_nonneg; lia.
  - rewrite (Z.log2_lt_pow2 x k) by lia. lia.
Qed.

Lemma bit_length_spec x : 0 <= x -> x < 2 ^ bit_length x.
Proof.
  intros. apply bit_length_le; [done | apply bit_length_nonneg | lia].
Qed.

Lemma bit_length_pos x : 0 < x -> 0 < bit_length x.
Proof.
  intros. unfold bit_length. destruct (Z.leb_spec x 0); [lia |].
  pose proof (Z.log2_nonneg x). lia.
Qed.

Lemma bit_length_0 : bit_length 0 = 0.
Proof. reflexivity. Qed.

(** A most significant digit [m >= 1] on top of [k] low bits. *)
Lemma bit_length_top a k m :
  0 <= k -> 0 <= a < 2 ^ k -> 0 < m ->
  bit_length (a + 2 ^ k * m) = k + bit_length m.
Proof.
  intros Hk Ha Hm. unfold bit_length.
  assert (0 < 2 ^ k) by (apply Z.pow_pos_nonneg; lia).
  destruct (Z.leb_spec (a + 2 ^ k * m) 0); [nia |].
  destruct (Z.leb_spec m 0); [lia |].
  pose proof (Z.log2_nonneg m). pose proof (Z.log2_spec m Hm) as [Hl Hu].
  rewrite (Z.log2_unique (a + 2 ^ k * m) (k + Z.log2 m)); [lia | lia |].
  replace (Z.succ (k + Z.log2 m)) with (k + Z.succ (Z.log2 m)) by lia.
  rewrite !Z.pow_add_r by lia. nia.
Qed.

Lemma digit_count_nonneg w x : 0 < w -> 0 <= digit_count w x.
Proof.
  intros. unfold digit_count. pose proof (bit_length_nonneg x).
  apply Z.div_pos; lia.
Qed.

(** The digit count is the ceiling of the bit length over the width. *)
Lemma digit_count_spec w x :
  0 < w -> w * (digit_count w x - 1) < bit_length x <= w * digit_count w x.
Proof.
  intros. unfold digit_count.
  pose proof (Z.div_mod (bit_length x + w - 1) w ltac:(lia)).
  pose proof (Z.mod_pos_bound (bit_length x + w - 1) w ltac:(lia)). lia.
Qed.

Lemma digit_count_fits w x :
  0 < w -> 0 <= x -> x < 2 ^ (w * digit_count w x).
Proof.
  intros. pose proof (digit_count_spec w x ltac:(done)).
  pose proof (digit_count_nonneg w x ltac:(done)).
  apply bit_length_le; [done | nia | lia].
Qed.

Lemma norm_digits_length w x :
  0 < w -> Z.of_nat (length (norm_digits w x)) = digit_count w x.
Proof.
  intros. unfold norm_digits. rewrite to_digits_length.
  apply Z2Nat.id. by apply digit_count_nonneg.
Qed.

Lemma norm_digits_value w x :
  0 < w -> 0 <= x -> digits_value w (norm_digits w x) = x.
Proof.
  intros. unfold norm_digits. rewrite digits_value_to_digits by done.
  rewrite Z2Nat.id by (by apply digit_count_nonneg).
  apply Z.mod_small. split; [done | by apply digit_count_fits].
Qed.

(** ** The hex string *)


Lemma char_digit_hex n : 0 <= n < 16 -> char_digit (hex_char n) = Some n.
Proof.
  intros [Hlo Hhi]. destruct n as [|q|q]; [reflexivity | | lia].
  do 4 (destruct q as [q|q|]; try reflexivity); lia.
Qed.

(** A hex character is a digit, so it is not one of the sign characters
    the literal parser looks for. *)
Lemma hex_char_not_sign n c :
  0 <= n < 16 -> char_digit c = None -> hex_char n <> c.
Proof.
  intros Hn Hc E. pose proof (char_digit_hex n Hn) as H. rewrite E, Hc in H. discriminate.
Qed.

Lemma nibble_high b : 0 <= b < 256 -> Z.land (Z.shiftr b 4) 15 = b / 16.
Proof.
  intros. rewrite Z.shiftr_div_pow2 by lia.
  change 15 with (Z.ones 4). rewrite Z.land_ones by lia.
  change (2 ^ 4) with 16. apply Z.mod_small.
  split; [apply Z.div_pos; lia | apply Z.div_lt_upper_bound; lia].
Qed.

Lemma nibble_low b : Z.land b 15 = b mod 16.
Proof. change 15 with (Z.ones 4). by rewrite Z.land_ones by lia. Qed.

(** Parsing the hex string of a buffer reads the buffer as a big-endian
    number. *)
Lemma parse_hex_string bytes acc :
  Forall (digit_ok 8) bytes ->
  parse_digits 16 acc (hex_string bytes) =
    Some (fold_left (fun a b => a * 256 + b) bytes acc).
Proof.
  intros Hb. revert acc. induction Hb as [|b bytes Hb _ IH]; intros acc; [done |].
  unfold digit_ok in Hb. change (2 ^ 8) with 256 in Hb.
  cbn [hex_string flat_map app fold_left parse_digits].
  rewrite nibble_high, nibble_low by done.
  fold (hex_char (b / 16)). fold (hex_char (b mod 16)).
  assert (0 <= b / 16 < 16)
    by (split; [apply Z.div_pos; lia | apply Z.div_lt_upper_bound; lia]).
  pose proof (Z.mod_pos_bound b 16 ltac:(lia)).
  rewrite !char_digit_hex by done.
  destruct (Z.ltb_spec (b / 16) 16); [| lia].
  destruct (Z.ltb_spec (b mod 16) 16); [| lia].
  fold (hex_string bytes). rewrite IH. do 2 f_equal.
  pose proof (Z.div_mod b 16 ltac:(lia)). lia.
Qed.

Lemma fold_left_big_endian ds :
  fold_left (fun a b => a * 256 + b) (rev ds) 0 = digits_value 8 ds.
Proof.
  induction ds as [|d ds IH]; [done |].
  cbn [rev digits_value]. rewrite fold_left_app. cbn [fold_left].
  rewrite IH. change (2 ^ 8) with 256. lia.
Qed.

Lemma hex_string_length bytes : length (hex_string bytes) = (2 * length bytes)%nat.
Proof. induction bytes; simpl; [done | lia]. Qed.

Lemma hex_string_first bytes b rest :
  bytes = b :: rest -> 0 <= b < 256 ->
  exists c cs, hex_string bytes = c :: cs
               /\ c <> ascii_of_nat 43 /\ c <> ascii_of_nat 45.
Proof.
  intros -> Hb. cbn [hex_string flat_map app].
  eexists _, _. split; [reflexivity |].
  rewrite nibble_high by done. fold (hex_char (b / 16)).
  assert (0 <= b / 16 < 16)
    by (split; [apply Z.div_pos; lia | apply Z.div_lt_upper_bound; lia]).
  split; by apply hex_char_not_sign.
Qed.

(** The loop fills the character buffer with the hex string. *)
Lemma hex_loop_spec rest : forall fuel charCount done_ pre post,
  (length rest <= fuel)%nat ->
  length pre = (2 * length done_)%nat ->
  length post = (2 * length rest)%nat ->
  charCount = Z.of_nat (2 * (length done_ + length rest)) ->
  charCount + 2 < 2 ^ 64 ->
  hex_loop fuel charCount (Z.of_nat (length pre)) (Z.of_nat (length done_))
    (done_ ++ rest) (pre ++ post) = pre ++ hex_string rest.
Proof.
  induction rest as [|b rest IH]; intros fuel charCount done_ pre post Hf Hpre Hpost Hc Hlt.
  - destruct post; [| done]. simpl in Hc. rewrite Nat.add_0_r in Hc.
    destruct fuel; simpl; [done |].
    destruct (Z.ltb_spec (Z.of_nat (length pre)) charCount); [lia | done].
  - destruct fuel as [|fuel]; [simpl in Hf; lia |].
    destruct post as [|c0 [|c1 post]]; try (simpl in Hpost; lia).
    cbn [hex_loop].
    destruct (Z.ltb_spec (Z.of_nat (length pre)) charCount) as [_|Hge];
      [| simpl in Hc; lia].
    rewrite !Nat2Z.id.
    replace (Z.to_nat (Z.of_nat (length pre) + 1)) with (length pre + 1)%nat by lia.
    rewrite nth_middle.
    rewrite (insert_app_r_alt pre _ (length pre)) by lia.
    rewrite (insert_app_r_alt pre _ (length pre + 1)) by lia.
    rewrite Nat.sub_diag.
    replace (length pre + 1 - length pre)%nat with 1%nat by lia.
    cbn [insert list_insert].
    unfold size_t, wrap. rewrite !Z.mod_small by (simpl in Hc; lia).
    specialize (IH fuel charCount (done_ ++ [b]) (pre ++ [
      nth (Z.to_nat (Z.land (Z.shiftr b 4) 15)) HEX_CHAR_LOOKUP_TABLE zero;
      nth (Z.to_nat (Z.land b 15)) HEX_CHAR_LOOKUP_TABLE zero]) post).
    rewrite !length_app in IH. cbn [length] in IH.
    replace (Z.of_nat (length pre) + 2) with (Z.of_nat (length pre + 2)) by lia.
    replace (Z.of_nat (length done_) + 1) with (Z.of_nat (length done_ + 1)) by lia.
    rewrite <- !app_assoc in IH. cbn [app] in IH.
    rewrite IH; [done | | | | | done].
    + simpl in Hf. lia.
    + lia.
    + simpl in Hpost. lia.
    + rewrite Hc. simpl. lia.
Qed.

Lemma bit_length_digits w init m :
  0 < w -> Forall (digit_ok w) init -> 0 < m ->
  bit_length (digits_value w (init ++ [m])) = w * Z.of_nat (length init) + bit_length m.
Proof.
  intros Hw Hi Hm. rewrite digits_value_app by done.
  cbn [digits_value]. rewrite Z.mul_0_r, Z.add_0_r.
  apply bit_length_top; [lia | by apply digits_value_bound | done].
Qed.

(** ** Well-formed integer objects *)

Lemma PyLong_wf_inv o :
  PyLong_wf o = true ->
  Z.abs (ob_size o) = Z.of_nat (length (ob_digit o))
  /\ Forall (digit_ok PyLong_SHIFT) (ob_digit o)
  /\ last (ob_digit o) <> Some 0
  /\ PY_SSIZE_T_MIN < ob_size o <= PY_SSIZE_T_MAX.
Proof.
  unfold PyLong_wf. rewrite !andb_true_iff. intros [[[[H1 H2] H3] H4] H5].
  apply Z.eqb_eq in H1. apply bool_decide_eq_true in H3.
  apply Z.ltb_lt in H4. apply Z.leb_le in H5.
  repeat split; try done.
  apply Forall_forall. intros d Hd. apply list_elem_of_In in Hd.
  rewrite forallb_forall in H2. apply H2 in Hd.
  apply andb_true_iff in Hd as [Hd1 Hd2].
  apply Z.leb_le in Hd1. apply Z.ltb_lt in Hd2. done.
Qed.

Lemma long_digits_wf o :
  Z.abs (ob_size o) = Z.of_nat (length (ob_digit o)) -> long_digits o = ob_digit o.
Proof. intros H. unfold long_digits. apply take_ge. lia. Qed.

Lemma long_magnitude_nonneg o : PyLong_wf o = true -> 0 <= long_magnitude o.
Proof.
  intros (H1 & H2 & _)%PyLong_wf_inv. unfold long_magnitude.
  rewrite long_digits_wf by done.
  by apply digits_value_bound.
Qed.

(** The shape of a non-zero well-formed integer: low digits and a
    non-zero most significant digit. *)
Lemma PyLong_wf_nonzero o :
  PyLong_wf o = true -> ob_size o <> 0 ->
  exists init msd,
    ob_digit o = init ++ [msd]
    /\ Z.abs (ob_size o) = Z.of_nat (length init) + 1
    /\ Forall (digit_ok PyLong_SHIFT) init
    /\ 0 < msd < 2 ^ PyLong_SHIFT
    /\ bit_length (long_magnitude o) =
         PyLong_SHIFT * Z.of_nat (length init) + bit_length msd.
Proof.
  intros Hwf Hnz. pose proof (PyLong_wf_inv o Hwf) as (H1 & H2 & H3 & _).
  destruct (last (ob_digit o)) as [msd|] eqn:Hl.
  - apply last_Some in Hl as [init Hd]. exists init, msd.
    rewrite Hd in H2. apply Forall_app in H2 as [Hi Hm].
    rewrite Forall_singleton in Hm. unfold digit_ok in Hm.
    assert (msd <> 0) by congruence.
    split; [done |]. split; [rewrite H1, Hd, length_app; simpl; lia |].
    split; [done |]. split; [lia |].
    unfold long_magnitude. rewrite long_digits_wf by done. rewrite Hd.
    apply bit_length_digits; [done | done | lia].
  - apply last_None in Hl. rewrite Hl in H1. simpl in H1. lia.
Qed.

Lemma PyLong_wf_zero o :
  PyLong_wf o = true -> ob_size o = 0 -> ob_digit o = [] /\ long_magnitude o = 0.
Proof.
  intros (H1 & _)%PyLong_wf_inv Hz. rewrite Hz in H1. simpl in H1.
  destruct (ob_digit o) eqn:E; [| simpl in H1; lia].
  split; [done |]. unfold long_magnitude, long_digits. by rewrite E, take_nil.
Qed.

Lemma long_magnitude_pos o :
  PyLong_wf o = true -> ob_size o <> 0 -> 0 < long_magnitude o.
Proof.
  intros Hwf Hnz.
  destruct (PyLong_wf_nonzero o Hwf Hnz) as (init & msd & _ & _ & _ & Hm & Hb).
  pose proof (long_magnitude_nonneg o Hwf).
  destruct (Z.eq_dec (long_magnitude o) 0) as [E|]; [| lia].
  rewrite E in Hb. rewrite bit_length_0 in Hb.
  pose proof (bit_length_pos msd ltac:(lia)). unfold PyLong_SHIFT, PYLONG_BITS_IN_DIGIT in Hb. lia.
Qed.

(** Changing the stored length to its absolute value, or the type, does
    not change the magnitude. *)
Lemma long_magnitude_resize o sz t :
  Z.abs sz = Z.abs (ob_size o) ->
  long_magnitude {| ob_type := t; ob_size := sz; ob_digit := ob_digit o |} = long_magnitude o.
Proof. intros H. unfold long_magnitude, long_digits. simpl. by rewrite H. Qed.

(** ** The primitives on well-formed objects *)

Lemma _PyLong_NumBits_spec p s o :
  heap s !! p = Some o ->
  PyLong_wf o = true ->
  bit_length (long_magnitude o) <= SIZE_MAX ->
  _PyLong_NumBits p s = Some (bit_length (long_magnitude o), s).
Proof.
  intros Hp Hwf Hb. unfold _PyLong_NumBits. munfold. rewrite Hp.
  destruct (Z.ltb_spec 0 (Z.abs (ob_size o))) as [Hn|Hn].
  - destruct (PyLong_wf_nonzero o Hwf ltac:(lia)) as (init & msd & Hd & Hs & Hi & Hm & Hbits).
    rewrite Hd, Hs.
    replace (Z.to_nat (Z.of_nat (length init) + 1 - 1)) with (length init) by lia.
    rewrite list_lookup_middle by done.
    rewrite Hbits in Hb |- *. unfold bits_in_digit.
    pose proof (bit_length_pos msd ltac:(lia)).
    unfold SIZE_MAX, PyLong_SHIFT, PYLONG_BITS_IN_DIGIT in *.
    destruct (Z.ltb_spec ((2 ^ 64 - 1) / 30) (Z.of_nat (length init) + 1 - 1)) as [Ho|_].
    { exfalso. assert (30 * ((2 ^ 64 - 1) / 30 + 1) > 2 ^ 64 - 1) by (vm_compute; done). nia. }
    destruct (Z.ltb_spec (2 ^ 64 - 1 - bit_length msd) ((Z.of_nat (length init) + 1 - 1) * 30)) as [Ho|_];
      [lia |].
    do 2 f_equal. lia.
  - assert (ob_size o = 0) as Hz by lia.
    apply PyLong_wf_zero in Hz as [_ ->]; done.
Qed.

(** Without the bound the probe still returns: either the bit count, or
    [(size_t)-1] with an [OverflowError] pending. *)
Lemma _PyLong_NumBits_total p s o :
  heap s !! p = Some o ->
  PyLong_wf o = true ->
  exists bits s0,
    _PyLong_NumBits p s = Some (bits, s0)
    /\ heap s0 = heap s /\ log s0 = log s
    /\ (s0 = s \/ (bits = size_t (-1) /\ err s0 <> None)).
Proof.
  intros Hp Hwf. unfold _PyLong_NumBits. munfold. rewrite Hp.
  destruct (Z.ltb_spec 0 (Z.abs (ob_size o))) as [Hn|Hn]; [| eauto 10].
  destruct (PyLong_wf_nonzero o Hwf ltac:(lia)) as (init & msd & Hd & Hs & _).
  rewrite Hd, Hs.
  replace (Z.to_nat (Z.of_nat (length init) + 1 - 1)) with (length init) by lia.
  rewrite list_lookup_middle by done.
  repeat case_match; simpl; eauto 10.
Qed.

Lemma long_value_nonneg_size o :
  PyLong_wf o = true -> 0 <= ob_size o -> long_value o = long_magnitude o.
Proof.
  intros Hwf Hs. unfold long_value.
  destruct (Z.eq_dec (ob_size o) 0) as [Hz|Hz].
  - destruct (PyLong_wf_zero o Hwf Hz) as [_ ->]. lia.
  - rewrite Z.sgn_pos by lia. lia.
Qed.



Lemma long_as_bytes_unsigned p n s o little :
  heap s !! p = Some o ->
  PyLong_wf o = true ->
  0 <= ob_size o ->
  long_as_bytes p n little false s =
    Some ((if long_magnitude o <? 2 ^ (8 * n) then 0 else -1,
           let le := to_digits 8 (Z.to_nat n) (long_magnitude o) in
           if little then le else rev le),
          if long_magnitude o <? 2 ^ (8 * n) then s else set_err overflow_error s).
Proof.
  intros Hp Hwf Hs. unfold long_as_bytes. munfold. rewrite Hp.
  destruct (Z.ltb_spec (ob_size o) 0); [lia |]. cbn [andb].
  rewrite long_value_nonneg_size by done.
  destruct (long_magnitude o <? 2 ^ (8 * n)); [| done].
  by destruct s.
Qed.

Lemma _PyLong_AsByteArray_unsigned p n s o little :
  heap s !! p = Some o ->
  PyLong_wf o = true ->
  0 <= ob_size o ->
  _PyLong_AsByteArray p n little false s =
    Some ((if long_magnitude o <? 2 ^ (8 * n) then 0 else -1,
           let le := to_digits 8 (Z.to_nat n) (long_magnitude o) in
           if little then le else rev le),
          add_log [Ev_PyLong_AsByteArray p n]
            (if long_magnitude o <? 2 ^ (8 * n) then s else set_err overflow_error s)).
Proof.
  intros Hp Hwf Hs. unfold _PyLong_AsByteArray.
  rewrite (bind_run _ _ _ tt (add_log [Ev_PyLong_AsByteArray p n] s)) by done.
  assert (heap (add_log [Ev_PyLong_AsByteArray p n] s) !! p = Some o) as Hp' by done.
  rewrite (long_as_bytes_unsigned p n _ o little Hp' Hwf Hs).
  by destruct (long_magnitude o <? 2 ^ (8 * n)).
Qed.

Lemma BigInt_eta b :
  {| flagsField := flagsField b; lengthField := lengthField b; storage := storage b |} = b.
Proof. by destruct b. Qed.

(** Leading zeros do not change what the digits denote. *)
Lemma parse_skip_zeros radix chars :
  0 < radix -> parse_digits radix 0 (skip_zeros chars) = parse_digits radix 0 chars.
Proof.
  intros Hr. induction chars as [|c r IH]; [done |].
  cbn [skip_zeros]. destruct (Ascii.eqb_spec c (ascii_of_nat 48)) as [->|_]; [| done].
  rewrite IH. cbn [parse_digits]. change (char_digit (ascii_of_nat 48)) with (Some 0).
  cbv iota beta. destruct (Z.ltb_spec 0 radix); [| lia].
  by rewrite Z.mul_0_l.
Qed.

Lemma skip_zeros_length chars : (length (skip_zeros chars) <= length chars)%nat.
Proof.
  induction chars as [|c r IH]; [done |].
  cbn [skip_zeros]. destruct (Ascii.eqb c (ascii_of_nat 48)); simpl; lia.
Qed.

(** Sixteen hex characters per digit: up to [16 * MaxDigitLength]
    characters fit. *)
Lemma calculateMaximumDigitsRequired_hex n :
  0 <= n <= 16 * BigInt_MaxDigitLength ->
  exists d, calculateMaximumDigitsRequired 16 n = Some d.
Proof.
  intros Hn. unfold calculateMaximumDigitsRequired.
  change (nth (Z.to_nat 16) maxBitsPerCharTable 0) with 128.
  change (JS_DIGIT_BIT * bitsPerCharTableMultiplier) with 2048.
  change BigInt_MaxDigitLength with 16384 in *. cbv zeta.
  assert ((n * 128 + 2048 - 1) / 2048 <= 16384) as Hd.
  { pose proof (Z.div_mod (n * 128 + 2048 - 1) 2048 ltac:(lia)).
    pose proof (Z.mod_pos_bound (n * 128 + 2048 - 1) 2048 ltac:(lia)). lia. }
  destruct (Z.ltb_spec 16384 ((n * 128 + 2048 - 1) / 2048)); [lia | eauto].
Qed.

(** The parser on the hex string of a buffer: refused when the
    significant characters exceed the size limit, otherwise the number the
    buffer denotes, most significant byte first. *)
Lemma SimpleStringToBigInt_hex_limit bytes :
  Forall (digit_ok 8) bytes -> bytes <> [] ->
  SimpleStringToBigInt (hex_string bytes) 16 =
    match calculateMaximumDigitsRequired 16
            (Z.of_nat (length (skip_zeros (hex_string bytes)))) with
    | Some _ => Some (BigInt_create (fold_left (fun a b => a * 256 + b) bytes 0))
    | None => None
    end.
Proof.
  intros Hb Hne. destruct bytes as [|b rest]; [done |].
  pose proof (Forall_inv Hb) as Hb0. unfold digit_ok in Hb0. change (2 ^ 8) with 256 in Hb0.
  destruct (hex_string_first (b :: rest) b rest eq_refl Hb0) as (c & cs & Hh & Hplus & Hminus).
  pose proof (hex_string_length (b :: rest)) as Hlen. rewrite Hh in Hlen.
  destruct cs as [|c' cs]; [simpl in Hlen; lia |].
  pose proof (parse_hex_string (b :: rest) 0 Hb) as Hparse.
  set (v := fold_left (fun a b => a * 256 + b) (b :: rest) 0) in *.
  rewrite <- (parse_skip_zeros 16) in Hparse by lia.
  unfold SimpleStringToBigInt. rewrite Hh in Hparse |- *.
  apply Ascii.eqb_neq in Hplus, Hminus. rewrite Hplus, Hminus.
  change ((16 <? 2) || (36 <? 16)) with false. cbv iota.
  destruct (skip_zeros (c :: c' :: cs)) as [|a l] eqn:Hsk.
  - cbn [parse_digits] in Hparse. injection Hparse as <-. reflexivity.
  - destruct (calculateMaximumDigitsRequired 16 (Z.of_nat (length (a :: l)))); [| done].
    rewrite Hparse. cbn [andb]. by rewrite BigInt_eta.
Qed.

Lemma SimpleStringToBigInt_hex bytes :
  Forall (digit_ok 8) bytes -> bytes <> [] ->
  Z.of_nat (length bytes) <= 8 * BigInt_MaxDigitLength ->
  SimpleStringToBigInt (hex_string bytes) 16 =
    Some (BigInt_create (fold_left (fun a b => a * 256 + b) bytes 0)).
Proof.
  intros Hb Hne Hlen. rewrite SimpleStringToBigInt_hex_limit by done.
  pose proof (skip_zeros_length (hex_string bytes)) as Hsk.
  rewrite hex_string_length in Hsk.
  destruct (calculateMaximumDigitsRequired_hex
              (Z.of_nat (length (skip_zeros (hex_string bytes))))) as [d ->]; [lia | done].
Qed.

Lemma PyLong_AsUnsignedLongLong_spec p s o :
  heap s !! p = Some o ->
  PyLong_wf o = true ->
  PyLong_Check (ob_type o) = true ->
  0 <= ob_size o ->
  PyLong_AsUnsignedLongLong p s =
    Some (if long_magnitude o <? 2 ^ 64 then long_magnitude o else 2 ^ 64 - 1,
          add_log [Ev_PyLong_AsUnsignedLongLong p]
            (if long_magnitude o <? 2 ^ 64 then s else set_err overflow_error s)).
Proof.
  intros Hp Hwf Hty Hs.
  pose proof (long_magnitude_nonneg o Hwf) as Hm0.
  unfold PyLong_AsUnsignedLongLong.
  rewrite (bind_run _ _ _ tt (add_log [Ev_PyLong_AsUnsignedLongLong p] s)) by done.
  rewrite (bind_run _ _ _ o (add_log [Ev_PyLong_AsUnsignedLongLong p] s))
    by (unfold deref; simpl; by rewrite Hp).
  rewrite Hty. cbn [negb].
  destruct (Z.eqb_spec (ob_size o) 0) as [Hz|Hz].
  { destruct (PyLong_wf_zero o Hwf Hz) as [_ ->]. done. }
  destruct (Z.eqb_spec (ob_size o) 1) as [H1|H1].
  { destruct (PyLong_wf_nonzero o Hwf Hz) as (init & msd & Hd & Hl & _ & Hmsd & _).
    assert (init = []) as -> by (destruct init; [done | simpl in Hl; lia]).
    assert (long_magnitude o = msd) as ->.
    { unfold long_magnitude. rewrite long_digits_wf by (rewrite Hd; simpl; lia).
      rewrite Hd. simpl. lia. }
    rewrite Hd. simpl.
    assert (msd < 2 ^ 64).
    { unfold PyLong_SHIFT, PYLONG_BITS_IN_DIGIT in Hmsd.
      assert (2 ^ 30 < 2 ^ 64) by (vm_compute; done). lia. }
    destruct (Z.ltb_spec msd (2 ^ 64)); [done | lia]. }
  assert (heap (add_log [Ev_PyLong_AsUnsignedLongLong p] s) !! p = Some o) as Hp' by done.
  rewrite (bind_run _ _ _ _ _ (long_as_bytes_unsigned p 8 _ o true Hp' Hwf Hs)).
  change (8 * 8) with 64.
  destruct (Z.ltb_spec (long_magnitude o) (2 ^ 64)) as [Hfit|Hfit]; cbn [fst snd].
  + change (0 <? 0) with false. cbv iota.
    rewrite digits_value_to_digits by lia.
    change (8 * Z.of_nat (Z.to_nat 8)) with 64.
    rewrite Z.mod_small by lia. done.
  + change (-1 <? 0) with true. cbv iota. done.
Qed.

Lemma toJsBigInt_convert_spec p s o c :
  heap s !! p = Some o ->
  PyLong_wf o = true ->
  PyLong_Check (ob_type o) = true ->
  0 <= ob_size o ->
  0 <= c < 2 ^ 32 ->
  toJsBigInt_convert p c s =
    Some (if parser_accepts c (long_magnitude o)
          then Some (BigInt_create (encoded_magnitude c (long_magnitude o)))
          else None,
          add_log [conv_event p c]
            (if encoded_fits c (long_magnitude o) then s else set_err overflow_error s)).
Proof.
  intros Hp Hwf Hty Hs Hc.
  pose proof (long_magnitude_nonneg o Hwf) as Hm0.
  unfold toJsBigInt_convert, encoded_magnitude, encoded_fits, conv_event, parser_accepts.
  destruct (Z.leb_spec c 1) as [Hc1|Hc1]; cbn [orb].
  - (* through unsigned long long *)
    rewrite (bind_run _ _ _ _ _ (PyLong_AsUnsignedLongLong_spec p s o Hp Hwf Hty Hs)).
    done.
  - (* through the hex string *)
    unfold JS_DIGIT_BYTE in *.
    assert (size_t (8 * c) = 8 * c) as Hbc.
    { unfold size_t, wrap. apply Z.mod_small.
      assert (2 ^ 32 * 8 < 2 ^ 64) by (vm_compute; done). lia. }
    assert (size_t (8 * c * 2) = 16 * c) as Hcc.
    { unfold size_t, wrap. rewrite Z.mod_small; [lia |].
      assert (2 ^ 32 * 16 < 2 ^ 64) by (vm_compute; done). lia. }
    rewrite Hbc, Hcc.
    rewrite (bind_run _ _ _ _ _
               (_PyLong_AsByteArray_unsigned p (8 * c) s o false Hp Hwf Hs)).
    cbn [snd]. cbv zeta.
    set (le := to_digits 8 (Z.to_nat (8 * c)) (long_magnitude o)).
    assert (length le = Z.to_nat (8 * c)) as Hlen by apply to_digits_length.
    assert (hex_loop (Z.to_nat (16 * c)) (16 * c) 0 0 (rev le)
              (repeat zero (Z.to_nat (16 * c))) = hex_string (rev le)) as ->.
    { apply (hex_loop_spec (rev le) (Z.to_nat (16 * c)) (16 * c) [] []
               (repeat zero (Z.to_nat (16 * c)))).
      - rewrite length_rev. lia.
      - done.
      - rewrite repeat_length, length_rev. lia.
      - rewrite length_rev. simpl. lia.
      - assert (2 ^ 32 * 16 + 2 < 2 ^ 64) by (vm_compute; done). lia. }
    rewrite SimpleStringToBigInt_hex_limit.
    + rewrite fold_left_big_endian. unfold le.
      rewrite digits_value_to_digits by lia.
      rewrite Z2Nat.id by lia.
      replace (8 * (8 * c)) with (64 * c) by lia.
      unfold ret. do 2 f_equal.
      by destruct (calculateMaximumDigitsRequired _ _).
    + apply Forall_rev. apply to_digits_ok. lia.
    + intros Hnil. apply (f_equal length) in Hnil. rewrite length_rev in Hnil.
      simpl in Hnil. lia.
Qed.

Lemma char_digit_nonneg c d : char_digit c = Some d -> 0 <= d.
Proof.
  unfold char_digit. cbv zeta. set (n := Z.of_nat (nat_of_ascii c)). intros H.
  destruct ((48 <=? n) && (n <=? 57)) eqn:E1.
  { apply andb_true_iff in E1 as [Hlo _]. apply Z.leb_le in Hlo. injection H as <-. lia. }
  destruct ((97 <=? n) && (n <=? 122)) eqn:E2.
  { apply andb_true_iff in E2 as [Hlo _]. apply Z.leb_le in Hlo. injection H as <-. lia. }
  destruct ((65 <=? n) && (n <=? 90)) eqn:E3; [| discriminate].
  apply andb_true_iff in E3 as [Hlo _]. apply Z.leb_le in Hlo. injection H as <-. lia.
Qed.

(** What [n] digits can denote. *)
Lemma parse_digits_bound radix chars : forall acc v,
  0 < radix -> 0 <= acc ->
  parse_digits radix acc chars = Some v ->
  0 <= v < (acc + 1) * radix ^ Z.of_nat (length chars).
Proof.
  induction chars as [|c r IH]; intros acc v Hr Hacc H.
  - cbn in H. injection H as <-. cbn [length]. change (Z.of_nat 0) with 0.
    rewrite Z.pow_0_r. lia.
  - cbn [parse_digits] in H. destruct (char_digit c) as [d|] eqn:Hd; [| done].
    pose proof (char_digit_nonneg c d Hd) as Hd0.
    destruct (Z.ltb_spec d radix) as [Hlt|]; [| done].
    apply IH in H; [| done | nia].
    cbn [length]. rewrite Nat2Z.inj_succ, Z.pow_succ_r by lia.
    assert (0 < radix ^ Z.of_nat (length r)) by (apply Z.pow_pos_nonneg; lia).
    nia.
Qed.

(** Beyond the engine's size limit the parser finds no room: the
    characters left after the leading zeros are too many. *)
Lemma parser_rejects_beyond_limit c mag :
  1 < c -> 0 <= mag < 2 ^ (64 * c) ->
  BigInt_MaxBitLength < bit_length mag ->
  parser_accepts c mag = false.
Proof.
  intros Hc Hm Hb. unfold parser_accepts.
  destruct (Z.leb_spec c 1); [lia |]. cbn [orb].
  set (le := to_digits 8 (Z.to_nat (8 * c)) mag).
  assert (Forall (digit_ok 8) (rev le)) as Hok by (apply Forall_rev, to_digits_ok; lia).
  pose proof (parse_hex_string (rev le) 0 Hok) as Hparse.
  rewrite fold_left_big_endian in Hparse. unfold le in Hparse at 2.
  rewrite digits_value_to_digits in Hparse by lia.
  rewrite Z2Nat.id in Hparse by lia.
  replace (8 * (8 * c)) with (64 * c) in Hparse by lia.
  rewrite Z.mod_small in Hparse by done.
  rewrite <- (parse_skip_zeros 16) in Hparse by lia.
  apply parse_digits_bound in Hparse; [| lia | lia].
  set (L := Z.of_nat (length (skip_zeros (hex_string (rev le))))) in *.
  assert (0 <= L) as HL by (unfold L; lia).
  assert (bit_length mag <= 4 * L) as Hbits.
  { apply bit_length_le; [lia | lia |].
    rewrite Z.pow_mul_r by lia. change (2 ^ 4) with 16. lia. }
  unfold calculateMaximumDigitsRequired.
  change (nth (Z.to_nat 16) maxBitsPerCharTable 0) with 128.
  change (JS_DIGIT_BIT * bitsPerCharTableMultiplier) with 2048.
  change BigInt_MaxDigitLength with 16384. change BigInt_MaxBitLength with 1048576 in Hb.
  cbv zeta.
  pose proof (Z.div_mod (L * 128 + 2048 - 1) 2048 ltac:(lia)).
  pose proof (Z.mod_pos_bound (L * 128 + 2048 - 1) 2048 ltac:(lia)).
  destruct (Z.ltb_spec 16384 ((L * 128 + 2048 - 1) / 2048)); [done | lia].
Qed.

(** Within the engine's size limit the parser always finds room. *)
Lemma parser_accepts_in_limit c mag :
  0 <= c <= BigInt_MaxDigitLength -> parser_accepts c mag = true.
Proof.
  intros Hc. unfold parser_accepts.
  destruct (Z.leb_spec c 1); [done |]. cbn [orb].
  pose proof (skip_zeros_length
                (hex_string (rev (to_digits 8 (Z.to_nat (8 * c)) mag)))) as Hsk.
  rewrite hex_string_length, length_rev, to_digits_length in Hsk.
  destruct (calculateMaximumDigitsRequired_hex
              (Z.of_nat (length (skip_zeros
                 (hex_string (rev (to_digits 8 (Z.to_nat (8 * c)) mag))))))) as [d ->];
    [lia | done].
Qed.

Lemma jsDigitCount_of_range bits : 0 <= jsDigitCount_of bits < 2 ^ 32.
Proof. unfold jsDigitCount_of, uint32_t, wrap. apply Z.mod_pos_bound. done. Qed.


Lemma forced_positive_wf o :
  PyLong_wf o = true -> ob_size o < 0 -> PyLong_wf (forced_positive o) = true.
Proof.
  intros Hwf Hneg. pose proof (PyLong_wf_inv o Hwf) as (H1 & H2 & H3 & H4).
  unfold PyLong_wf in *. simpl.
  rewrite !andb_true_iff in Hwf |- *. destruct Hwf as [[[[W1 W2] W3] W4] W5].
  repeat split; try done.
  - apply Z.eqb_eq. lia.
  - apply Z.ltb_lt. unfold PY_SSIZE_T_MIN in *. lia.
  - apply Z.leb_le. unfold PY_SSIZE_T_MIN, PY_SSIZE_T_MAX in *. lia.
Qed.

Lemma forced_positive_magnitude o :
  long_magnitude (forced_positive o) = long_magnitude o.
Proof. unfold forced_positive. apply long_magnitude_resize. lia. Qed.



(** [toJsBigInt] once the bit count is known and the probe did not
    fail: a big integer when the parser accepts; otherwise null for a
    source that is not negative, and for a negative one a write through
    the null pointer. *)
Lemma toJsBigInt_run_limit p s o bits s0 :
  _PyLong_NumBits p s = Some (bits, s0) ->
  heap s0 !! p = Some o ->
  PyLong_wf o = true ->
  PyLong_Check (ob_type o) = true ->
  (bits <> size_t (-1) \/ err s0 = None) ->
  let c := jsDigitCount_of bits in
  let mag := long_magnitude o in
  let s' := add_log (toJsBigInt_events p o c)
              (if encoded_fits c mag then s0 else set_err overflow_error s0) in
  toJsBigInt p s =
    if parser_accepts c mag
    then Some (Some (with_sign (ob_size o <? 0) (BigInt_create (encoded_magnitude c mag))), s')
    else if ob_size o <? 0 then None else Some (None, s').
Proof.
  intros Hnb Hp Hwf Hty Hok c mag. cbv zeta. unfold toJsBigInt.
  rewrite (bind_run _ _ _ _ _ Hnb).
  assert ((if bits =? size_t (-1) then PyErr_Occurred else ret false) s0 = Some (false, s0)) as Hf.
  { destruct (Z.eqb_spec bits (size_t (-1))); [| done].
    destruct Hok as [|He]; [done |]. unfold PyErr_Occurred. by rewrite He. }
  rewrite (bind_run _ _ _ _ _ Hf).
  rewrite (bind_run _ _ _ (ob_size o) s0) by (unfold Py_SIZE; munfold; by rewrite Hp).
  fold c. unfold toJsBigInt_events, with_sign.
  pose proof (jsDigitCount_of_range bits) as Hc. fold c in Hc.
  destruct (Z.ltb_spec (ob_size o) 0) as [Hneg|Hpos].
  - (* negative: force positive, convert, restore *)
    set (s1 := {| heap := <[p := forced_positive o]> (heap s0); err := err s0;
                  log := Ev_Py_SET_SIZE p (- ob_size o) :: log s0 |}).
    rewrite (bind_run _ _ _ tt s1)
      by (unfold Py_SET_SIZE; munfold; by rewrite Hp).
    assert (heap s1 !! p = Some (forced_positive o)) as Hp1 by apply lookup_insert_eq.
    pose proof (toJsBigInt_convert_spec p s1 _ c Hp1
                  (forced_positive_wf o Hwf Hneg) Hty ltac:(simpl; lia) Hc) as Hconv.
    rewrite forced_positive_magnitude in Hconv. fold mag in Hconv.
    rewrite (bind_run _ _ _ _ _ Hconv).
    unfold Py_SET_SIZE. munfold.
    assert (<[p := {| ob_type := ob_type o; ob_size := ob_size o; ob_digit := ob_digit o |}]>
              (<[p := forced_positive o]> (heap s0)) = heap s0) as Hheap.
    { rewrite insert_insert_eq. apply insert_id. rewrite Hp. by destruct o. }
    destruct (parser_accepts c mag), (encoded_fits c mag);
      cbn [heap add_log set_err s1 err log];
      rewrite lookup_insert_eq; cbn [heap err log ob_type ob_digit forced_positive];
      unfold add_log, set_err, s1; cbn [heap err log app];
      rewrite ?Hheap; done.
  - (* non-negative *)
    rewrite (bind_run _ _ _ tt s0) by done.
    pose proof (toJsBigInt_convert_spec p s0 o c Hp Hwf Hty Hpos Hc) as Hconv.
    fold mag in Hconv. rewrite (bind_run _ _ _ _ _ Hconv).
    by destruct (parser_accepts c mag).
Qed.

Lemma toJsBigInt_run p s o bits s0 :
  _PyLong_NumBits p s = Some (bits, s0) ->
  heap s0 !! p = Some o ->
  PyLong_wf o = true ->
  PyLong_Check (ob_type o) = true ->
  (bits <> size_t (-1) \/ err s0 = None) ->
  jsDigitCount_of bits <= BigInt_MaxDigitLength ->
  let c := jsDigitCount_of bits in
  let mag := long_magnitude o in
  toJsBigInt p s =
    Some (Some (with_sign (ob_size o <? 0) (BigInt_create (encoded_magnitude c mag))),
          add_log (toJsBigInt_events p o c)
            (if encoded_fits c mag then s0 else set_err overflow_error s0)).
Proof.
  intros Hnb Hp Hwf Hty Hok Hlim c mag.
  pose proof (toJsBigInt_run_limit p s o bits s0 Hnb Hp Hwf Hty Hok) as Hrun.
  cbv zeta in Hrun. fold c mag in Hrun.
  pose proof (jsDigitCount_of_range bits) as Hc.
  by rewrite (parser_accepts_in_limit c mag) in Hrun by (unfold c; lia).
Qed.

Lemma toJsBigInt_probe_failed p s bits s0 :
  _PyLong_NumBits p s = Some (bits, s0) ->
  bits = size_t (-1) -> err s0 <> None ->
  toJsBigInt p s = Some (None, s0).
Proof.
  intros Hnb -> He. unfold toJsBigInt.
  rewrite (bind_run _ _ _ _ _ Hnb).
  rewrite Z.eqb_refl.
  rewrite (bind_run _ _ _ true s0); [done |].
  unfold PyErr_Occurred. by destruct (err s0).
Qed.

(** ** Decoding *)

Lemma digit_bytes_length ds :
  Z.of_nat (length (digit_bytes ds)) = 8 * Z.of_nat (length ds).
Proof.
  induction ds as [|d ds IH]; [done |].
  unfold digit_bytes in *. cbn [flat_map]. rewrite length_app, to_digits_length.
  cbn [length]. unfold JS_DIGIT_BYTE in *. lia.
Qed.

(** The byte view of 64-bit digits on a little-endian host denotes the
    same number. *)
Lemma digit_bytes_value ds :
  Forall (digit_ok 64) ds ->
  digits_value 8 (digit_bytes ds) = digits_value 64 ds.
Proof.
  induction 1 as [|d ds Hd _ IH]; [done |].
  unfold digit_bytes in *. cbn [flat_map digits_value].
  rewrite digits_value_app by lia. rewrite IH, to_digits_length.
  rewrite digits_value_to_digits by lia.
  unfold JS_DIGIT_BYTE. change (8 * Z.of_nat (Z.to_nat 8)) with 64.
  unfold digit_ok in Hd. by rewrite Z.mod_small.
Qed.

Lemma fresh_loc_fresh s : heap s !! fresh_loc s = None.
Proof.
  apply not_elem_of_dom. unfold fresh_loc.
  pose proof (is_fresh (dom (heap s) ∪ statics)) as Hf.
  intros Hd. apply Hf. apply elem_of_union. by left.
Qed.

Lemma fresh_loc_not_static s : fresh_loc s ∉ statics.
Proof.
  unfold fresh_loc. pose proof (is_fresh (dom (heap s) ∪ statics)) as Hf.
  intros Hd. apply Hf. apply elem_of_union. by right.
Qed.

Lemma small_int_static ival : IS_SMALL_INT ival = true -> small_int ival ∈ statics.
Proof.
  intros H. unfold IS_SMALL_INT in H. apply andb_true_iff in H as [Hlo Hhi].
  apply Z.leb_le in Hlo. apply Z.ltb_lt in Hhi.
  unfold statics, small_ints. apply elem_of_union. right.
  apply elem_of_list_to_set, list_elem_of_In, in_map, list_elem_of_In, elem_of_seqZ.
  unfold _PY_NSMALLNEGINTS, _PY_NSMALLPOSINTS in *. lia.
Qed.



(** A digit count of zero: a new object from [_PyLong_New(0)]. *)
Lemma IntType_from_BigInt_zero bigint s :
  uint32_t (lengthField bigint) = 0 ->
  let p := fresh_loc s in
  IntType_from_BigInt bigint s =
    Some ({| returnType := cls_IntType; pyObject := Some p |},
          {| heap := <[p := decoded_object (BigIntIsNegative bigint) 0]> (heap s);
             err := err s;
             log := decode_events (BigIntIsNegative bigint) p 0 0 ++ log s |}).
Proof.
  intros Hz p. unfold IntType_from_BigInt, native_endian_is_big. rewrite Hz.
  change (0 =? 0) with true. cbv iota.
  unfold _PyLong_New, Py_SIZE, Py_SET_SIZE, Py_SET_TYPE. munfold. fold p.
  destruct (BigIntIsNegative bigint);
    repeat (rewrite ?lookup_insert_eq, ?insert_insert_eq;
            cbn [heap err log ob_type ob_size ob_digit]);
    reflexivity.
Qed.

(** A positive digit count: the digits go through the byte buffer, and
    [_PyLong_FromByteArray] is called on the value the digits denote. *)
Lemma IntType_from_BigInt_bytes bigint s ds x :
  let c := uint32_t (lengthField bigint) in
  0 < c ->
  jsDigits_of bigint c = Some ds ->
  Z.of_nat (length ds) = c ->
  Forall (digit_ok 64) ds ->
  digits_value 64 ds = x ->
  IntType_from_BigInt bigint s =
    (object <-
       (p <- (if IS_SMALL_INT x then ret (small_int x)
              else alloc {| ob_type := PyLong_Type;
                            ob_size := Z.sgn x * digit_count PyLong_SHIFT (Z.abs x);
                            ob_digit := norm_digits PyLong_SHIFT (Z.abs x) |}) ;;
        emit (Ev_PyLong_FromByteArray (8 * c) p) ;;;
        ret p) ;;
     (if BigIntIsNegative bigint then
        pyDigitCount <- Py_SIZE object ;;
        Py_SET_SIZE object (- pyDigitCount)
      else ret tt) ;;;
     Py_SET_TYPE object PythonMonkey_BigInt ;;;
     ret {| returnType := cls_IntType; pyObject := Some object |}) s.
Proof.
  intros c Hc Hds Hlen Hok Hx.
  assert (c < 2 ^ 32) as Hc32 by (unfold c, uint32_t, wrap; by apply Z.mod_pos_bound).
  unfold IntType_from_BigInt, native_endian_is_big. fold c. rewrite Hds.
  destruct (Z.eqb_spec c 0) as [|_]; [lia |]. cbv iota.
  assert (size_t (c * JS_DIGIT_BYTE) = 8 * c) as ->.
  { unfold size_t, wrap, JS_DIGIT_BYTE. rewrite Z.mod_small; [lia |].
    assert (2 ^ 32 * 8 < 2 ^ 64) by (vm_compute; done). lia. }
  unfold _PyLong_FromByteArray.
  destruct (Z.eqb_spec (8 * c) 0) as [|_]; [lia |].
  pose proof (digit_bytes_length ds) as Hbl.
  destruct (Z.ltb_spec (Z.of_nat (length (digit_bytes ds))) (8 * c)) as [|_]; [lia |].
  rewrite take_ge by lia. cbn [andb].
  by rewrite digit_bytes_value, Hx by done.
Qed.

(** A value that is not one of the small integers: a new object. *)
Lemma IntType_from_BigInt_digits bigint s ds x :
  let c := uint32_t (lengthField bigint) in
  0 < c ->
  jsDigits_of bigint c = Some ds ->
  Z.of_nat (length ds) = c ->
  Forall (digit_ok 64) ds ->
  digits_value 64 ds = x ->
  _PY_NSMALLPOSINTS <= x ->
  let p := fresh_loc s in
  IntType_from_BigInt bigint s =
    Some ({| returnType := cls_IntType; pyObject := Some p |},
          {| heap := <[p := decoded_object (BigIntIsNegative bigint) x]> (heap s);
             err := err s;
             log := decode_events (BigIntIsNegative bigint) p c x ++ log s |}).
Proof.
  intros c Hc Hds Hlen Hok Hx Hpos p.
  rewrite (IntType_from_BigInt_bytes bigint s ds x Hc Hds Hlen Hok Hx). fold c.
  unfold _PY_NSMALLPOSINTS in Hpos.
  assert (IS_SMALL_INT x = false) as ->.
  { unfold IS_SMALL_INT, _PY_NSMALLPOSINTS. destruct (Z.ltb_spec x 257); [lia |].
    apply andb_false_r. }
  rewrite Z.abs_eq, Z.sgn_pos, Z.mul_1_l by lia.
  unfold decode_events. destruct (Z.eqb_spec c 0) as [|_]; [lia |].
  unfold Py_SIZE, Py_SET_SIZE, Py_SET_TYPE. munfold. fold p.
  destruct (BigIntIsNegative bigint);
    repeat (rewrite ?lookup_insert_eq, ?insert_insert_eq;
            cbn [heap err log ob_type ob_size ob_digit]);
    reflexivity.
Qed.

(** A value that is one of the small integers: the shared object is
    handed out, and it is the shared object the decoder then writes to. *)
Lemma IntType_from_BigInt_cached bigint s ds x cached :
  let c := uint32_t (lengthField bigint) in
  0 < c ->
  jsDigits_of bigint c = Some ds ->
  Z.of_nat (length ds) = c ->
  Forall (digit_ok 64) ds ->
  digits_value 64 ds = x ->
  0 <= x < _PY_NSMALLPOSINTS ->
  heap s !! small_int x = Some cached ->
  let p := small_int x in
  IntType_from_BigInt bigint s =
    Some ({| returnType := cls_IntType; pyObject := Some p |},
          {| heap := <[p := retyped (BigIntIsNegative bigint) cached]> (heap s);
             err := err s;
             log := decode_events_cached (BigIntIsNegative bigint) p c cached ++ log s |}).
Proof.
  intros c Hc Hds Hlen Hok Hx Hsmall Hp p.
  rewrite (IntType_from_BigInt_bytes bigint s ds x Hc Hds Hlen Hok Hx). fold c.
  unfold _PY_NSMALLPOSINTS in Hsmall.
  assert (IS_SMALL_INT x = true) as ->.
  { unfold IS_SMALL_INT, _PY_NSMALLPOSINTS, _PY_NSMALLNEGINTS.
    apply andb_true_iff. split; [apply Z.leb_le | apply Z.ltb_lt]; lia. }
  unfold decode_events_cached, retyped. subst p.
  unfold Py_SIZE, Py_SET_SIZE, Py_SET_TYPE. munfold. cbn [heap].
  destruct (BigIntIsNegative bigint);
    repeat (rewrite ?Hp, ?lookup_insert_eq, ?insert_insert_eq;
            cbn [heap err log ob_type ob_size ob_digit]);
    reflexivity.
Qed.

(** ** The digit count *)

Lemma ceil_div_spec a b : 0 < b -> b * (ceil_div a b - 1) < a <= b * ceil_div a b.
Proof.
  intros. unfold ceil_div.
  pose proof (Z.div_mod (a + b - 1) b ltac:(lia)).
  pose proof (Z.mod_pos_bound (a + b - 1) b ltac:(lia)). lia.
Qed.

(** The right-hand side, computed in [size_t], is the ceiling with a
    minimum of one, whatever the bit count. *)
Lemma jsDigitCount_expr_spec bitCount :
  0 <= bitCount <= SIZE_MAX -> jsDigitCount_expr bitCount = spec_digit_count bitCount.
Proof.
  intros Hb. unfold jsDigitCount_expr, spec_digit_count, ceil_div, JS_DIGIT_BIT,
    JS_BITS_PER_WORD, size_t, wrap, SIZE_MAX in *.
  destruct (Z.eqb_spec bitCount 0) as [->|Hnz]; [done |].
  change (2 ^ 64) with 18446744073709551616 in *.
  rewrite (Z.mod_small (bitCount - 1)) by lia.
  pose proof (Z.div_mod (bitCount - 1) 64 ltac:(lia)).
  pose proof (Z.mod_pos_bound (bitCount - 1) 64 ltac:(lia)).
  pose proof (Z.div_mod (bitCount + 64 - 1) 64 ltac:(lia)).
  pose proof (Z.mod_pos_bound (bitCount + 64 - 1) 64 ltac:(lia)).
  rewrite Z.mod_small by lia.
  lia.
Qed.

Lemma spec_digit_count_digit_count x :
  0 < x -> spec_digit_count (bit_length x) = digit_count JS_DIGIT_BIT x.
Proof.
  intros Hx. pose proof (bit_length_pos x Hx).
  unfold spec_digit_count, ceil_div, digit_count, JS_DIGIT_BIT, JS_BITS_PER_WORD.
  pose proof (Z.div_mod (bit_length x + 64 - 1) 64 ltac:(lia)).
  pose proof (Z.mod_pos_bound (bit_length x + 64 - 1) 64 ltac:(lia)). lia.
Qed.

Lemma jsDigitCount_of_spec bitCount :
  0 <= bitCount <= MAX_BIT_COUNT -> jsDigitCount_of bitCount = spec_digit_count bitCount.
Proof.
  intros Hb. unfold jsDigitCount_of.
  unfold MAX_BIT_COUNT, JS_DIGIT_BIT, JS_BITS_PER_WORD in Hb.
  change (64 * (2 ^ 32 - 1)) with 274877906880 in Hb.
  rewrite jsDigitCount_expr_spec by (unfold SIZE_MAX; change (2 ^ 64) with 18446744073709551616; lia).
  unfold uint32_t, wrap. apply Z.mod_small.
  unfold spec_digit_count, ceil_div, JS_DIGIT_BIT, JS_BITS_PER_WORD.
  pose proof (Z.div_mod (bitCount + 64 - 1) 64 ltac:(lia)).
  pose proof (Z.mod_pos_bound (bitCount + 64 - 1) 64 ltac:(lia)).
  change (2 ^ 32) with 4294967296. lia.
Qed.

(** ** What the engine lays out, the decoder reads back *)

Lemma BigIntIsNegative_with_sign negative x :
  BigIntIsNegative (with_sign negative (BigInt_create x)) = negative.
Proof. by destruct negative. Qed.

Lemma lengthField_with_sign negative x :
  lengthField (with_sign negative (BigInt_create x)) = digit_count JS_DIGIT_BIT x.
Proof. by destruct negative. Qed.

Lemma jsDigits_of_create negative x :
  0 < digit_count JS_DIGIT_BIT x ->
  jsDigits_of (with_sign negative (BigInt_create x)) (digit_count JS_DIGIT_BIT x)
  = Some (norm_digits JS_DIGIT_BIT x).
Proof.
  intros Hc. unfold jsDigits_of, JS_INLINE_DIGIT_MAX_LEN.
  assert (storage (with_sign negative (BigInt_create x)) = storage (BigInt_create x)) as ->
    by (by destruct negative).
  unfold BigInt_create, JS_INLINE_DIGIT_MAX_LEN. cbn [storage].
  destruct (Z.ltb_spec 1 (digit_count JS_DIGIT_BIT x)) as [H1|H1].
  - destruct (Z.leb_spec (digit_count JS_DIGIT_BIT x) 1); [lia | done].
  - destruct (Z.leb_spec (digit_count JS_DIGIT_BIT x) 1); [| lia].
    unfold norm_digits. by replace (digit_count JS_DIGIT_BIT x) with 1 by lia.
Qed.

Lemma digit_count_pos w x : 0 < w -> 0 < x -> 0 < digit_count w x.
Proof.
  intros Hw Hx. pose proof (digit_count_spec w x Hw). pose proof (bit_length_pos x Hx).
  pose proof (digit_count_nonneg w x Hw). nia.
Qed.

Lemma digit_count_0 w : 0 < w -> digit_count w 0 = 0.
Proof.
  intros. unfold digit_count. rewrite bit_length_0. apply Z.div_small. lia.
Qed.

(** Decoding what the engine laid out for the magnitude [x], when it is
    not one of the small integers from 1 to 256. *)
Lemma IntType_from_BigInt_create negative x s :
  x = 0 \/ _PY_NSMALLPOSINTS <= x ->
  digit_count JS_DIGIT_BIT x < 2 ^ 32 ->
  let p := fresh_loc s in
  IntType_from_BigInt (with_sign negative (BigInt_create x)) s =
    Some ({| returnType := cls_IntType; pyObject := Some p |},
          {| heap := <[p := decoded_object negative x]> (heap s);
             err := err s;
             log := decode_events negative p (digit_count JS_DIGIT_BIT x) x ++ log s |}).
Proof.
  intros Hx0 Hc p.
  assert (0 <= x) as Hx by (unfold _PY_NSMALLPOSINTS in Hx0; lia).
  assert (0 < 64) as H64 by lia.
  pose proof (digit_count_nonneg JS_DIGIT_BIT x H64) as Hc0.
  assert (uint32_t (lengthField (with_sign negative (BigInt_create x)))
          = digit_count JS_DIGIT_BIT x) as Hlen.
  { rewrite lengthField_with_sign. unfold uint32_t, wrap. by apply Z.mod_small. }
  destruct (Z.eq_dec x 0) as [->|Hnz].
  - pose proof (IntType_from_BigInt_zero (with_sign negative (BigInt_create 0)) s) as Hz.
    rewrite BigIntIsNegative_with_sign in Hz. apply Hz. by destruct negative.
  - assert (0 < digit_count JS_DIGIT_BIT x) as Hcp by (apply digit_count_pos; [done | lia]).
    pose proof (IntType_from_BigInt_digits (with_sign negative (BigInt_create x)) s
                  (norm_digits JS_DIGIT_BIT x) x) as Hd.
    cbv zeta in Hd. rewrite Hlen, BigIntIsNegative_with_sign in Hd. apply Hd.
    + done.
    + by apply jsDigits_of_create.
    + by apply norm_digits_length.
    + apply to_digits_ok. done.
    + by apply norm_digits_value.
    + destruct Hx0; [done | lia].
Qed.

(** The decoded object of a well-formed source has the source's digits
    and signed length. *)
Lemma decoded_object_source o :
  PyLong_wf o = true ->
  decoded_object (ob_size o <? 0) (long_magnitude o) =
    {| ob_type := PythonMonkey_BigInt; ob_size := ob_size o; ob_digit := ob_digit o |}.
Proof.
  intros Hwf. destruct (Z.eq_dec (ob_size o) 0) as [Hz|Hnz].
  - destruct (PyLong_wf_zero o Hwf Hz) as [Hd Hm]. rewrite Hz, Hd, Hm. reflexivity.
  - destruct (PyLong_wf_nonzero o Hwf Hnz) as (init & msd & Hd & Hl & Hi & Hmsd & Hb).
    pose proof (PyLong_wf_inv o Hwf) as (H1 & H2 & _).
    pose proof (bit_length_pos msd ltac:(lia)) as Hb1.
    assert (bit_length msd <= PyLong_SHIFT) as Hb2
      by (apply bit_length_le; unfold PyLong_SHIFT, PYLONG_BITS_IN_DIGIT in *; lia).
    assert (digit_count PyLong_SHIFT (long_magnitude o) = Z.abs (ob_size o)) as Hdc.
    { unfold digit_count. rewrite Hb, Hl.
      unfold PyLong_SHIFT, PYLONG_BITS_IN_DIGIT in *.
      symmetry. apply Z.div_unique with (r := bit_length msd - 1); lia. }
    unfold decoded_object. f_equal.
    + rewrite Hdc. destruct (Z.ltb_spec (ob_size o) 0); lia.
    + unfold norm_digits. rewrite Hdc, H1, Nat2Z.id.
      unfold long_magnitude. rewrite long_digits_wf by done.
      by apply to_digits_digits_value.
Qed.

Lemma encoded_in_range c mag :
  0 <= mag -> bit_length mag <= MAX_BIT_COUNT ->
  c = spec_digit_count (bit_length mag) ->
  encoded_magnitude c mag = mag /\ encoded_fits c mag = true.
Proof.
  intros Hm Hb ->. unfold encoded_magnitude, encoded_fits.
  pose proof (bit_length_nonneg mag) as Hb0.
  unfold spec_digit_count, JS_DIGIT_BIT, JS_BITS_PER_WORD.
  pose proof (ceil_div_spec (bit_length mag) 64 ltac:(lia)) as Hceil.
  destruct (Z.leb_spec (Z.max 1 (ceil_div (bit_length mag) 64)) 1) as [H1|H1].
  - assert (mag < 2 ^ 64) by (apply bit_length_le; lia).
    destruct (Z.ltb_spec mag (2 ^ 64)); [done | lia].
  - assert (mag < 2 ^ (64 * Z.max 1 (ceil_div (bit_length mag) 64)))
      by (apply bit_length_le; lia).
    rewrite Z.mod_small by lia.
    destruct (Z.ltb_spec mag (2 ^ (64 * Z.max 1 (ceil_div (bit_length mag) 64)))); [done | lia].
Qed.

Lemma long_value_retyped o t :
  long_value {| ob_type := t; ob_size := ob_size o; ob_digit := ob_digit o |} = long_value o.
Proof. reflexivity. Qed.

(** The engine's limit in digits. *)
Lemma spec_digit_count_limit bits :
  0 <= bits <= BigInt_MaxBitLength -> spec_digit_count bits <= BigInt_MaxDigitLength.
Proof.
  intros Hb. unfold spec_digit_count, JS_DIGIT_BIT, JS_BITS_PER_WORD.
  pose proof (ceil_div_spec bits 64 ltac:(lia)) as Hceil.
  change BigInt_MaxBitLength with 1048576 in Hb.
  change BigInt_MaxDigitLength with 16384. lia.
Qed.

Lemma BigInt_limit_in_range bits : bits <= BigInt_MaxBitLength -> bits <= MAX_BIT_COUNT.
Proof.
  intros Hb. change BigInt_MaxBitLength with 1048576 in Hb.
  change MAX_BIT_COUNT with 274877906880. lia.
Qed.

(** The round trip of a source the engine has room for and whose
    magnitude is not one of the small integers from 1 to 256. *)
Lemma roundtrip_in_range p s o :
  heap s !! p = Some o ->
  PyLong_wf o = true ->
  PyLong_Check (ob_type o) = true ->
  bit_length (long_magnitude o) <= BigInt_MaxBitLength ->
  long_magnitude o = 0 \/ _PY_NSMALLPOSINTS <= long_magnitude o ->
  exists q s',
    roundtrip p s = Some ({| returnType := cls_IntType; pyObject := Some q |}, s')
    /\ q = fresh_loc s
    /\ heap s' = <[q := {| ob_type := PythonMonkey_BigInt; ob_size := ob_size o;
                           ob_digit := ob_digit o |}]> (heap s)
    /\ err s' = err s.
Proof.
  intros Hp Hwf Hty Hlim Hbig.
  pose proof (BigInt_limit_in_range _ Hlim) as Hb.
  pose proof (long_magnitude_nonneg o Hwf) as Hm0.
  pose proof (bit_length_nonneg (long_magnitude o)) as Hb0.
  assert (MAX_BIT_COUNT < SIZE_MAX) as HM by (vm_compute; done).
  pose proof (_PyLong_NumBits_spec p s o Hp Hwf ltac:(lia)) as Hnb.
  pose proof (toJsBigInt_run p s o _ s Hnb Hp Hwf Hty) as Hrun.
  cbv zeta in Hrun.
  rewrite jsDigitCount_of_spec in Hrun by lia.
  destruct (encoded_in_range _ (long_magnitude o) Hm0 Hb eq_refl) as [Hem Hef].
  rewrite Hem, Hef in Hrun.
  specialize (Hrun ltac:(left; unfold size_t, wrap; change ((-1) mod 2 ^ 64) with SIZE_MAX; lia)
                   ltac:(apply spec_digit_count_limit; lia)).
  unfold roundtrip. rewrite (bind_run _ _ _ _ _ Hrun).
  assert (digit_count JS_DIGIT_BIT (long_magnitude o) < 2 ^ 32) as Hdc.
  { pose proof (digit_count_spec JS_DIGIT_BIT (long_magnitude o) ltac:(done)).
    unfold MAX_BIT_COUNT, JS_DIGIT_BIT, JS_BITS_PER_WORD in *. lia. }
  rewrite IntType_from_BigInt_create by done.
  rewrite decoded_object_source by done.
  eexists _, _. split; [reflexivity |]. split; [done |]. split; done.
Qed.

(** ** Beyond the 32-bit digit count *)

(** When the narrowed digit count is at most one although the magnitude
    does not fit 64 bits, the fast path overflows: the destination
    integer is [2^64 - 1] and an [OverflowError] is left pending. *)
Lemma roundtrip_wrapped p s o :
  heap s !! p = Some o ->
  PyLong_wf o = true ->
  PyLong_Check (ob_type o) = true ->
  0 <= ob_size o ->
  bit_length (long_magnitude o) < SIZE_MAX ->
  jsDigitCount_of (bit_length (long_magnitude o)) <= 1 ->
  2 ^ 64 <= long_magnitude o ->
  exists q s',
    roundtrip p s = Some ({| returnType := cls_IntType; pyObject := Some q |}, s')
    /\ heap s' !! q = Some (decoded_object false (2 ^ 64 - 1))
    /\ err s' = overflow_error.
Proof.
  intros Hp Hwf Hty Hs Hb Hc Hm.
  pose proof (_PyLong_NumBits_spec p s o Hp Hwf ltac:(lia)) as Hnb.
  pose proof (toJsBigInt_run p s o _ s Hnb Hp Hwf Hty) as Hrun.
  cbv zeta in Hrun.
  specialize (Hrun ltac:(left; unfold size_t, wrap; change ((-1) mod 2 ^ 64) with SIZE_MAX; lia)
                   ltac:(change BigInt_MaxDigitLength with 16384; lia)).
  unfold encoded_magnitude, encoded_fits in Hrun.
  destruct (Z.leb_spec (jsDigitCount_of (bit_length (long_magnitude o))) 1); [| lia].
  destruct (Z.ltb_spec (long_magnitude o) (2 ^ 64)); [lia |].
  destruct (Z.ltb_spec (ob_size o) 0); [lia |].
  unfold roundtrip. rewrite (bind_run _ _ _ _ _ Hrun).
  pose proof (IntType_from_BigInt_create false (2 ^ 64 - 1)) as Hdec.
  unfold with_sign in Hdec |- *.
  rewrite Hdec by first [right; vm_compute; discriminate | vm_compute; done].
  eexists _, _. split; [reflexivity |].
  split; [apply lookup_insert_eq | done].
Qed.


Lemma forallb_repeat {A} (f : A -> bool) x k : f x = true -> forallb f (repeat x k) = true.
Proof. intros H. induction k; simpl; [done | by rewrite H]. Qed.

Lemma digits_value_zeros w k : digits_value w (repeat 0 k) = 0.
Proof. induction k; simpl; [done | rewrite IHk; lia]. Qed.

Lemma huge_int_wf k :
  Z.of_nat k + 1 <= PY_SSIZE_T_MAX -> PyLong_wf (huge_int_of k) = true.
Proof.
  intros Hk. unfold PyLong_wf, huge_int_of. cbn [ob_size ob_digit].
  rewrite !andb_true_iff. repeat split.
  - apply Z.eqb_eq. rewrite length_app, repeat_length. simpl. lia.
  - rewrite forallb_app. apply andb_true_iff. split; [| done].
    by apply forallb_repeat.
  - apply bool_decide_eq_true. by rewrite last_snoc.
  - apply Z.ltb_lt. unfold PY_SSIZE_T_MIN. lia.
  - by apply Z.leb_le.
Qed.

Lemma huge_int_magnitude k :
  long_magnitude (huge_int_of k) = 2 ^ (30 * Z.of_nat k + 4).
Proof.
  unfold long_magnitude. rewrite long_digits_wf
    by (unfold huge_int_of; cbn [ob_size ob_digit]; rewrite length_app, repeat_length; simpl; lia).
  unfold huge_int_of. cbn [ob_digit]. unfold PyLong_SHIFT, PYLONG_BITS_IN_DIGIT.
  rewrite digits_value_app by lia. rewrite digits_value_zeros, repeat_length.
  cbn [digits_value]. rewrite Z.pow_add_r by lia. change (2 ^ 4) with 16. lia.
Qed.

Lemma huge_int_bits k :
  bit_length (long_magnitude (huge_int_of k)) = 30 * Z.of_nat k + 5.
Proof.
  rewrite huge_int_magnitude. unfold bit_length.
  assert (0 < 2 ^ (30 * Z.of_nat k + 4)) by (apply Z.pow_pos_nonneg; lia).
  destruct (Z.leb_spec (2 ^ (30 * Z.of_nat k + 4)) 0); [lia |].
  rewrite Z.log2_pow2 by lia. lia.
Qed.

Lemma huge_int_value k : long_value (huge_int_of k) = 2 ^ (30 * Z.of_nat k + 4).
Proof.
  unfold long_value. rewrite huge_int_magnitude.
  unfold huge_int_of. cbn [ob_size]. rewrite Z.sgn_pos by lia. lia.
Qed.

Lemma huge_int_size k : 0 <= ob_size (huge_int_of k).
Proof. unfold huge_int_of. cbn [ob_size]. lia. Qed.


Lemma huge_int_facts :
  PyLong_wf huge_int = true
  /\ long_value huge_int = 2 ^ (2 ^ 38)
  /\ long_magnitude huge_int = 2 ^ (2 ^ 38)
  /\ bit_length (long_magnitude huge_int) = 2 ^ 38 + 1.
Proof.
  unfold huge_int.
  assert (Z.of_nat (Z.to_nat 9162596898) = 9162596898) as Hk by (apply Z2Nat.id; done).
  generalize dependent (Z.to_nat 9162596898). intros k Hk.
  split; [apply huge_int_wf; rewrite Hk; done |].
  rewrite huge_int_bits, huge_int_value, huge_int_magnitude, Hk.
  repeat split; reflexivity.
Qed.

(** C1. The round trip of the integer [2^(2^38)] does not return it: the
    digit count [2^32 + 1] is narrowed to 1 when it is stored ("how many
    64-bit digits we would have"), the "fast path for int fits in one
    js_digit_t" is taken for an integer that does not fit, the conversion
    overflows, and the round trip returns [2^64 - 1]. *)
Lemma roundtrip_huge_int_differs :
  PyLong_wf huge_int = true
  /\ PyLong_Check (ob_type huge_int) = true
  /\ long_value huge_int = 2 ^ (2 ^ 38)
  /\ exists q s' o',
       roundtrip 10%positive huge_state
         = Some ({| returnType := cls_IntType; pyObject := Some q |}, s')
       /\ heap s' !! q = Some o'
       /\ long_value o' = 2 ^ 64 - 1
       /\ long_value o' <> long_value huge_int.
Proof.
  (destruct huge_int_facts as (Hwf & Hval & Hmag & Hbits)).
  (split; [exact Hwf |]). (split; [reflexivity |]). (split; [exact Hval |]).
  assert (2 ^ 64 <= long_magnitude huge_int) as Hbig.
  { (rewrite Hmag). (apply Z.pow_le_mono_r; [reflexivity | discriminate]). }
  assert (long_value huge_int = long_magnitude huge_int) as Hvm
    by ((exact (eq_trans Hval (eq_sym Hmag)))).
  (destruct (roundtrip_wrapped 10%positive huge_state huge_int) as (q & s' & Hr & Hq & _)).
  - (apply lookup_insert_eq).
  - exact Hwf.
  - reflexivity.
  - (apply huge_int_size).
  - (rewrite Hbits). reflexivity.
  - (rewrite Hbits). discriminate.
  - exact Hbig.
  - (exists q, s', (decoded_object false (2 ^ 64 - 1))).
    (split; [exact Hr |]). (split; [exact Hq |]). (split; [reflexivity |]).
    (rewrite Hvm).
    (change (long_value (decoded_object false (2 ^ 64 - 1))) with (2 ^ 64 - 1)).
    (clear - Hbig). lia.
Qed.

(** C5. For the integer [2^(2^38)] the destination digit count is not the
    ceiling: the bit count is [2^38 + 1], its ceiling over 64 is
    [2^32 + 1], and the digit count the code stores is 1. *)
Lemma jsDigitCount_of_huge_int_wraps :
  _PyLong_NumBits 10%positive huge_state = Some (2 ^ 38 + 1, huge_state)
  /\ jsDigitCount_of (2 ^ 38 + 1) = 1
  /\ spec_digit_count (2 ^ 38 + 1) = 2 ^ 32 + 1.
Proof.
  destruct huge_int_facts as (Hwf & _ & _ & Hbits).
  split; [| split; reflexivity].
  rewrite <- Hbits. apply _PyLong_NumBits_spec; [apply lookup_insert_eq | exact Hwf |].
  rewrite Hbits. discriminate.
Qed.

(** For every bit count the expression
    [(bitCount - 1) / JS_DIGIT_BIT + 1], with its special case for 0, is
    the ceiling of [bitCount / 64] with a minimum of one digit; what is
    stored in the [uint32_t] digit count is that ceiling modulo [2^32]. *)
Lemma jsDigitCount_is_ceiling (bitCount : Z) :
  0 <= bitCount <= SIZE_MAX ->
  jsDigitCount_expr bitCount = spec_digit_count bitCount
  /\ jsDigitCount_of bitCount = spec_digit_count bitCount mod 2 ^ 32
  /\ (bitCount <= MAX_BIT_COUNT -> jsDigitCount_of bitCount = spec_digit_count bitCount)
  /\ (bitCount = 0 -> jsDigitCount_of bitCount = 1)
  /\ JS_DIGIT_BIT * (spec_digit_count bitCount - 1) < Z.max 1 bitCount
       <= JS_DIGIT_BIT * spec_digit_count bitCount.
Proof.
  intros Hb. split; [by apply jsDigitCount_expr_spec |].
  split; [unfold jsDigitCount_of, uint32_t, wrap; by rewrite jsDigitCount_expr_spec |].
  split; [intros; apply jsDigitCount_of_spec; lia |].
  split; [by intros -> |].
  unfold spec_digit_count.
  pose proof (ceil_div_spec bitCount JS_DIGIT_BIT ltac:(done)).
  unfold JS_DIGIT_BIT, JS_BITS_PER_WORD in *. lia.
Qed.

(** ** Every integer has its object *)

Lemma to_digits_snoc w k x :
  0 < w ->
  to_digits w (S k) x = to_digits w k x ++ [(x / 2 ^ (w * Z.of_nat k)) mod 2 ^ w].
Proof.
  intros Hw. revert x. induction k as [|k IH]; intros x.
  - simpl. rewrite Z.mul_0_r, Z.pow_0_r, Z.div_1_r. done.
  - change (to_digits w (S (S k)) x) with (x mod 2 ^ w :: to_digits w (S k) (x / 2 ^ w)).
    rewrite IH. cbn [to_digits app]. do 3 f_equal.
    replace (w * Z.of_nat (S k)) with (w + w * Z.of_nat k) by lia.
    rewrite Z.pow_add_r by lia.
    rewrite Z.div_div; [done | apply Z.pow_nonzero; lia | apply Z.pow_pos_nonneg; lia].
Qed.

(** The most significant digit of the shortest digit string is not 0. *)
Lemma norm_digits_last w x :
  0 < w -> 0 < x -> last (norm_digits w x) <> Some 0.
Proof.
  intros Hw Hx.
  pose proof (digit_count_pos w x Hw Hx) as Hc.
  pose proof (digit_count_spec w x Hw) as [Hlo Hhi].
  pose proof (digit_count_fits w x Hw ltac:(lia)) as Hfit.
  unfold norm_digits.
  set (k := Z.to_nat (digit_count w x - 1)).
  replace (Z.to_nat (digit_count w x)) with (S k) by lia.
  rewrite to_digits_snoc, last_snoc by done.
  assert (Z.of_nat k = digit_count w x - 1) as Hk by lia. rewrite Hk.
  assert (0 < 2 ^ (w * (digit_count w x - 1))) as Hp by (apply Z.pow_pos_nonneg; nia).
  assert (2 ^ (w * (digit_count w x - 1)) <= x) as Hge.
  { destruct (Z.lt_ge_cases x (2 ^ (w * (digit_count w x - 1)))) as [Hlt|]; [| done].
    apply bit_length_le in Hlt; [lia | lia | nia]. }
  replace (w * digit_count w x) with (w * (digit_count w x - 1) + w) in Hfit by lia.
  rewrite Z.pow_add_r in Hfit by nia.
  assert (1 <= x / 2 ^ (w * (digit_count w x - 1))) by (apply Z.div_le_lower_bound; lia).
  assert (x / 2 ^ (w * (digit_count w x - 1)) < 2 ^ w) by (apply Z.div_lt_upper_bound; lia).
  rewrite Z.mod_small by lia. intros [= E]. lia.
Qed.

Lemma Forall_digit_ok_forallb w ds :
  Forall (digit_ok w) ds ->
  forallb (fun d => (0 <=? d) && (d <? 2 ^ w)) ds = true.
Proof.
  induction 1 as [|d ds [H1 H2] _ IH]; [done |].
  cbn [forallb]. rewrite IH.
  destruct (Z.leb_spec 0 d); [| lia]. destruct (Z.ltb_spec d (2 ^ w)); [done | lia].
Qed.

(** Every integer of a size the interpreter can hold has its canonical
    well-formed object. *)
Lemma PyLong_FromZ_wf n :
  bit_length (Z.abs n) <= MAX_BIT_COUNT ->
  PyLong_wf (PyLong_FromZ n) = true
  /\ PyLong_Check (ob_type (PyLong_FromZ n)) = true
  /\ long_value (PyLong_FromZ n) = n.
Proof.
  intros Hb.
  assert (0 < PyLong_SHIFT) as Hw by done.
  pose proof (digit_count_nonneg PyLong_SHIFT (Z.abs n) Hw) as Hc0.
  pose proof (digit_count_spec PyLong_SHIFT (Z.abs n) Hw) as [Hlo Hhi].
  pose proof (norm_digits_length PyLong_SHIFT (Z.abs n) Hw) as Hlen.
  assert (digit_count PyLong_SHIFT (Z.abs n) <= MAX_BIT_COUNT) as Hdc.
  { pose proof (bit_length_nonneg (Z.abs n)).
    unfold PyLong_SHIFT, PYLONG_BITS_IN_DIGIT in *. lia. }
  assert (MAX_BIT_COUNT < PY_SSIZE_T_MAX) as HM by done.
  assert (n = 0 -> digit_count PyLong_SHIFT (Z.abs n) = 0) as Hz
    by (intros ->; by apply digit_count_0).
  split; [| split; [done |]].
  - unfold PyLong_wf, PyLong_FromZ. cbn [ob_size ob_digit].
    rewrite !andb_true_iff. repeat split.
    + apply Z.eqb_eq. rewrite Hlen. destruct (Z.eq_dec n 0) as [->|]; [by rewrite Hz |]. lia.
    + apply Forall_digit_ok_forallb. apply to_digits_ok. done.
    + apply bool_decide_eq_true. destruct (Z.eq_dec n 0) as [->|]; [done |].
      apply norm_digits_last; [done | lia].
    + apply Z.ltb_lt. unfold PY_SSIZE_T_MIN, PY_SSIZE_T_MAX in *. lia.
    + apply Z.leb_le. unfold PY_SSIZE_T_MAX in *. lia.
  - unfold long_value, long_magnitude, long_digits, PyLong_FromZ. cbn [ob_size ob_digit].
    rewrite take_ge by lia.
    rewrite norm_digits_value by (done || lia).
    destruct (Z.eq_dec n 0) as [->|Hnz]; [done |].
    assert (0 < digit_count PyLong_SHIFT (Z.abs n)) by (apply digit_count_pos; [done | lia]).
    rewrite Z.sgn_mul, Z.sgn_sgn, (Z.sgn_pos (digit_count _ _)) by done. lia.
Qed.

(** ** The round trip *)

(** The scenario of the design document, [-(2^70 - 1)]: two 64-bit
    digits, the sign bit set, the source left as it was. *)
Example toJsBigInt_two_digits_negative :
  let s := {| heap := <[10%positive := PyLong_FromZ (- (2 ^ 70 - 1))]> initial_heap;
              err := None; log := [] |} in
  toJsBigInt 10%positive s =
    Some (Some {| flagsField := SIGN_BIT_MASK; lengthField := 2;
                  storage := heapDigits [2 ^ 64 - 1; 63] |},
          add_log [Ev_Py_SET_SIZE 10%positive (-3);
                   Ev_PyLong_AsByteArray 10%positive 16;
                   Ev_Py_SET_SIZE 10%positive 3] s).
Proof. vm_compute. reflexivity. Qed.

Example roundtrip_zero :
  let s := {| heap := <[10%positive := PyLong_FromZ 0]> initial_heap;
              err := None; log := [] |} in
  exists q s',
    roundtrip 10%positive s = Some ({| returnType := cls_IntType; pyObject := Some q |}, s')
    /\ q <> 10%positive /\ q <> small_int_zero
    /\ heap s' !! q = Some {| ob_type := PythonMonkey_BigInt; ob_size := 0; ob_digit := [] |}.
Proof. eexists _, _. vm_compute. repeat split; discriminate. Qed.

(** The round trip of [-5], twice.  The interpreter's [-5] is the shared
    small integer; the decoder is handed the shared [5], and negates it in
    place: after the first round trip the interpreter's [5] denotes [-5],
    and the second round trip of [-5] returns [5]. *)
Example roundtrip_minus_five_twice :
  exists w1 s1 w2 s2 five q o,
    roundtrip (small_int (-5)) initial_state = Some (w1, s1)
    /\ heap s1 !! small_int 5 = Some five /\ long_value five = -5
    /\ roundtrip (small_int (-5)) s1 = Some (w2, s2)
    /\ pyObject w2 = Some q /\ heap s2 !! q = Some o /\ long_value o = 5.
Proof.
  eexists _, _, _, _, _, _, _.
  split; [vm_compute; reflexivity |].
  split; [vm_compute; reflexivity |].
  split; [vm_compute; reflexivity |].
  split; [vm_compute; reflexivity |].
  split; [reflexivity |].
  split; vm_compute; reflexivity.
Qed.

(** C4. Decoding a big integer whose digit count is zero takes the
    [_PyLong_New(0)] path, never the byte-buffer path: the wrapper holds a
    newly allocated zero, at an address that was not live before and is
    not the shared small integer 0; and a later decode of a zero, in any
    state where that object is still live, returns yet another object. *)
Theorem IntType_from_BigInt_zero_is_fresh (b1 b2 : BigInt) (s : PyState) :
  uint32_t (lengthField b1) = 0 ->
  uint32_t (lengthField b2) = 0 ->
  exists p1 s1 evs,
    IntType_from_BigInt b1 s = Some ({| returnType := cls_IntType; pyObject := Some p1 |}, s1)
    /\ (p1 ∉ dom (heap s)) /\ p1 <> small_int_zero
    /\ heap s1 = <[p1 := {| ob_type := PythonMonkey_BigInt; ob_size := 0; ob_digit := [] |}]> (heap s)
    /\ log s1 = evs ++ log s
    /\ Ev_PyLong_New 0 p1 ∈ evs
    /\ (forall n q, ~ (Ev_PyLong_FromByteArray n q ∈ evs))
    /\ forall s2, p1 ∈ dom (heap s2) ->
         exists p2 s3,
           IntType_from_BigInt b2 s2
             = Some ({| returnType := cls_IntType; pyObject := Some p2 |}, s3)
           /\ p2 <> p1.
Proof.
  intros H1 H2.
  eexists (fresh_loc s), _, (decode_events (BigIntIsNegative b1) (fresh_loc s) 0 0).
  split; [by apply IntType_from_BigInt_zero |].
  split; [apply not_elem_of_dom, fresh_loc_fresh |].
  split.
  { intros E. apply (fresh_loc_not_static s). rewrite E.
    apply small_int_static. reflexivity. }
  split; [by destruct (BigIntIsNegative b1) |].
  split; [done |].
  split; [destruct (BigIntIsNegative b1); repeat constructor |].
  split.
  { intros n q Hin. unfold decode_events in Hin.
    destruct (BigIntIsNegative b1); cbn in Hin;
      repeat (apply elem_of_cons in Hin as [Hin|Hin]; [discriminate Hin |]);
      by apply elem_of_nil in Hin. }
  intros s2 Hlive. eexists (fresh_loc s2), _.
  split; [by apply IntType_from_BigInt_zero |].
  intros E. rewrite <- E in Hlive. apply elem_of_dom in Hlive as [o Ho].
  pose proof (fresh_loc_fresh s2). congruence.
Qed.

Lemma IntType_from_BigInt_zero_is_fresh_witness :
  exists p1 s1 p2 s2,
    IntType_from_BigInt (BigIntFromUint64 0) initial_state
      = Some ({| returnType := cls_IntType; pyObject := Some p1 |}, s1)
    /\ IntType_from_BigInt (BigIntFromUint64 0) s1
      = Some ({| returnType := cls_IntType; pyObject := Some p2 |}, s2)
    /\ p2 <> p1 /\ p1 <> small_int_zero.
Proof.
  destruct (IntType_from_BigInt_zero_is_fresh (BigIntFromUint64 0) (BigIntFromUint64 0)
              initial_state eq_refl eq_refl)
    as (p1 & s1 & evs & Hr & _ & Hz & Hh & _ & _ & _ & Hnext).
  destruct (Hnext s1) as (p2 & s2 & Hr2 & Hne).
  { rewrite Hh. apply elem_of_dom. rewrite lookup_insert_eq. eauto. }
  exists p1, s1, p2, s2. repeat split; assumption.
Defined.

(** C8. For every negative source integer: whenever [toJsBigInt]
    returns, the heap is the heap it started with, so the stored length of
    the source is the original negative one; when it returns a big
    integer, it has first set the stored length to its (positive)
    negation, then called the conversion primitive, then set the original
    length again, and when it returns null (the bit-count probe failed)
    nothing was written.  It does return a big integer for every source
    the engine has room for (at most [2^20] bits). *)
Theorem toJsBigInt_restores_size (p : loc) (s : PyState) (o : PyObject) :
  heap s !! p = Some o ->
  PyLong_wf o = true ->
  PyLong_Check (ob_type o) = true ->
  ob_size o < 0 ->
  (bit_length (long_magnitude o) <= BigInt_MaxBitLength ->
   exists b s', toJsBigInt p s = Some (Some b, s'))
  /\ forall r s',
       toJsBigInt p s = Some (r, s') ->
       heap s' = heap s
       /\ heap s' !! p = Some o
       /\ (r = None -> log s' = log s)
       /\ (r <> None ->
           0 < - ob_size o
           /\ exists conv,
                log s' = [Ev_Py_SET_SIZE p (ob_size o); conv; Ev_Py_SET_SIZE p (- ob_size o)]
                         ++ log s
                /\ (conv = Ev_PyLong_AsUnsignedLongLong p
                    \/ exists n, conv = Ev_PyLong_AsByteArray p n)).
Proof.
  intros Hp Hwf Hty Hneg. split.
  { intros Hlim.
    pose proof (bit_length_nonneg (long_magnitude o)) as Hb0.
    pose proof (BigInt_limit_in_range _ Hlim) as Hb.
    assert (MAX_BIT_COUNT < SIZE_MAX) as HM by (vm_compute; done).
    pose proof (_PyLong_NumBits_spec p s o Hp Hwf ltac:(lia)) as Hnb.
    pose proof (toJsBigInt_run p s o _ s Hnb Hp Hwf Hty) as Hrun.
    cbv zeta in Hrun. rewrite !jsDigitCount_of_spec in Hrun by lia.
    specialize (Hrun ltac:(left; unfold size_t, wrap; change ((-1) mod 2 ^ 64) with SIZE_MAX; lia)
                     ltac:(apply spec_digit_count_limit; lia)).
    eauto. }
  intros r s' Hret.
  destruct (_PyLong_NumBits_total p s o Hp Hwf) as (bits & s0 & Hnb & Hh0 & Hl0 & Hcase).
  assert (heap s0 !! p = Some o) as Hp0 by (by rewrite Hh0).
  assert ((bits <> size_t (-1) \/ err s0 = None) ->
          heap s' = heap s /\ heap s' !! p = Some o /\ (r = None -> log s' = log s)
          /\ (r <> None -> 0 < - ob_size o /\ exists conv,
                log s' = [Ev_Py_SET_SIZE p (ob_size o); conv; Ev_Py_SET_SIZE p (- ob_size o)]
                         ++ log s
                /\ (conv = Ev_PyLong_AsUnsignedLongLong p
                    \/ exists n, conv = Ev_PyLong_AsByteArray p n))) as Hok.
  { intros Hprobe.
    pose proof (toJsBigInt_run_limit p s o bits s0 Hnb Hp0 Hwf Hty Hprobe) as Hrun.
    cbv zeta in Hrun. rewrite Hrun in Hret.
    destruct (Z.ltb_spec (ob_size o) 0) as [_|]; [| lia].
    destruct (parser_accepts _ _); [| discriminate Hret].
    injection Hret as <- <-.
    unfold toJsBigInt_events. destruct (Z.ltb_spec (ob_size o) 0) as [_|]; [| lia].
    split; [by destruct (encoded_fits _ _) |].
    split; [by destruct (encoded_fits _ _); cbn [heap add_log set_err]; rewrite ?Hh0 |].
    split; [done |]. intros _. split; [lia |].
    exists (conv_event p (jsDigitCount_of bits)).
    split; [destruct (encoded_fits _ _); cbn [log add_log set_err]; by rewrite Hl0 |].
    unfold conv_event. destruct (_ <=? 1); eauto. }
  destruct (Z.eq_dec bits (size_t (-1))) as [Hb|Hb]; [| apply Hok; by left].
  destruct (err s0) as [e|] eqn:He; [| apply Hok; by right].
  rewrite (toJsBigInt_probe_failed p s bits s0 Hnb Hb) in Hret by congruence.
  injection Hret as <- <-.
  split; [done |]. split; [done |]. split; [done |]. done.
Qed.

Lemma toJsBigInt_restores_size_witness :
  let o := PyLong_FromZ (-5) in
  let s := {| heap := <[10%positive := o]> initial_heap; err := None; log := [] |} in
  (bit_length (long_magnitude o) <= BigInt_MaxBitLength ->
   exists b s', toJsBigInt 10%positive s = Some (Some b, s'))
  /\ forall r s',
       toJsBigInt 10%positive s = Some (r, s') ->
       heap s' = heap s
       /\ heap s' !! 10%positive = Some o
       /\ (r = None -> log s' = log s)
       /\ (r <> None ->
           0 < - ob_size o
           /\ exists conv,
                log s' = [Ev_Py_SET_SIZE 10%positive (ob_size o); conv;
                          Ev_Py_SET_SIZE 10%positive (- ob_size o)] ++ log s
                /\ (conv = Ev_PyLong_AsUnsignedLongLong 10%positive
                    \/ exists n, conv = Ev_PyLong_AsByteArray 10%positive n)).
Proof.
  intros o s.
  apply (toJsBigInt_restores_size 10%positive s o); vm_compute; reflexivity.
Defined.

(** ** The A-to-B dispatcher, [pyTypeFactory(PyObject * )] *)

Lemma pyTypeFactory_PyObject_pure object s r s' :
  pyTypeFactory_PyObject object s = Some (r, s') -> s' = s.
Proof.
  unfold pyTypeFactory_PyObject, Py_TYPE. munfold. intros H. mcases.
Qed.

(** C7. A value whose type passes none of the six checks (integer, text,
    function, mapping, list, tuple) gets the null result, and the
    interpreter state, the error indicator included, is left as it was. *)
Theorem pyTypeFactory_PyObject_no_mapping (s : PyState) (object : loc) (o : PyObject) :
  heap s !! object = Some o ->
  unrecognized_kind (ob_type o) = true ->
  pyTypeFactory_PyObject object s = Some (None, s).
Proof.
  intros Hp Hk. unfold unrecognized_kind in Hk.
  repeat (apply andb_prop in Hk as [Hk ?]).
  unfold pyTypeFactory_PyObject, Py_TYPE. munfold. rewrite Hp. simpl.
  repeat match goal with H : negb ?b = true |- _ =>
    apply negb_true_iff in H; rewrite H end.
  done.
Qed.

Lemma pyTypeFactory_PyObject_no_mapping_witness :
  let s := {| heap := <[7%positive := {| ob_type := PyFloat_Type; ob_size := 0; ob_digit := [] |}]>
                        initial_heap;
              err := None; log := [] |} in
  pyTypeFactory_PyObject 7%positive s = Some (None, s) /\ err s = None.
Proof.
  intros s. split; [| reflexivity].
  apply (pyTypeFactory_PyObject_no_mapping s 7%positive
           {| ob_type := PyFloat_Type; ob_size := 0; ob_digit := [] |});
    vm_compute; reflexivity.
Defined.

(** C9. A Python boolean is an instance of a subtype of [int]: the first
    check, [PyLong_Check], accepts it, so [True] and [False] come back in
    an [IntType] wrapper around the very same object. *)
Theorem pyTypeFactory_PyObject_bool (s : PyState) (object : loc) (o : PyObject) :
  heap s !! object = Some o ->
  ob_type o = PyBool_Type ->
  pyTypeFactory_PyObject object s = Some (Some (PyType_new cls_IntType object), s)
  /\ returnType (PyType_new cls_IntType object) <> cls_BoolType.
Proof.
  intros Hp Ht. split; [| done].
  unfold pyTypeFactory_PyObject, Py_TYPE. munfold. rewrite Hp. simpl.
  rewrite Ht. reflexivity.
Qed.

Lemma pyTypeFactory_PyObject_bool_witness :
  let s := {| heap := <[7%positive := Py_True_object]>
                        (<[8%positive := Py_False_object]> initial_heap);
              err := None; log := [] |} in
  (pyTypeFactory_PyObject 7%positive s = Some (Some (PyType_new cls_IntType 7%positive), s)
   /\ returnType (PyType_new cls_IntType 7%positive) <> cls_BoolType)
  /\ (pyTypeFactory_PyObject 8%positive s = Some (Some (PyType_new cls_IntType 8%positive), s)
      /\ returnType (PyType_new cls_IntType 8%positive) <> cls_BoolType).
Proof.
  intros s. split.
  - apply (pyTypeFactory_PyObject_bool s 7%positive Py_True_object); vm_compute; reflexivity.
  - apply (pyTypeFactory_PyObject_bool s 8%positive Py_False_object); vm_compute; reflexivity.
Defined.

(** ** The B-to-A dispatcher, [pyTypeFactory(cx, thisObj, rval)] *)

(** The codec's constructor never touches the error indicator. *)
Lemma IntType_from_BigInt_err bigint s w s' :
  IntType_from_BigInt bigint s = Some (w, s') -> err s' = err s.
Proof.
  unfold IntType_from_BigInt, _PyLong_New, _PyLong_FromByteArray,
    Py_SIZE, Py_SET_SIZE, Py_SET_TYPE, native_endian_is_big.
  munfold. intros H. mcases.
Qed.

Section DispatcherFacts.
Variable construct : Ctor -> M (option loc).
Variable JS_ToString : JSValue -> option string.

Lemma new_Some c s r s' :
  new construct c s = Some (r, s') -> r <> None.
Proof. unfold new. munfold. intros H. mcases. Qed.

(** A null result always comes with the error indicator set. *)
Lemma pyTypeFactory_null_sets_error rval s s' :
  pyTypeFactory construct JS_ToString rval s = Some (None, s') ->
  err s' <> None.
Proof.
  unfold pyTypeFactory, classification_error. intros H.
  destruct rval as [| |b|d|str|description|bigint|obj|why|]; simpl in H;
    try (by apply new_Some in H);
    try (munfold; mcases; fail).
  destruct (unwrap_proxy obj); [by munfold; simplify_eq |].
  repeat case_match; try (by apply new_Some in H);
    try (munfold; mcases; fail).
Qed.

(** When no constructor of the other translation units clears a pending
    error, neither does the dispatcher. *)
Lemma pyTypeFactory_keeps_error rval s r s' :
  (forall c s0 p s1, construct c s0 = Some (p, s1) -> err s0 <> None -> err s1 <> None) ->
  err s <> None ->
  pyTypeFactory construct JS_ToString rval s = Some (r, s') ->
  err s' <> None.
Proof.
  intros Hc He H.
  assert (Hnew : forall c r0 s0, new construct c s = Some (r0, s0) -> err s0 <> None).
  { unfold new. munfold. intros c r0 s0 Hn.
    destruct (construct c s) as [[p s1]|] eqn:E; simplify_eq. eauto. }
  assert (Hint : forall b r0 s0,
    bind (IntType_from_BigInt b) (fun w => ret (Some w)) s = Some (r0, s0) -> err s0 <> None).
  { intros b r0 s0 Hb. apply bind_Some in Hb as (w & s1 & Hb & Hr).
    unfold ret in Hr. simplify_eq. apply IntType_from_BigInt_err in Hb. congruence. }
  unfold pyTypeFactory, classification_error in H.
  destruct rval as [| |b|d|str|description|bigint|obj|why|]; simpl in H; eauto;
    try (munfold; mcases; fail).
  destruct (unwrap_proxy obj); [munfold; by simplify_eq |].
  repeat case_match; eauto; try (munfold; mcases; fail).
Qed.
End DispatcherFacts.

(** C2. An object that is one of our own proxies (its handler's family is
    the mapping, the sequence or the generic-object family) comes back as
    a wrapper holding the very Runtime-A object the handler holds; nothing
    is constructed on the way: the interpreter state is the one the call
    started in and no constructor is invoked. *)
Theorem pyTypeFactory_unwraps_own_proxy
    (construct : Ctor -> M (option loc)) (JS_ToString : JSValue -> option string)
    (obj : JSObject) (h : ProxyHandler) (s : PyState) :
  obj_proxy_handler obj = Some h ->
  is_our_family (family h) = true ->
  pyTypeFactory construct JS_ToString (JSVal_Object obj) s =
    Some (Some {| returnType := family_wrapper (family h);
                  pyObject := Some (handler_pyObject h) |}, s).
Proof.
  intros Hh Hf. unfold pyTypeFactory, unwrap_proxy. rewrite Hh.
  destruct (family h); simpl in *; done.
Qed.

Lemma pyTypeFactory_unwraps_own_proxy_witness :
  let x : loc := 42%positive in
  let proxy := {| obj_proxy_handler :=
                    Some {| family := PyDictProxyHandler_family; handler_pyObject := x |};
                  obj_builtin_class := ESClass_Other;
                  obj_is_bound_function := false;
                  obj_callPyFunc_slot := None;
                  obj_unboxed := prim_none;
                  obj_is_supported_buffer := false |} in
  pyTypeFactory sample_construct sample_ToString (JSVal_Object proxy) initial_state =
    Some (Some {| returnType := cls_DictType; pyObject := Some x |}, initial_state).
Proof.
  intros x proxy.
  apply (pyTypeFactory_unwraps_own_proxy sample_construct sample_ToString proxy
           {| family := PyDictProxyHandler_family; handler_pyObject := x |} initial_state);
    reflexivity.
Defined.

(** When the engine does produce a string for a value that no branch
    returns for, the tail sets a [TypeError] whose message ends in that
    string and returns null; the heap is untouched. *)
Lemma pyTypeFactory_classification_failure
    (construct : Ctor -> M (option loc)) (JS_ToString : JSValue -> option string)
    (rval : JSValue) (str : string) (s : PyState) :
  unrecognized rval = true ->
  JS_ToString rval = Some str ->
  exists s',
    pyTypeFactory construct JS_ToString rval s = Some (None, s')
    /\ err s' = Some (PyExc_TypeError,
                      ("pythonmonkey cannot yet convert Javascript value of: " ++ str)%string)
    /\ heap s' = heap s.
Proof.
  intros Hu Hs.
  destruct rval; try discriminate Hu;
    unfold pyTypeFactory, classification_error; rewrite Hs; munfold; simpl;
    eexists; (split; [reflexivity | split; reflexivity]).
Qed.

(** C6. A symbol, the design document's example of an unrecognized
    value, is not reported as a classification failure: [JS::ToString]
    throws for a symbol and returns
    null, the tail of [pyTypeFactory] passes that null to
    [JS_EncodeStringToUTF8] unchecked, and the call does not return: no
    error is set and no null result comes back, whatever the constructors
    and the other conversions do and whatever the state. *)
Lemma pyTypeFactory_symbol_crashes
    (construct : Ctor -> M (option loc)) (other : JSValue -> option string)
    (description : string) (s : PyState) :
  engine_ToString other (JSVal_Symbol description) = None
  /\ pyTypeFactory construct (engine_ToString other) (JSVal_Symbol description) s = None.
Proof. split; reflexivity. Qed.

(** Whenever the underlying conversion returns, the safe entry point
    returns too, with a wrapper (never null) and with the error indicator
    clear; if the conversion failed (a null result, or an error pending
    when it returned) the wrapper is the canonical Null wrapper, otherwise
    it is the conversion's own result. *)
Lemma pyTypeFactorySafe_never_fails
    (construct : Ctor -> M (option loc)) (JS_ToString : JSValue -> option string)
    (rval : JSValue) (s : PyState) (v : option PyType) (s0 : PyState) :
  pyTypeFactory construct JS_ToString rval s = Some (v, s0) ->
  exists w s',
    pyTypeFactorySafe construct JS_ToString rval s = Some (Some w, s')
    /\ err s' = None
    /\ heap s' = heap s0
    /\ (v = None \/ err s0 <> None -> w = NullType_new)
    /\ (err s0 = None -> v = Some w /\ s' = s0).
Proof.
  intros H. unfold pyTypeFactorySafe.
  rewrite (bind_run _ _ _ _ _ H). munfold. simpl.
  destruct (err s0) as [e|] eqn:He.
  - exists NullType_new, (clear_err s0). repeat split; try done.
  - destruct v as [w|].
    + exists w, s0. repeat split; try done. intros [?|?]; done.
    + apply pyTypeFactory_null_sets_error in H. done.
Qed.

(** C3. For a symbol the safe entry point does not return a Null wrapper:
    the underlying conversion dereferences the null string that
    [JS::ToString] gives for a symbol, before [PyErr_Occurred] is ever
    asked, so the safe entry point does not return at all. *)
Lemma pyTypeFactorySafe_symbol_crashes
    (construct : Ctor -> M (option loc)) (other : JSValue -> option string)
    (description : string) (s : PyState) :
  pyTypeFactory construct (engine_ToString other) (JSVal_Symbol description) s = None
  /\ pyTypeFactorySafe construct (engine_ToString other) (JSVal_Symbol description) s = None.
Proof.
  assert (pyTypeFactory construct (engine_ToString other) (JSVal_Symbol description) s = None)
    as H by reflexivity.
  split; [exact H |]. unfold pyTypeFactorySafe, bind. by rewrite H.
Qed.

(** C10. The safe entry point looks at nothing but the error indicator
    after the conversion: when an error was already pending on entry and
    the conversion succeeds with a wrapper, that wrapper is dropped, the
    pending error is cleared and the canonical Null wrapper is returned.
    (The constructors of the other translation units are taken not to
    clear a pending error.) *)
Theorem pyTypeFactorySafe_discards_on_stale_error
    (construct : Ctor -> M (option loc)) (JS_ToString : JSValue -> option string)
    (rval : JSValue) (s : PyState) (w : PyType) (s0 : PyState) :
  (forall c s1 p s2, construct c s1 = Some (p, s2) -> err s1 <> None -> err s2 <> None) ->
  err s <> None ->
  pyTypeFactory construct JS_ToString rval s = Some (Some w, s0) ->
  pyTypeFactorySafe construct JS_ToString rval s = Some (Some NullType_new, clear_err s0).
Proof.
  intros Hc He H. unfold pyTypeFactorySafe.
  rewrite (bind_run _ _ _ _ _ H). munfold. simpl.
  pose proof (pyTypeFactory_keeps_error _ _ _ _ _ _ Hc He H) as He0.
  destruct (err s0); done.
Qed.

Lemma pyTypeFactorySafe_discards_on_stale_error_witness :
  let s := {| heap := initial_heap; err := Some (PyExc_OverflowError, "stale"); log := [] |} in
  exists w s0,
    pyTypeFactory sample_construct sample_ToString (JSVal_Boolean true) s = Some (Some w, s0)
    /\ pyTypeFactorySafe sample_construct sample_ToString (JSVal_Boolean true) s
        = Some (Some NullType_new, clear_err s0).
Proof.
  intros s. eexists _, _. split; [vm_compute; reflexivity |].
  eapply (pyTypeFactorySafe_discards_on_stale_error sample_construct sample_ToString
            (JSVal_Boolean true) s).
  - intros c s1 p s2 Hc He. unfold sample_construct, bind, alloc, ret in Hc.
    injection Hc as _ <-. exact He.
  - discriminate.
  - vm_compute. reflexivity.
Defined.

(** * Further properties of the codec *)

(** ** Digit strings, continued *)

Lemma digits_value_top_pos w init m :
  0 < w -> Forall (digit_ok w) init -> 0 < m -> 0 < digits_value w (init ++ [m]).
Proof.
  intros Hw Hi Hm. rewrite digits_value_app by done.
  cbn [digits_value]. rewrite Z.mul_0_r, Z.add_0_r.
  pose proof (digits_value_bound w Hw init Hi) as [H0 _].
  assert (0 < 2 ^ (w * Z.of_nat (length init))) by (apply Z.pow_pos_nonneg; lia).
  nia.
Qed.

(** The shortest digit string of the number a normalized digit string
    denotes is that digit string. *)
Lemma norm_digits_of_digits w ds :
  0 < w -> Forall (digit_ok w) ds -> last ds <> Some 0 ->
  norm_digits w (digits_value w ds) = ds.
Proof.
  intros Hw Hok Hlast. destruct (last ds) as [m|] eqn:Hl.
  - apply last_Some in Hl as [init ->].
    apply Forall_app in Hok as [Hi Hm]. rewrite Forall_singleton in Hm.
    unfold digit_ok in Hm. assert (0 < m) as Hm0 by (assert (m <> 0) by congruence; lia).
    pose proof (bit_length_digits w init m Hw Hi Hm0) as Hb.
    pose proof (bit_length_pos m Hm0) as Hb1.
    assert (bit_length m <= w) as Hb2 by (apply bit_length_le; lia).
    assert (digit_count w (digits_value w (init ++ [m])) = Z.of_nat (length (init ++ [m]))) as Hdc.
    { unfold digit_count. rewrite Hb, length_app. cbn [length].
      symmetry. apply Z.div_unique with (r := bit_length m - 1); lia. }
    unfold norm_digits. rewrite Hdc, Nat2Z.id.
    apply to_digits_digits_value; [done |].
    apply Forall_app. split; [done |]. by apply Forall_singleton.
  - apply last_None in Hl as ->. unfold norm_digits. cbn [digits_value].
    by rewrite digit_count_0.
Qed.

Lemma forallb_digit_ok w ds :
  forallb (fun d => (0 <=? d) && (d <? 2 ^ w)) ds = true -> Forall (digit_ok w) ds.
Proof.
  intros H. apply Forall_forall. intros d Hd. apply list_elem_of_In in Hd.
  rewrite forallb_forall in H. apply H in Hd.
  apply andb_true_iff in Hd as [H1 H2]. apply Z.leb_le in H1. apply Z.ltb_lt in H2. done.
Qed.

(** ** Well-formed big integers *)

Lemma BigInt_wf_inv b :
  BigInt_wf b = true ->
  let ds := BigInt_digits b in
  0 <= lengthField b < 2 ^ 32
  /\ uint32_t (lengthField b) = lengthField b
  /\ Z.of_nat (length ds) = lengthField b
  /\ Forall (digit_ok JS_DIGIT_BIT) ds
  /\ last ds <> Some 0
  /\ (lengthField b = 0 -> BigIntIsNegative b = false)
  /\ (0 < lengthField b -> jsDigits_of b (lengthField b) = Some ds).
Proof.
  unfold BigInt_wf. rewrite !andb_true_iff. intros [[[H1 H2'] H3] H4].
  apply Z.leb_le in H1. apply Z.leb_le in H2'.
  assert (lengthField b < 2 ^ 32) as H2
    by (change BigInt_MaxDigitLength with 16384 in H2'; change (2 ^ 32) with 4294967296; lia).
  cbv zeta.
  split; [done |]. split; [unfold uint32_t, wrap; by apply Z.mod_small |].
  assert (lengthField b = 0 -> BigIntIsNegative b = false) as Hz.
  { intros E. rewrite E in H3. destruct (BigIntIsNegative b); [done | done]. }
  unfold BigInt_digits, jsDigits_of, JS_INLINE_DIGIT_MAX_LEN in *.
  destruct (storage b) as [d|ds].
  - apply andb_true_iff in H4 as [H4 H5]. apply Z.leb_le in H4.
    destruct (Z.eq_dec (lengthField b) 0) as [E|E].
    + rewrite E. cbn. repeat split; try done; try lia. intros _. by apply Hz.
    + assert (lengthField b = 1) as E1 by lia. rewrite E1 in *.
      cbn in H5. apply andb_true_iff in H5 as [H5 H6].
      apply Z.ltb_lt in H5, H6. cbn.
      repeat split; try done; try lia.
      * apply Forall_singleton. unfold digit_ok. lia.
      * intros [= ->]. lia.
  - rewrite !andb_true_iff in H4. destruct H4 as [[[H4 H5] H6] H7].
    apply Z.ltb_lt in H4. apply Z.eqb_eq in H5. apply bool_decide_eq_true in H7.
    rewrite take_ge by lia.
    destruct (Z.ltb_spec 1 (lengthField b)); [| lia].
    repeat split; try done; try lia. by apply forallb_digit_ok.
Qed.

Lemma BigInt_wf_magnitude b :
  BigInt_wf b = true ->
  let x := digits_value JS_DIGIT_BIT (BigInt_digits b) in
  0 <= x
  /\ (0 < lengthField b -> 0 < x)
  /\ (lengthField b = 0 -> x = 0)
  /\ bit_length x <= MAX_BIT_COUNT
  /\ digit_count JS_DIGIT_BIT x = lengthField b
  /\ norm_digits JS_DIGIT_BIT x = BigInt_digits b.
Proof.
  intros Hwf. destruct (BigInt_wf_inv b Hwf) as (Hr & _ & Hlen & Hok & Hlast & _ & _).
  cbv zeta. assert (0 < JS_DIGIT_BIT) as Hw by done.
  pose proof (digits_value_bound JS_DIGIT_BIT Hw _ Hok) as [H0 Hlt].
  pose proof (norm_digits_of_digits JS_DIGIT_BIT _ Hw Hok Hlast) as Hnorm.
  pose proof (norm_digits_length JS_DIGIT_BIT
                (digits_value JS_DIGIT_BIT (BigInt_digits b)) Hw) as Hnl.
  rewrite Hnorm, Hlen in Hnl.
  split; [done |]. split.
  { intros Hpos. destruct (last (BigInt_digits b)) as [m|] eqn:Hl.
    - apply last_Some in Hl as [init E]. rewrite E in Hok |- *.
      apply Forall_app in Hok as [Hi Hm]. rewrite Forall_singleton in Hm.
      unfold digit_ok in Hm.
      apply digits_value_top_pos; [done | done |].
      assert (m <> 0) by congruence. lia.
    - apply last_None in Hl. rewrite Hl in Hlen. simpl in Hlen. lia. }
  split.
  { intros E. rewrite E in Hlen. destruct (BigInt_digits b); [done | simpl in Hlen; lia]. }
  split; [| split; [by rewrite <- Hnl | done]].
  rewrite Hlen in Hlt. apply bit_length_le; [done | | ].
  - unfold MAX_BIT_COUNT, JS_DIGIT_BIT, JS_BITS_PER_WORD. lia.
  - eapply Z.lt_le_trans; [exact Hlt |].
    apply Z.pow_le_mono_r; [lia |].
    unfold MAX_BIT_COUNT, JS_DIGIT_BIT, JS_BITS_PER_WORD in *. lia.
Qed.

Lemma BigInt_wf_limit b :
  BigInt_wf b = true ->
  lengthField b <= BigInt_MaxDigitLength
  /\ bit_length (digits_value JS_DIGIT_BIT (BigInt_digits b)) <= BigInt_MaxBitLength.
Proof.
  intros Hwf. destruct (BigInt_wf_inv b Hwf) as (Hr & _ & Hlen & Hok & _).
  assert (lengthField b <= BigInt_MaxDigitLength) as Hl.
  { unfold BigInt_wf in Hwf. rewrite !andb_true_iff in Hwf.
    destruct Hwf as [[[_ H2] _] _]. by apply Z.leb_le. }
  split; [done |].
  assert (0 < JS_DIGIT_BIT) as Hw by done.
  pose proof (digits_value_bound JS_DIGIT_BIT Hw _ Hok) as [H0 Hlt].
  rewrite Hlen in Hlt. apply bit_length_le; [done | done |].
  eapply Z.lt_le_trans; [exact Hlt |].
  apply Z.pow_le_mono_r; [lia |].
  change BigInt_MaxDigitLength with 16384 in Hl.
  change BigInt_MaxBitLength with 1048576. change JS_DIGIT_BIT with 64. lia.
Qed.

Lemma BigInt_value_abs b :
  BigInt_wf b = true ->
  Z.abs (BigInt_value b) = digits_value JS_DIGIT_BIT (BigInt_digits b).
Proof.
  intros Hwf. destruct (BigInt_wf_magnitude b Hwf) as (Hx0 & _).
  unfold BigInt_value. destruct (BigIntIsNegative b); lia.
Qed.

(** ** What [BigInt_create] lays out *)

Lemma BigInt_digits_create negative x :
  0 <= x ->
  BigInt_digits (with_sign negative (BigInt_create x)) = norm_digits JS_DIGIT_BIT x.
Proof.
  intros Hx. assert (0 < JS_DIGIT_BIT) as Hw by done.
  pose proof (digit_count_nonneg JS_DIGIT_BIT x Hw) as Hc.
  pose proof (norm_digits_length JS_DIGIT_BIT x Hw) as Hl.
  unfold BigInt_digits.
  assert (storage (with_sign negative (BigInt_create x)) = storage (BigInt_create x)) as ->
    by (by destruct negative).
  rewrite lengthField_with_sign. unfold BigInt_create, JS_INLINE_DIGIT_MAX_LEN. cbn [storage].
  destruct (Z.leb_spec (digit_count JS_DIGIT_BIT x) 1) as [H1|H1].
  - unfold norm_digits.
    destruct (Z.eq_dec (digit_count JS_DIGIT_BIT x) 0) as [E|E]; [by rewrite E |].
    by replace (digit_count JS_DIGIT_BIT x) with 1 by lia.
  - apply take_ge. lia.
Qed.

Lemma BigInt_value_create negative x :
  0 <= x ->
  BigInt_value (with_sign negative (BigInt_create x)) = if negative then - x else x.
Proof.
  intros Hx. unfold BigInt_value.
  rewrite BigIntIsNegative_with_sign, BigInt_digits_create by done.
  rewrite norm_digits_value by done. destruct negative; lia.
Qed.

Lemma BigInt_create_wf negative x :
  0 <= x -> digit_count JS_DIGIT_BIT x <= BigInt_MaxDigitLength ->
  (negative = true -> 0 < x) ->
  BigInt_wf (with_sign negative (BigInt_create x)) = true.
Proof.
  intros Hx Hc Hneg. assert (0 < JS_DIGIT_BIT) as Hw by done.
  pose proof (digit_count_nonneg JS_DIGIT_BIT x Hw) as Hc0.
  unfold BigInt_wf. rewrite BigIntIsNegative_with_sign, lengthField_with_sign.
  assert (storage (with_sign negative (BigInt_create x)) = storage (BigInt_create x)) as ->
    by (by destruct negative).
  rewrite !andb_true_iff. repeat split.
  - by apply Z.leb_le.
  - by apply Z.leb_le.
  - destruct negative; [| done]. cbn [negb orb].
    pose proof (digit_count_pos JS_DIGIT_BIT x Hw (Hneg eq_refl)).
    destruct (Z.eqb_spec (digit_count JS_DIGIT_BIT x) 0); [lia | done].
  - unfold BigInt_create, JS_INLINE_DIGIT_MAX_LEN. cbn [storage].
    destruct (Z.leb_spec (digit_count JS_DIGIT_BIT x) 1) as [H1|H1].
    + destruct (Z.eqb_spec (digit_count JS_DIGIT_BIT x) 0) as [E|E]; [done |].
      cbn [orb]. assert (0 < x) as Hpos.
      { destruct (Z.eq_dec x 0) as [->|]; [| lia]. by rewrite digit_count_0 in E. }
      pose proof (digit_count_fits JS_DIGIT_BIT x Hw Hx) as Hfit.
      replace (digit_count JS_DIGIT_BIT x) with 1 in Hfit by lia.
      rewrite Z.mul_1_r in Hfit. rewrite Z.mod_small by lia.
      destruct (Z.ltb_spec 0 x); [| lia].
      destruct (Z.ltb_spec x (2 ^ JS_DIGIT_BIT)); [done | lia].
    + rewrite !andb_true_iff. repeat split.
      * by apply Z.ltb_lt.
      * apply Z.eqb_eq. by apply norm_digits_length.
      * apply Forall_digit_ok_forallb. by apply to_digits_ok.
      * apply bool_decide_eq_true. apply norm_digits_last; [done |].
        destruct (Z.eq_dec x 0) as [->|]; [| lia]. rewrite digit_count_0 in H1; [lia | done].
Qed.

(** ** The decoded object *)

Lemma decoded_object_facts negative x :
  0 <= x -> bit_length x <= MAX_BIT_COUNT -> (negative = true -> 0 < x) ->
  let o := decoded_object negative x in
  PyLong_wf o = true
  /\ PyLong_Check (ob_type o) = true
  /\ long_value o = (if negative then - x else x)
  /\ long_magnitude o = x
  /\ (ob_size o <? 0) = negative.
Proof.
  intros Hx Hb Hneg. cbv zeta.
  set (n := if negative then - x else x).
  assert (Z.abs n = x) as Habs by (unfold n; destruct negative; lia).
  assert (0 < PyLong_SHIFT) as Hw by done.
  pose proof (digit_count_nonneg PyLong_SHIFT x Hw) as Hc0.
  assert (decoded_object negative x =
          {| ob_type := PythonMonkey_BigInt; ob_size := ob_size (PyLong_FromZ n);
             ob_digit := ob_digit (PyLong_FromZ n) |}) as E.
  { unfold decoded_object, PyLong_FromZ. cbn [ob_size ob_digit]. rewrite Habs. f_equal.
    unfold n. destruct negative.
    - specialize (Hneg eq_refl). rewrite Z.sgn_neg by lia. lia.
    - destruct (Z.eq_dec x 0) as [->|]; [by rewrite digit_count_0 |].
      rewrite Z.sgn_pos by lia. lia. }
  destruct (PyLong_FromZ_wf n) as (Hwf & _ & Hval); [by rewrite Habs |].
  rewrite E. split; [exact Hwf |]. split; [done |].
  split; [by rewrite long_value_retyped |].
  split.
  - rewrite long_magnitude_resize by done.
    pose proof (long_magnitude_nonneg _ Hwf) as Hm0.
    unfold long_value in Hval.
    destruct (Z.eq_dec (ob_size (PyLong_FromZ n)) 0) as [Hz|Hz].
    + destruct (PyLong_wf_zero _ Hwf Hz) as [_ Hm]. rewrite Hz in Hval. lia.
    + assert (Z.abs (Z.sgn (ob_size (PyLong_FromZ n)) * long_magnitude (PyLong_FromZ n)) = x)
        as Ha by (rewrite Hval; exact Habs).
      rewrite Z.abs_mul, (Z.abs_eq (long_magnitude _)) in Ha by done.
      assert (Z.abs (Z.sgn (ob_size (PyLong_FromZ n))) = 1) as E1 by lia.
      rewrite E1 in Ha. lia.
  - cbn [ob_size]. unfold PyLong_FromZ. cbn [ob_size]. rewrite Habs. unfold n.
    destruct negative.
    + specialize (Hneg eq_refl). rewrite Z.sgn_neg by lia.
      pose proof (digit_count_pos PyLong_SHIFT x Hw Hneg). apply Z.ltb_lt. lia.
    + apply Z.ltb_ge.
      destruct (Z.eq_dec x 0) as [->|]; [by rewrite digit_count_0 |].
      rewrite Z.sgn_pos by lia. lia.
Qed.

(** ** [toJsBigInt] within the engine's size limit *)

Lemma toJsBigInt_in_range p s o :
  heap s !! p = Some o ->
  PyLong_wf o = true ->
  PyLong_Check (ob_type o) = true ->
  bit_length (long_magnitude o) <= BigInt_MaxBitLength ->
  toJsBigInt p s =
    Some (Some (with_sign (ob_size o <? 0) (BigInt_create (long_magnitude o))),
          add_log (toJsBigInt_events p o (spec_digit_count (bit_length (long_magnitude o)))) s).
Proof.
  intros Hp Hwf Hty Hlim.
  pose proof (BigInt_limit_in_range _ Hlim) as Hb.
  pose proof (long_magnitude_nonneg o Hwf) as Hm0.
  pose proof (bit_length_nonneg (long_magnitude o)) as Hb0.
  assert (MAX_BIT_COUNT < SIZE_MAX) as HM by (vm_compute; done).
  pose proof (_PyLong_NumBits_spec p s o Hp Hwf ltac:(lia)) as Hnb.
  pose proof (toJsBigInt_run p s o _ s Hnb Hp Hwf Hty) as Hrun.
  cbv zeta in Hrun.
  rewrite jsDigitCount_of_spec in Hrun by lia.
  destruct (encoded_in_range _ (long_magnitude o) Hm0 Hb eq_refl) as [Hem Hef].
  rewrite Hem, Hef in Hrun. apply Hrun.
  - left. unfold size_t, wrap. change ((-1) mod 2 ^ 64) with SIZE_MAX. lia.
  - apply spec_digit_count_limit. lia.
Qed.

Lemma in_limit_digit_count x :
  0 <= x -> bit_length x <= BigInt_MaxBitLength ->
  digit_count JS_DIGIT_BIT x <= BigInt_MaxDigitLength.
Proof.
  intros Hx Hb. pose proof (digit_count_spec JS_DIGIT_BIT x ltac:(done)).
  change BigInt_MaxBitLength with 1048576 in Hb.
  change BigInt_MaxDigitLength with 16384. change JS_DIGIT_BIT with 64 in *. lia.
Qed.

(** ** Decoding a well-formed big integer *)

(** The shared small integer after the decoder has used it, when it
    still denoted its value [x]. *)
Lemma retyped_facts negative cached x :
  PyLong_wf cached = true -> long_value cached = x -> 0 < x ->
  let o := retyped negative cached in
  PyLong_wf o = true
  /\ PyLong_Check (ob_type o) = true
  /\ long_value o = (if negative then - x else x)
  /\ long_magnitude o = x
  /\ (ob_size o <? 0) = negative.
Proof.
  intros Hwf Hv Hx. cbv zeta.
  pose proof (long_magnitude_nonneg cached Hwf) as Hm0.
  assert (0 < ob_size cached) as Hs.
  { unfold long_value in Hv.
    destruct (Z.lt_trichotomy (ob_size cached) 0) as [Hn|[Hz|Hpos]]; [| | done].
    - rewrite Z.sgn_neg in Hv by done. lia.
    - rewrite Hz in Hv. simpl in Hv. lia. }
  assert (long_magnitude cached = x) as Hm.
  { unfold long_value in Hv. rewrite Z.sgn_pos in Hv by done. lia. }
  assert (long_magnitude (retyped negative cached) = x) as Hm'.
  { unfold retyped. rewrite long_magnitude_resize; [done |]. destruct negative; lia. }
  split.
  { unfold PyLong_wf, retyped in *. cbn [ob_size ob_digit].
    rewrite !andb_true_iff in Hwf |- *. destruct Hwf as [[[[W1 W2] W3] W4] W5].
    apply Z.eqb_eq in W1. apply Z.ltb_lt in W4. apply Z.leb_le in W5.
    unfold PY_SSIZE_T_MIN, PY_SSIZE_T_MAX in *.
    repeat split; try done.
    - apply Z.eqb_eq. destruct negative; lia.
    - apply Z.ltb_lt. destruct negative; lia.
    - apply Z.leb_le. destruct negative; lia. }
  split; [done |].
  split.
  { unfold long_value. rewrite Hm'. unfold retyped. cbn [ob_size].
    destruct negative; [rewrite Z.sgn_neg by lia | rewrite Z.sgn_pos by lia]; lia. }
  split; [done |].
  unfold retyped. cbn [ob_size]. destruct negative; [apply Z.ltb_lt | apply Z.ltb_ge]; lia.
Qed.

(** A new object, for zero and for every magnitude above 256. *)
Lemma IntType_from_BigInt_wf_new b s :
  BigInt_wf b = true ->
  let p := fresh_loc s in
  let x := digits_value JS_DIGIT_BIT (BigInt_digits b) in
  x = 0 \/ _PY_NSMALLPOSINTS <= x ->
  IntType_from_BigInt b s =
    Some ({| returnType := cls_IntType; pyObject := Some p |},
          {| heap := <[p := decoded_object (BigIntIsNegative b) x]> (heap s);
             err := err s;
             log := decode_events (BigIntIsNegative b) p (lengthField b) x ++ log s |}).
Proof.
  intros Hwf. cbv zeta. intros Hx.
  destruct (BigInt_wf_inv b Hwf) as (Hr & Hu & Hlen & Hok & _ & Hz & Hj).
  destruct (BigInt_wf_magnitude b Hwf) as (Hx0 & Hxpos & Hxz & _).
  destruct (Z.eq_dec (lengthField b) 0) as [E|E].
  - rewrite (Hxz E), E. apply IntType_from_BigInt_zero. by rewrite Hu.
  - pose proof (IntType_from_BigInt_digits b s (BigInt_digits b)
                  (digits_value JS_DIGIT_BIT (BigInt_digits b))) as Hd.
    cbv zeta in Hd. rewrite Hu in Hd.
    assert (0 < digits_value JS_DIGIT_BIT (BigInt_digits b)) by (apply Hxpos; lia).
    apply Hd; try done; try lia. apply Hj; lia.
Qed.

(** The shared object, for every magnitude from 1 to 256. *)
Lemma IntType_from_BigInt_wf_shared b s cached :
  BigInt_wf b = true ->
  let x := digits_value JS_DIGIT_BIT (BigInt_digits b) in
  let p := small_int x in
  0 < x < _PY_NSMALLPOSINTS ->
  heap s !! p = Some cached ->
  IntType_from_BigInt b s =
    Some ({| returnType := cls_IntType; pyObject := Some p |},
          {| heap := <[p := retyped (BigIntIsNegative b) cached]> (heap s);
             err := err s;
             log := decode_events_cached (BigIntIsNegative b) p (lengthField b) cached
                    ++ log s |}).
Proof.
  intros Hwf. cbv zeta. intros Hx Hp.
  destruct (BigInt_wf_inv b Hwf) as (Hr & Hu & Hlen & Hok & _ & Hz & Hj).
  destruct (BigInt_wf_magnitude b Hwf) as (Hx0 & Hxpos & Hxz & _).
  assert (0 < lengthField b) as Hl.
  { destruct (Z.eq_dec (lengthField b) 0) as [E|]; [| lia]. rewrite (Hxz E) in Hx. lia. }
  pose proof (IntType_from_BigInt_cached b s (BigInt_digits b)
                (digits_value JS_DIGIT_BIT (BigInt_digits b)) cached) as Hd.
  cbv zeta in Hd. rewrite Hu in Hd.
  apply Hd; try done; try lia. by apply Hj.
Qed.

(** Without its shared object the decoder cannot proceed. *)
Lemma IntType_from_BigInt_wf_missing b s :
  BigInt_wf b = true ->
  let x := digits_value JS_DIGIT_BIT (BigInt_digits b) in
  0 < x < _PY_NSMALLPOSINTS ->
  heap s !! small_int x = None ->
  IntType_from_BigInt b s = None.
Proof.
  intros Hwf. cbv zeta. intros Hx Hp.
  destruct (BigInt_wf_inv b Hwf) as (Hr & Hu & Hlen & Hok & _ & Hz & Hj).
  destruct (BigInt_wf_magnitude b Hwf) as (Hx0 & Hxpos & Hxz & _).
  assert (0 < lengthField b) as Hl.
  { destruct (Z.eq_dec (lengthField b) 0) as [E|]; [| lia]. rewrite (Hxz E) in Hx. lia. }
  pose proof (IntType_from_BigInt_bytes b s (BigInt_digits b)
                (digits_value JS_DIGIT_BIT (BigInt_digits b))) as Hd.
  cbv zeta in Hd. rewrite Hu in Hd.
  rewrite Hd; try done; [| by apply Hj].
  unfold _PY_NSMALLPOSINTS in Hx.
  assert (IS_SMALL_INT (digits_value JS_DIGIT_BIT (BigInt_digits b)) = true) as ->.
  { unfold IS_SMALL_INT, _PY_NSMALLPOSINTS, _PY_NSMALLNEGINTS.
    apply andb_true_iff. split; [apply Z.leb_le | apply Z.ltb_lt]; lia. }
  clear Hd. unfold Py_SIZE, Py_SET_SIZE, Py_SET_TYPE. munfold.
  destruct (BigIntIsNegative b); cbv beta iota; cbn [heap]; by rewrite Hp.
Qed.

(** What decoding a well-formed big integer leaves behind, provided the
    shared object of its magnitude, if it has one, still denotes that
    magnitude. *)
Lemma IntType_from_BigInt_decoded b s :
  BigInt_wf b = true ->
  let x := digits_value JS_DIGIT_BIT (BigInt_digits b) in
  (0 < x < _PY_NSMALLPOSINTS -> small_int_intact s x) ->
  exists p o' s',
    IntType_from_BigInt b s = Some ({| returnType := cls_IntType; pyObject := Some p |}, s')
    /\ heap s' = <[p := o']> (heap s)
    /\ err s' = err s
    /\ PyLong_wf o' = true
    /\ ob_type o' = PythonMonkey_BigInt
    /\ long_value o' = BigInt_value b
    /\ long_magnitude o' = x
    /\ (ob_size o' <? 0) = BigIntIsNegative b.
Proof.
  intros Hwf. cbv zeta. intros Hint.
  destruct (BigInt_wf_inv b Hwf) as (Hr & _ & _ & _ & _ & Hz & _).
  destruct (BigInt_wf_magnitude b Hwf) as (Hx0 & Hxpos & Hxz & Hb & _).
  set (x := digits_value JS_DIGIT_BIT (BigInt_digits b)) in *.
  assert (BigIntIsNegative b = true -> 0 < x) as Hneg.
  { intros Hn. apply Hxpos. destruct (Z.eq_dec (lengthField b) 0) as [E|]; [| lia].
    rewrite (Hz E) in Hn. discriminate. }
  assert ((if BigIntIsNegative b then - x else x) = BigInt_value b) as Hval.
  { unfold BigInt_value. fold x. destruct (BigIntIsNegative b); lia. }
  destruct (Z.eq_dec x 0) as [E0|E0];
    [| destruct (Z.lt_ge_cases x _PY_NSMALLPOSINTS) as [Hsmall|Hbig]].
  - destruct (decoded_object_facts (BigIntIsNegative b) x Hx0 Hb Hneg)
      as (H1 & H2 & H3 & H4 & H5).
    eexists _, _, _.
    split; [apply (IntType_from_BigInt_wf_new b s Hwf); by left |].
    cbn [heap err]. fold x. rewrite <- Hval. done.
  - destruct (Hint ltac:(lia)) as (cached & Hc & Hcwf & Hcv).
    destruct (retyped_facts (BigIntIsNegative b) cached x Hcwf Hcv ltac:(lia))
      as (H1 & H2 & H3 & H4 & H5).
    eexists _, _, _.
    split; [apply (IntType_from_BigInt_wf_shared b s cached Hwf); [fold x; lia | exact Hc] |].
    cbn [heap err]. fold x. rewrite <- Hval. done.
  - destruct (decoded_object_facts (BigIntIsNegative b) x Hx0 Hb Hneg)
      as (H1 & H2 & H3 & H4 & H5).
    eexists _, _, _.
    split; [apply (IntType_from_BigInt_wf_new b s Hwf); by right |].
    cbn [heap err]. fold x. rewrite <- Hval. done.
Qed.

(** X1. Decoding a well-formed big integer, in a state where the
    interpreter's shared object for its magnitude (there is one for a
    magnitude from 1 to 256) still denotes that magnitude, never fails:
    the result is an [IntType] wrapper around a live object that is a
    well-formed integer of the [PythonMonkey_BigInt] kind and whose value,
    sign included, is the big integer's.  The error indicator is left as
    it was. *)
Theorem IntType_from_BigInt_value (b : BigInt) (s : PyState) :
  BigInt_wf b = true ->
  (0 < Z.abs (BigInt_value b) < _PY_NSMALLPOSINTS ->
   small_int_intact s (Z.abs (BigInt_value b))) ->
  exists p s' o',
    IntType_from_BigInt b s = Some ({| returnType := cls_IntType; pyObject := Some p |}, s')
    /\ heap s' !! p = Some o'
    /\ long_value o' = BigInt_value b
    /\ PyLong_wf o' = true
    /\ ob_type o' = PythonMonkey_BigInt
    /\ err s' = err s.
Proof.
  intros Hwf Hint. rewrite (BigInt_value_abs b Hwf) in Hint.
  destruct (IntType_from_BigInt_decoded b s Hwf Hint)
    as (p & o' & s' & Hd & Hh & He & Ho & Ht & Hv & _).
  exists p, s', o'. split; [done |].
  split; [rewrite Hh; apply lookup_insert_eq |]. done.
Qed.

Lemma IntType_from_BigInt_value_witness :
  exists p s' o',
    IntType_from_BigInt sample_small_bigint initial_state
    = Some ({| returnType := cls_IntType; pyObject := Some p |}, s')
    /\ heap s' !! p = Some o'
    /\ long_value o' = BigInt_value sample_small_bigint
    /\ PyLong_wf o' = true
    /\ ob_type o' = PythonMonkey_BigInt
    /\ err s' = err initial_state.
Proof.
  apply (IntType_from_BigInt_value sample_small_bigint initial_state).
  - vm_compute. reflexivity.
  - intros _. exists (PyLong_FromZ 5).
    split; [vm_compute; reflexivity |]. split; vm_compute; reflexivity.
Defined.

Lemma IntType_from_BigInt_result b s w s' :
  IntType_from_BigInt b s = Some (w, s') ->
  exists p o, w = {| returnType := cls_IntType; pyObject := Some p |}
              /\ heap s' = <[p := o]> (heap s)
              /\ ob_type o = PythonMonkey_BigInt /\ err s' = err s.
Proof.
  unfold IntType_from_BigInt, _PyLong_New, _PyLong_FromByteArray,
    Py_SIZE, Py_SET_SIZE, Py_SET_TYPE, native_endian_is_big.
  munfold. intros H. mcases;
    eexists _, _; (split; [reflexivity |]); rewrite ?insert_insert_eq;
    (split; [reflexivity |]); done.
Qed.

(** X2. Where the object of the decoder comes from.  For zero and for
    every magnitude above 256 it is new: its address was free before the
    call and is none of the interpreter's singletons.  For a magnitude
    from 1 to 256 it is the interpreter's shared small integer of that
    magnitude, which the decoder retypes and, for a negative big integer,
    negates in place.  In both cases no other object changes, and the
    error indicator is left as it was. *)
Theorem IntType_from_BigInt_new_or_shared (b : BigInt) (s : PyState)
    (w : PyType) (s' : PyState) :
  BigInt_wf b = true ->
  IntType_from_BigInt b s = Some (w, s') ->
  let x := Z.abs (BigInt_value b) in
  exists p o,
    w = {| returnType := cls_IntType; pyObject := Some p |}
    /\ heap s' = <[p := o]> (heap s)
    /\ ob_type o = PythonMonkey_BigInt
    /\ (forall q, q <> p -> heap s' !! q = heap s !! q)
    /\ err s' = err s
    /\ (x = 0 \/ _PY_NSMALLPOSINTS <= x -> heap s !! p = None /\ (p ∉ statics))
    /\ (0 < x < _PY_NSMALLPOSINTS ->
        p = small_int x /\ (p ∈ statics)
        /\ exists cached,
             heap s !! p = Some cached /\ o = retyped (BigIntIsNegative b) cached).
Proof.
  intros Hwf H. cbv zeta. rewrite (BigInt_value_abs b Hwf).
  set (x := digits_value JS_DIGIT_BIT (BigInt_digits b)).
  destruct (BigInt_wf_magnitude b Hwf) as (Hx0 & _). fold x in Hx0.
  assert (x = 0 \/ _PY_NSMALLPOSINTS <= x \/ 0 < x < _PY_NSMALLPOSINTS) as [E|[E|E]] by lia.
  - rewrite (IntType_from_BigInt_wf_new b s Hwf) in H by (by left).
    injection H as <- <-. eexists _, _. cbn [heap err].
    split; [done |]. split; [done |]. split; [done |].
    split; [intros q Hq; by apply lookup_insert_ne |]. split; [done |].
    split; [intros _; split; [apply fresh_loc_fresh | apply fresh_loc_not_static] |].
    fold x. lia.
  - rewrite (IntType_from_BigInt_wf_new b s Hwf) in H by (by right).
    injection H as <- <-. eexists _, _. cbn [heap err].
    split; [done |]. split; [done |]. split; [done |].
    split; [intros q Hq; by apply lookup_insert_ne |]. split; [done |].
    split; [intros _; split; [apply fresh_loc_fresh | apply fresh_loc_not_static] |].
    fold x. lia.
  - destruct (heap s !! small_int x) as [cached|] eqn:Hc.
    + rewrite (IntType_from_BigInt_wf_shared b s cached Hwf E Hc) in H.
      injection H as <- <-. eexists _, _. cbn [heap err].
      split; [done |]. split; [done |]. split; [done |].
      split; [intros q Hq; by apply lookup_insert_ne |]. split; [done |].
      split; [fold x; lia |].
      intros _. split; [done |]. split; [| eauto].
      apply small_int_static. unfold IS_SMALL_INT, _PY_NSMALLNEGINTS, _PY_NSMALLPOSINTS in *.
      apply andb_true_iff. split; [apply Z.leb_le | apply Z.ltb_lt]; lia.
    + by rewrite (IntType_from_BigInt_wf_missing b s Hwf E Hc) in H.
Qed.

Lemma IntType_from_BigInt_new_or_shared_witness :
  let x := Z.abs (BigInt_value sample_small_bigint) in
  exists w s',
    IntType_from_BigInt sample_small_bigint initial_state = Some (w, s')
    /\ exists p o,
         w = {| returnType := cls_IntType; pyObject := Some p |}
         /\ heap s' = <[p := o]> (heap initial_state)
         /\ ob_type o = PythonMonkey_BigInt
         /\ (forall q, q <> p -> heap s' !! q = heap initial_state !! q)
         /\ err s' = err initial_state
         /\ (x = 0 \/ _PY_NSMALLPOSINTS <= x ->
             heap initial_state !! p = None /\ (p ∉ statics))
         /\ (0 < x < _PY_NSMALLPOSINTS ->
             p = small_int x /\ (p ∈ statics)
             /\ exists cached,
                  heap initial_state !! p = Some cached
                  /\ o = retyped (BigIntIsNegative sample_small_bigint) cached).
Proof.
  eexists _, _. split; [vm_compute; reflexivity |].
  apply (IntType_from_BigInt_new_or_shared sample_small_bigint initial_state).
  - vm_compute. reflexivity.
  - vm_compute. reflexivity.
Defined.

(** X3. What the decoder makes, the dispatcher from Python objects takes
    for an integer: it wraps the very same object in an [IntType], although
    the object's type is the subclass [PythonMonkey_BigInt]. *)
Theorem decoded_is_dispatched_as_integer (b : BigInt) (s : PyState) (w : PyType) (s' : PyState) :
  IntType_from_BigInt b s = Some (w, s') ->
  exists p,
    pyObject w = Some p
    /\ pyTypeFactory_PyObject p s' = Some (Some (PyType_new cls_IntType p), s').
Proof.
  intros H. destruct (IntType_from_BigInt_result b s w s' H) as (p & o & -> & Hh & Ht & _).
  exists p. split; [done |].
  unfold pyTypeFactory_PyObject, Py_TYPE. munfold.
  rewrite Hh, lookup_insert_eq. cbn. by rewrite Ht.
Qed.

Lemma decoded_is_dispatched_as_integer_witness :
  exists w s',
    IntType_from_BigInt sample_bigint initial_state = Some (w, s')
    /\ exists p,
         pyObject w = Some p
         /\ pyTypeFactory_PyObject p s' = Some (Some (PyType_new cls_IntType p), s').
Proof.
  eexists _, _. split; [vm_compute; reflexivity |].
  apply (decoded_is_dispatched_as_integer sample_bigint initial_state).
  vm_compute. reflexivity.
Defined.

(** X4. From a big integer to a Python integer and back: decoding a
    well-formed big integer, in a state where the shared object of its
    magnitude (if it has one) still denotes that magnitude, and encoding
    the decoder's object gives a well-formed big integer with the same
    value, sign, length and digits.  The encoder leaves the heap as the
    decoder left it, and the error indicator is what it was at the
    start. *)
Theorem BigInt_roundtrip (b : BigInt) (s : PyState) :
  BigInt_wf b = true ->
  (0 < Z.abs (BigInt_value b) < _PY_NSMALLPOSINTS ->
   small_int_intact s (Z.abs (BigInt_value b))) ->
  exists p s1 b' s2,
    IntType_from_BigInt b s = Some ({| returnType := cls_IntType; pyObject := Some p |}, s1)
    /\ toJsBigInt p s1 = Some (Some b', s2)
    /\ BigInt_value b' = BigInt_value b
    /\ BigIntIsNegative b' = BigIntIsNegative b
    /\ lengthField b' = lengthField b
    /\ BigInt_digits b' = BigInt_digits b
    /\ BigInt_wf b' = true
    /\ heap s2 = heap s1
    /\ err s2 = err s.
Proof.
  intros Hwf Hint. rewrite (BigInt_value_abs b Hwf) in Hint.
  destruct (BigInt_wf_inv b Hwf) as (Hr & _ & _ & _ & _ & Hz & _).
  destruct (BigInt_wf_magnitude b Hwf) as (Hx0 & Hxpos & Hxz & _ & Hdc & Hnorm).
  destruct (BigInt_wf_limit b Hwf) as (Hlen & Hbits).
  destruct (IntType_from_BigInt_decoded b s Hwf Hint)
    as (p & o' & s1 & Hd & Hh & He & Ho & Ht & Hv & Hm & Hs).
  set (x := digits_value JS_DIGIT_BIT (BigInt_digits b)) in *.
  assert (BigIntIsNegative b = true -> 0 < x) as Hneg.
  { intros Hn. apply Hxpos. destruct (Z.eq_dec (lengthField b) 0) as [E|]; [| lia].
    rewrite (Hz E) in Hn. discriminate. }
  assert (heap s1 !! p = Some o') as Hp by (rewrite Hh; apply lookup_insert_eq).
  assert (PyLong_Check (ob_type o') = true) as Hty by (by rewrite Ht).
  eexists p, s1, _, _. split; [exact Hd |].
  split; [apply (toJsBigInt_in_range p s1 o' Hp Ho Hty); by rewrite Hm |].
  rewrite Hm, Hs. cbn [heap err add_log].
  split.
  { rewrite BigInt_value_create by done. unfold BigInt_value. fold x.
    destruct (BigIntIsNegative b); lia. }
  split; [apply BigIntIsNegative_with_sign |].
  split; [by rewrite lengthField_with_sign |].
  split; [by rewrite BigInt_digits_create |].
  split; [apply BigInt_create_wf; [done | rewrite Hdc; lia | done] |].
  done.
Qed.

Lemma BigInt_roundtrip_witness :
  exists p s1 b' s2,
    IntType_from_BigInt sample_bigint initial_state
    = Some ({| returnType := cls_IntType; pyObject := Some p |}, s1)
    /\ toJsBigInt p s1 = Some (Some b', s2)
    /\ BigInt_value b' = BigInt_value sample_bigint
    /\ BigIntIsNegative b' = BigIntIsNegative sample_bigint
    /\ lengthField b' = lengthField sample_bigint
    /\ BigInt_digits b' = BigInt_digits sample_bigint
    /\ BigInt_wf b' = true
    /\ heap s2 = heap s1
    /\ err s2 = err initial_state.
Proof.
  apply (BigInt_roundtrip sample_bigint initial_state).
  - vm_compute. reflexivity.
  - intros [_ Hsmall]. exfalso. revert Hsmall. vm_compute. discriminate.
Defined.

(** ** Encoding *)

(** X5. For a well-formed integer object the engine has room for (at
    most [2^20] bits) the encoder returns a well-formed big integer with
    the value of the source: the sign flag is set exactly for a negative
    source, the length is the number of 64-bit digits of the magnitude,
    and zero has length 0. *)
Theorem toJsBigInt_value (p : loc) (s : PyState) (o : PyObject) :
  heap s !! p = Some o ->
  PyLong_wf o = true ->
  PyLong_Check (ob_type o) = true ->
  bit_length (long_magnitude o) <= BigInt_MaxBitLength ->
  exists b s',
    toJsBigInt p s = Some (Some b, s')
    /\ BigInt_value b = long_value o
    /\ BigIntIsNegative b = (ob_size o <? 0)
    /\ lengthField b = digit_count JS_DIGIT_BIT (long_magnitude o)
    /\ (long_value o = 0 -> lengthField b = 0)
    /\ BigInt_wf b = true.
Proof.
  intros Hp Hwf Hty Hb.
  pose proof (long_magnitude_nonneg o Hwf) as Hm0.
  eexists _, _. split; [by apply toJsBigInt_in_range |].
  assert ((ob_size o <? 0) = true -> 0 < long_magnitude o) as Hneg.
  { intros Hn. apply Z.ltb_lt in Hn. apply long_magnitude_pos; [done | lia]. }
  split.
  { rewrite BigInt_value_create by done. unfold long_value.
    destruct (Z.ltb_spec (ob_size o) 0) as [Hn|Hn].
    - rewrite Z.sgn_neg by done. lia.
    - destruct (Z.eq_dec (ob_size o) 0) as [E|E].
      + destruct (PyLong_wf_zero o Hwf E) as [_ ->]. lia.
      + rewrite Z.sgn_pos by lia. lia. }
  split; [apply BigIntIsNegative_with_sign |].
  split; [apply lengthField_with_sign |].
  split.
  { intros Hv. rewrite lengthField_with_sign.
    assert (long_magnitude o = 0) as ->; [| by apply digit_count_0].
    destruct (Z.eq_dec (ob_size o) 0) as [E|E].
    - by destruct (PyLong_wf_zero o Hwf E).
    - pose proof (long_magnitude_pos o Hwf E). unfold long_value in Hv.
      assert (Z.sgn (ob_size o) <> 0) by lia. nia. }
  apply BigInt_create_wf; [done | by apply in_limit_digit_count | done].
Qed.

Lemma toJsBigInt_value_witness :
  let o := PyLong_FromZ (- (2 ^ 100)) in
  let s := sample_int_state (- (2 ^ 100)) in
  exists b s',
    toJsBigInt 10%positive s = Some (Some b, s')
    /\ BigInt_value b = long_value o
    /\ BigIntIsNegative b = (ob_size o <? 0)
    /\ lengthField b = digit_count JS_DIGIT_BIT (long_magnitude o)
    /\ (long_value o = 0 -> lengthField b = 0)
    /\ BigInt_wf b = true.
Proof.
  apply (toJsBigInt_value 10%positive (sample_int_state (- (2 ^ 100)))
           (PyLong_FromZ (- (2 ^ 100)))).
  - vm_compute. reflexivity.
  - vm_compute. reflexivity.
  - vm_compute. reflexivity.
  - vm_compute. discriminate.
Defined.

(** X6. Within the same range the encoder leaves heap and error indicator
    as they were, and converts with exactly one primitive:
    [PyLong_AsUnsignedLongLong] when the magnitude is below [2^64], and
    [_PyLong_AsByteArray] with 8 bytes per 64-bit digit otherwise; only
    for a negative source is that call bracketed by the two writes of the
    stored length. *)
Theorem toJsBigInt_calls (p : loc) (s : PyState) (o : PyObject) :
  heap s !! p = Some o ->
  PyLong_wf o = true ->
  PyLong_Check (ob_type o) = true ->
  bit_length (long_magnitude o) <= BigInt_MaxBitLength ->
  exists b s' conv,
    toJsBigInt p s = Some (Some b, s')
    /\ heap s' = heap s
    /\ err s' = err s
    /\ log s' = (if ob_size o <? 0
                 then [Ev_Py_SET_SIZE p (ob_size o); conv; Ev_Py_SET_SIZE p (- ob_size o)]
                 else [conv]) ++ log s
    /\ conv = (if long_magnitude o <? 2 ^ 64 then Ev_PyLong_AsUnsignedLongLong p
               else Ev_PyLong_AsByteArray p (8 * digit_count JS_DIGIT_BIT (long_magnitude o))).
Proof.
  intros Hp Hwf Hty Hlim.
  pose proof (BigInt_limit_in_range _ Hlim) as Hb.
  pose proof (long_magnitude_nonneg o Hwf) as Hm0.
  pose proof (bit_length_nonneg (long_magnitude o)) as Hb0.
  eexists _, _, _. split; [by apply toJsBigInt_in_range |].
  split; [done |]. split; [done |].
  split; [unfold add_log, toJsBigInt_events; cbn [log]; reflexivity |].
  unfold conv_event.
  set (c := spec_digit_count (bit_length (long_magnitude o))).
  pose proof (ceil_div_spec (bit_length (long_magnitude o)) 64 ltac:(lia)) as Hceil.
  assert (c = Z.max 1 (ceil_div (bit_length (long_magnitude o)) 64)) as Ec by done.
  destruct (Z.ltb_spec (long_magnitude o) (2 ^ 64)) as [Hlt|Hge].
  - apply bit_length_le in Hlt; [| done | lia].
    destruct (Z.leb_spec c 1); [done | lia].
  - assert (64 < bit_length (long_magnitude o)) as Hbig.
    { destruct (Z.le_gt_cases (bit_length (long_magnitude o)) 64) as [Hle|]; [| lia].
      apply bit_length_le in Hle; [lia | done | lia]. }
    destruct (Z.leb_spec c 1); [lia |].
    assert (0 < long_magnitude o) as Hpos.
    { assert (0 < 2 ^ 64) by done. lia. }
    assert (c = digit_count JS_DIGIT_BIT (long_magnitude o)) as Edc.
    { unfold c. by rewrite spec_digit_count_digit_count. }
    rewrite <- Edc. f_equal.
    unfold size_t, wrap, JS_DIGIT_BYTE. apply Z.mod_small.
    unfold MAX_BIT_COUNT, JS_DIGIT_BIT, JS_BITS_PER_WORD in Hb.
    assert (2 ^ 32 * 8 < 2 ^ 64) by (vm_compute; done).
    change (2 ^ 32) with 4294967296 in *. lia.
Qed.

Lemma toJsBigInt_calls_witness :
  let o := PyLong_FromZ (- (2 ^ 100)) in
  let s := sample_int_state (- (2 ^ 100)) in
  exists b s' conv,
    toJsBigInt 10%positive s = Some (Some b, s')
    /\ heap s' = heap s
    /\ err s' = err s
    /\ log s' = (if ob_size o <? 0
                 then [Ev_Py_SET_SIZE 10%positive (ob_size o); conv;
                       Ev_Py_SET_SIZE 10%positive (- ob_size o)]
                 else [conv]) ++ log s
    /\ conv = (if long_magnitude o <? 2 ^ 64 then Ev_PyLong_AsUnsignedLongLong 10%positive
               else Ev_PyLong_AsByteArray 10%positive
                      (8 * digit_count JS_DIGIT_BIT (long_magnitude o))).
Proof.
  apply (toJsBigInt_calls 10%positive (sample_int_state (- (2 ^ 100)))
           (PyLong_FromZ (- (2 ^ 100)))).
  - vm_compute. reflexivity.
  - vm_compute. reflexivity.
  - vm_compute. reflexivity.
  - vm_compute. discriminate.
Defined.

(** ** Encoding beyond the limits *)

(** X21. A source of more than [2^20] bits (and at most
    [64 * (2^32 - 1)]) is more than the engine has room for: the bytes are
    converted without overflow, the parser refuses the hex string and
    returns null.  For a source that is not negative the encoder returns
    that null, with the heap as it was and no error set in the
    interpreter; for a negative source it restores the stored length and
    then sets the sign bit through the null pointer: it does not
    return. *)
Theorem toJsBigInt_beyond_engine_limit (p : loc) (s : PyState) (o : PyObject) :
  heap s !! p = Some o ->
  PyLong_wf o = true ->
  PyLong_Check (ob_type o) = true ->
  BigInt_MaxBitLength < bit_length (long_magnitude o) <= MAX_BIT_COUNT ->
  toJsBigInt p s =
    if ob_size o <? 0 then None
    else Some (None,
               add_log [Ev_PyLong_AsByteArray p
                          (8 * digit_count JS_DIGIT_BIT (long_magnitude o))] s).
Proof.
  intros Hp Hwf Hty [Hlo Hhi].
  pose proof (long_magnitude_nonneg o Hwf) as Hm0.
  assert (MAX_BIT_COUNT < SIZE_MAX) as HM by (vm_compute; done).
  pose proof (_PyLong_NumBits_spec p s o Hp Hwf ltac:(lia)) as Hnb.
  pose proof (toJsBigInt_run_limit p s o _ s Hnb Hp Hwf Hty) as Hrun.
  cbv zeta in Hrun.
  pose proof (bit_length_nonneg (long_magnitude o)) as Hb0.
  rewrite !jsDigitCount_of_spec in Hrun by lia.
  destruct (encoded_in_range _ (long_magnitude o) Hm0 Hhi eq_refl) as [Hem Hef].
  rewrite Hem, Hef in Hrun.
  specialize (Hrun ltac:(left; unfold size_t, wrap; change ((-1) mod 2 ^ 64) with SIZE_MAX; lia)).
  assert (0 < long_magnitude o) as Hpos.
  { destruct (Z.eq_dec (long_magnitude o) 0) as [E|]; [| lia].
    rewrite E, bit_length_0 in Hlo. change BigInt_MaxBitLength with 1048576 in Hlo. lia. }
  rewrite spec_digit_count_digit_count in Hrun by done.
  pose proof (digit_count_spec JS_DIGIT_BIT (long_magnitude o) ltac:(done)) as Hdc.
  pose proof (digit_count_fits JS_DIGIT_BIT (long_magnitude o) ltac:(done) Hm0) as Hfit.
  change JS_DIGIT_BIT with 64 in *.
  assert (1 < digit_count 64 (long_magnitude o)) as Hc
    by (change BigInt_MaxBitLength with 1048576 in Hlo; lia).
  rewrite (parser_rejects_beyond_limit (digit_count 64 (long_magnitude o)) (long_magnitude o)
             Hc ltac:(lia) Hlo) in Hrun.
  rewrite Hrun. destruct (Z.ltb_spec (ob_size o) 0); [done |].
  unfold toJsBigInt_events, conv_event.
  destruct (Z.ltb_spec (ob_size o) 0); [lia |].
  destruct (Z.leb_spec (digit_count 64 (long_magnitude o)) 1); [lia |].
  assert (size_t (JS_DIGIT_BYTE * digit_count 64 (long_magnitude o))
          = 8 * digit_count 64 (long_magnitude o)) as ->; [| done].
  unfold size_t, wrap, JS_DIGIT_BYTE. apply Z.mod_small.
  change MAX_BIT_COUNT with 274877906880 in Hhi.
  change (2 ^ 64) with 18446744073709551616. lia.
Qed.

Lemma toJsBigInt_beyond_engine_limit_witness :
  let o := huge_int_of (Z.to_nat 34953) in
  let s := {| heap := <[10%positive := o]> initial_heap; err := None; log := [] |} in
  toJsBigInt 10%positive s =
    if ob_size o <? 0 then None
    else Some (None,
               add_log [Ev_PyLong_AsByteArray 10%positive
                          (8 * digit_count JS_DIGIT_BIT (long_magnitude o))] s).
Proof.
  intros o s.
  assert (Z.of_nat (Z.to_nat 34953) = 34953) as Hk by (apply Z2Nat.id; discriminate).
  apply (toJsBigInt_beyond_engine_limit 10%positive s o).
  - apply lookup_insert_eq.
  - apply huge_int_wf. rewrite Hk. discriminate.
  - reflexivity.
  - unfold o. rewrite huge_int_bits, Hk. split; [reflexivity | discriminate].
Defined.

Lemma encoded_out_of_range c mag :
  0 <= c < 2 ^ 32 -> 0 <= mag -> MAX_BIT_COUNT < bit_length mag ->
  encoded_fits c mag = false /\ 0 <= encoded_magnitude c mag < mag.
Proof.
  intros Hc Hm Hb. unfold encoded_fits, encoded_magnitude.
  assert (forall k, 0 <= k <= MAX_BIT_COUNT -> 2 ^ k <= mag) as Hbig.
  { intros k Hk. destruct (Z.lt_ge_cases mag (2 ^ k)) as [Hlt|]; [| lia].
    apply bit_length_le in Hlt; lia. }
  assert (64 <= MAX_BIT_COUNT) as H64 by done.
  destruct (Z.leb_spec c 1) as [H1|H1].
  - pose proof (Hbig 64 ltac:(lia)).
    destruct (Z.ltb_spec mag (2 ^ 64)); [lia |]. assert (0 < 2 ^ 64) by done. lia.
  - assert (64 * c <= MAX_BIT_COUNT) as Hcm
      by (unfold MAX_BIT_COUNT, JS_DIGIT_BIT, JS_BITS_PER_WORD; lia).
    pose proof (Hbig (64 * c) ltac:(lia)).
    assert (0 < 2 ^ (64 * c)) by (apply Z.pow_pos_nonneg; lia).
    pose proof (Z.mod_pos_bound mag (2 ^ (64 * c)) ltac:(done)).
    destruct (Z.ltb_spec mag (2 ^ (64 * c))); [lia |]. lia.
Qed.

(** X7. A source of more than [64 * (2^32 - 1)] bits (whose bit count
    still fits [size_t]) is never converted to its value: whenever the
    encoder returns, an [OverflowError] is pending, the heap is as it was,
    and a big integer it returns has a magnitude strictly smaller than the
    source's.  And it does return a big integer, not null, whenever the
    narrowed digit count is within the engine's limit. *)
Theorem toJsBigInt_out_of_range (p : loc) (s : PyState) (o : PyObject) :
  heap s !! p = Some o ->
  PyLong_wf o = true ->
  PyLong_Check (ob_type o) = true ->
  MAX_BIT_COUNT < bit_length (long_magnitude o) < SIZE_MAX ->
  (jsDigitCount_of (bit_length (long_magnitude o)) <= BigInt_MaxDigitLength ->
   exists b s', toJsBigInt p s = Some (Some b, s'))
  /\ forall r s',
       toJsBigInt p s = Some (r, s') ->
       err s' = overflow_error
       /\ heap s' = heap s
       /\ forall b, r = Some b -> Z.abs (BigInt_value b) < long_magnitude o.
Proof.
  intros Hp Hwf Hty [Hlo Hhi].
  pose proof (long_magnitude_nonneg o Hwf) as Hm0.
  pose proof (_PyLong_NumBits_spec p s o Hp Hwf ltac:(lia)) as Hnb.
  assert (bit_length (long_magnitude o) <> size_t (-1) \/ err s = None) as Hprobe.
  { left. unfold size_t, wrap. change ((-1) mod 2 ^ 64) with SIZE_MAX. lia. }
  destruct (encoded_out_of_range _ _ (jsDigitCount_of_range (bit_length (long_magnitude o)))
              Hm0 Hlo) as [Hf [He0 He]].
  split.
  { intros Hc. pose proof (toJsBigInt_run p s o _ s Hnb Hp Hwf Hty Hprobe Hc) as Hrun.
    cbv zeta in Hrun. eauto. }
  intros r s' Hret.
  pose proof (toJsBigInt_run_limit p s o _ s Hnb Hp Hwf Hty Hprobe) as Hrun.
  cbv zeta in Hrun. rewrite Hf in Hrun. rewrite Hrun in Hret.
  destruct (parser_accepts _ _).
  - injection Hret as <- <-. split; [done |]. split; [done |].
    intros b [= <-]. rewrite BigInt_value_create by done. destruct (ob_size o <? 0); lia.
  - destruct (ob_size o <? 0); [discriminate Hret |].
    injection Hret as <- <-. split; [done |]. split; [done |]. intros b [=].
Qed.

Lemma toJsBigInt_out_of_range_witness :
  (jsDigitCount_of (bit_length (long_magnitude huge_int)) <= BigInt_MaxDigitLength ->
   exists b s', toJsBigInt 10%positive huge_state = Some (Some b, s'))
  /\ forall r s',
       toJsBigInt 10%positive huge_state = Some (r, s') ->
       err s' = overflow_error
       /\ heap s' = heap huge_state
       /\ forall b, r = Some b -> Z.abs (BigInt_value b) < long_magnitude huge_int.
Proof.
  destruct huge_int_facts as (Hwf & _ & _ & Hbits).
  apply (toJsBigInt_out_of_range 10%positive huge_state huge_int).
  - apply lookup_insert_eq.
  - exact Hwf.
  - reflexivity.
  - rewrite Hbits. split; reflexivity.
Defined.

Lemma _PyLong_NumBits_overflow p s o :
  heap s !! p = Some o ->
  PyLong_wf o = true ->
  SIZE_MAX < bit_length (long_magnitude o) ->
  _PyLong_NumBits p s = Some (size_t (-1), set_err too_many_bits_error s).
Proof.
  intros Hp Hwf Hb. unfold _PyLong_NumBits. munfold. rewrite Hp.
  assert (ob_size o <> 0) as Hnz.
  { intros E. destruct (PyLong_wf_zero o Hwf E) as [_ Hm]. rewrite Hm in Hb. done. }
  destruct (Z.ltb_spec 0 (Z.abs (ob_size o))) as [_|]; [| lia].
  destruct (PyLong_wf_nonzero o Hwf Hnz) as (init & msd & Hd & Hs & Hi & Hm & Hbits).
  rewrite Hd, Hs.
  replace (Z.to_nat (Z.of_nat (length init) + 1 - 1)) with (length init) by lia.
  rewrite list_lookup_middle by done.
  rewrite Hbits in Hb. unfold bits_in_digit.
  unfold SIZE_MAX, PyLong_SHIFT, PYLONG_BITS_IN_DIGIT in *.
  destruct (Z.ltb_spec ((2 ^ 64 - 1) / 30) (Z.of_nat (length init) + 1 - 1)); [done |].
  destruct (Z.ltb_spec (2 ^ 64 - 1 - bit_length msd) ((Z.of_nat (length init) + 1 - 1) * 30));
    [done | lia].
Qed.

(** X8. When the bit count of the source does not fit [size_t], the
    bit-count probe fails: the encoder returns null, the probe's
    [OverflowError] is pending, and nothing else has changed. *)
Theorem toJsBigInt_too_many_bits (p : loc) (s : PyState) (o : PyObject) :
  heap s !! p = Some o ->
  PyLong_wf o = true ->
  SIZE_MAX < bit_length (long_magnitude o) ->
  toJsBigInt p s = Some (None, set_err too_many_bits_error s).
Proof.
  intros Hp Hwf Hb.
  apply (toJsBigInt_probe_failed p s (size_t (-1))); [| done | done].
  by apply (_PyLong_NumBits_overflow p s o).
Qed.

Lemma toJsBigInt_too_many_bits_witness :
  let o := huge_int_of (Z.to_nat (2 ^ 60)) in
  let s := {| heap := <[10%positive := o]> initial_heap; err := None; log := [] |} in
  toJsBigInt 10%positive s = Some (None, set_err too_many_bits_error s).
Proof.
  intros o s.
  assert (Z.of_nat (Z.to_nat (2 ^ 60)) = 2 ^ 60) as Hk by (apply Z2Nat.id; discriminate).
  apply (toJsBigInt_too_many_bits 10%positive s o).
  - apply lookup_insert_eq.
  - apply huge_int_wf. rewrite Hk. discriminate.
  - unfold o. rewrite huge_int_bits, Hk. reflexivity.
Defined.

(** ** The hex string, end to end *)

(** X9. The slow path, end to end: for any non-empty array of bytes the
    engine has room for (at most 8 bytes for each of its 16384 digits),
    least significant first, the loop writes two characters per byte, all
    of them from [HEX_CHAR_LOOKUP_TABLE], most significant byte first; and
    the engine's parser, in radix 16, reads that text back as the number
    the bytes denote. *)
Theorem hex_loop_parses_back (bytes : list Z) :
  Forall (digit_ok 8) bytes ->
  bytes <> [] ->
  Z.of_nat (length bytes) <= 8 * BigInt_MaxDigitLength ->
  let charCount := Z.of_nat (2 * length bytes) in
  let chars := hex_loop (Z.to_nat charCount) charCount 0 0 bytes
                 (repeat zero (Z.to_nat charCount)) in
  chars = hex_string bytes
  /\ length chars = (2 * length bytes)%nat
  /\ Forall (fun c => c ∈ HEX_CHAR_LOOKUP_TABLE) chars
  /\ SimpleStringToBigInt chars 16 = Some (BigInt_create (digits_value 8 (rev bytes))).
Proof.
  intros Hok Hne Hlim. cbv zeta.
  assert (Z.of_nat (2 * length bytes) + 2 < 2 ^ 64) as Hlen.
  { change BigInt_MaxDigitLength with 16384 in Hlim.
    change (2 ^ 64) with 18446744073709551616. lia. }
  assert (hex_loop (Z.to_nat (Z.of_nat (2 * length bytes))) (Z.of_nat (2 * length bytes)) 0 0
            bytes (repeat zero (Z.to_nat (Z.of_nat (2 * length bytes)))) = hex_string bytes) as ->.
  { apply (hex_loop_spec bytes _ _ [] [] (repeat zero _)); try done.
    - lia.
    - rewrite repeat_length. lia. }
  split; [done |]. split; [apply hex_string_length |].
  split.
  - clear Hne Hlen Hlim. induction Hok as [|b bytes Hb _ IH]; [constructor |].
    cbn [hex_string flat_map app]. unfold digit_ok in Hb. change (2 ^ 8) with 256 in Hb.
    assert (forall n, 0 <= n < 16 -> nth (Z.to_nat n) HEX_CHAR_LOOKUP_TABLE zero
                                     ∈ HEX_CHAR_LOOKUP_TABLE) as Hin.
    { intros n Hn. apply list_elem_of_In. apply nth_In.
      change (length HEX_CHAR_LOOKUP_TABLE) with 16%nat. lia. }
    constructor; [| constructor; [| exact IH]].
    + apply Hin. rewrite nibble_high by done.
      split; [apply Z.div_pos; lia | apply Z.div_lt_upper_bound; lia].
    + apply Hin. rewrite nibble_low. apply Z.mod_pos_bound. lia.
  - rewrite SimpleStringToBigInt_hex by done.
    rewrite <- (rev_involutive bytes) at 1. by rewrite fold_left_big_endian.
Qed.

Lemma hex_loop_parses_back_witness :
  let bytes := [1; 35; 69] in
  let chars := hex_loop 6 6 0 0 bytes (repeat zero 6) in
  chars = list_ascii_of_string "012345"
  /\ SimpleStringToBigInt chars 16 = Some (BigInt_create 74565).
Proof.
  intros bytes chars.
  destruct (hex_loop_parses_back bytes) as (H1 & _ & _ & H4).
  - repeat constructor; unfold digit_ok; lia.
  - discriminate.
  - vm_compute. discriminate.
  - split; [exact H1 | exact H4].
Defined.

(** * Further properties of the dispatchers *)

Lemma pyTypeFactory_PyObject_run s object o :
  heap s !! object = Some o ->
  exists r,
    pyTypeFactory_PyObject object s = Some (r, s)
    /\ (r = None <-> unrecognized_kind (ob_type o) = true)
    /\ (forall w, r = Some w -> pyObject w = Some object).
Proof.
  intros Hp. unfold pyTypeFactory_PyObject, Py_TYPE, unrecognized_kind. munfold.
  rewrite Hp. cbn.
  destruct (PyLong_Check (ob_type o)); [eexists; split; [done | split; [done | by intros w [= <-]]] |].
  destruct (PyUnicode_Check (ob_type o)); [eexists; split; [done | split; [done | by intros w [= <-]]] |].
  destruct (PyFunction_Check (ob_type o)); [eexists; split; [done | split; [done | by intros w [= <-]]] |].
  destruct (PyDict_Check (ob_type o)); [eexists; split; [done | split; [done | by intros w [= <-]]] |].
  destruct (PyList_Check (ob_type o)); [eexists; split; [done | split; [done | by intros w [= <-]]] |].
  destruct (PyTuple_Check (ob_type o)); [eexists; split; [done | split; [done | by intros w [= <-]]] |].
  eexists; split; [done | split; [done | by intros w [=]]].
Qed.

(** X10. The dispatcher from Python objects never changes the interpreter
    state; its result is null exactly when the object's type passes none
    of the six checks, and every wrapper it returns holds the very
    pointer it was given. *)
Theorem pyTypeFactory_PyObject_characterised (s : PyState) (object : loc) (o : PyObject) :
  heap s !! object = Some o ->
  exists r,
    pyTypeFactory_PyObject object s = Some (r, s)
    /\ (r = None <-> unrecognized_kind (ob_type o) = true)
    /\ (forall w, r = Some w -> pyObject w = Some object).
Proof. intros Hp. exact (pyTypeFactory_PyObject_run s object o Hp). Qed.

Lemma pyTypeFactory_PyObject_characterised_witness :
  exists r,
    pyTypeFactory_PyObject 21%positive (sample_eval_state sample_float)
    = Some (r, sample_eval_state sample_float)
    /\ (r = None <-> unrecognized_kind (ob_type sample_float) = true)
    /\ (forall w, r = Some w -> pyObject w = Some 21%positive).
Proof.
  apply (pyTypeFactory_PyObject_characterised (sample_eval_state sample_float) 21%positive
           sample_float).
  vm_compute. reflexivity.
Defined.

Section MoreDispatcherFacts.
Variable construct : Ctor -> M (option loc).
Variable JS_ToString : JSValue -> option string.

(** X11. Whenever the dispatcher from JavaScript values returns, its
    result is null exactly for the values no branch returns for: symbols,
    magic values and private GC things.  For every other value a wrapper
    comes back, whatever the constructor called did. *)
Theorem pyTypeFactory_null_iff_unrecognized (rval : JSValue) (s : PyState)
    (r : option PyType) (s' : PyState) :
  pyTypeFactory construct JS_ToString rval s = Some (r, s') ->
  (r = None <-> unrecognized rval = true).
Proof.
  intros H. unfold pyTypeFactory, classification_error in H.
  assert (forall c, new construct c s = Some (r, s') -> (r = None <-> false = true)) as Hnew.
  { intros c Hn. split; [| done]. intros ->. by apply new_Some in Hn. }
  assert (forall b, bind (IntType_from_BigInt b) (fun w => ret (Some w)) s = Some (r, s') ->
                    (r = None <-> false = true)) as Hint.
  { intros b Hb. apply bind_Some in Hb as (w & s1 & _ & Hr). unfold ret in Hr.
    simplify_eq. done. }
  destruct rval as [| |b|d|str|description|bigint|obj|why|]; cbn [unrecognized]; eauto;
    try (munfold; mcases; fail).
  destruct (unwrap_proxy obj); [munfold; by simplify_eq |].
  repeat case_match; eauto; try (munfold; mcases; fail).
Qed.

(** X12. A boxed primitive ([new Boolean], [new Number], [new String],
    [Object(1n)]) that is neither one of our proxies nor a bound function
    is converted exactly as the primitive inside it: same result, same
    effect on the interpreter. *)
Theorem pyTypeFactory_boxed_primitive (obj : JSObject) (v : JSValue) (s : PyState) :
  unwrap_proxy obj = None ->
  obj_is_bound_function obj = false ->
  boxed_primitive obj = Some v ->
  pyTypeFactory construct JS_ToString (JSVal_Object obj) s
  = pyTypeFactory construct JS_ToString v s.
Proof.
  intros Hu Hb Hv. unfold pyTypeFactory. rewrite Hu, Hb. unfold boxed_primitive in Hv.
  destruct (obj_builtin_class obj), (obj_unboxed obj); simplify_eq; reflexivity.
Qed.

(** X13. A JavaScript function that wraps a Python function (its native
    is [callPyFunc]) comes back as that Python function, in a [FuncType]
    around the pointer stored in its reserved slot; nothing is allocated
    and nothing changes.  The same holds for a bound function. *)
Theorem pyTypeFactory_unwraps_own_function (obj : JSObject) (f : loc) (s : PyState) :
  unwrap_proxy obj = None ->
  obj_is_bound_function obj = true \/ obj_builtin_class obj = ESClass_Function ->
  obj_callPyFunc_slot obj = Some f ->
  pyTypeFactory construct JS_ToString (JSVal_Object obj) s
  = Some (Some (PyType_new cls_FuncType f), s).
Proof.
  intros Hu Hc Hf. unfold pyTypeFactory. rewrite Hu, Hf.
  destruct Hc as [-> | Hc]; [done |]. rewrite Hc. by destruct (obj_is_bound_function obj).
Qed.

Lemma unwrap_proxy_class obj w :
  unwrap_proxy obj = Some w -> returnType w = object_wrapper_class obj.
Proof.
  unfold unwrap_proxy, object_wrapper_class.
  destruct (obj_proxy_handler obj) as [h|]; [| done].
  destruct (family h); cbn; intros [= <-]; done.
Qed.

Lemma unwrap_proxy_None_class obj :
  unwrap_proxy obj = None ->
  object_wrapper_class obj =
    if obj_is_bound_function obj then cls_FuncType
    else match obj_builtin_class obj with
         | ESClass_Boolean => cls_BoolType
         | ESClass_Date => cls_DateType
         | ESClass_Promise => cls_PromiseType
         | ESClass_Error => cls_ExceptionType
         | ESClass_Function => cls_FuncType
         | ESClass_Number => cls_FloatType
         | ESClass_BigInt => cls_IntType
         | ESClass_String => cls_StrType
         | ESClass_Array => cls_ListType
         | _ => if obj_is_supported_buffer obj then cls_BufferType else cls_DictType
         end.
Proof.
  unfold unwrap_proxy, object_wrapper_class.
  destruct (obj_proxy_handler obj) as [h|]; [| done].
  destruct (family h); cbn; done.
Qed.

(** X14. Whenever the dispatcher returns for an object, the result is not
    null, and the class of the wrapper is the one [object_wrapper_class]
    tabulates: by proxy family for our own proxies, [FuncType] for bound
    functions, then by built-in class, then [BufferType] for the supported
    buffers and [DictType] for all the rest. *)
Theorem pyTypeFactory_object_class (obj : JSObject) (s : PyState)
    (r : option PyType) (s' : PyState) :
  pyTypeFactory construct JS_ToString (JSVal_Object obj) s = Some (r, s') ->
  exists w, r = Some w /\ returnType w = object_wrapper_class obj.
Proof.
  intros H. unfold pyTypeFactory in H.
  destruct (unwrap_proxy obj) as [w|] eqn:Hu.
  { unfold ret in H. simplify_eq. exists w. split; [done | by apply unwrap_proxy_class]. }
  rewrite (unwrap_proxy_None_class obj Hu).
  assert (forall c, new construct c s = Some (r, s') ->
                    exists w, r = Some w /\ returnType w = Ctor_class c) as Hnew.
  { intros c Hn. unfold new in Hn. apply bind_Some in Hn as (p & s1 & _ & Hr).
    unfold ret in Hr. simplify_eq. eauto. }
  assert (forall b, bind (IntType_from_BigInt b) (fun w => ret (Some w)) s = Some (r, s') ->
                    exists w, r = Some w /\ returnType w = cls_IntType) as Hint.
  { intros b Hb. apply bind_Some in Hb as (w & s1 & Hd & Hr). unfold ret in Hr. simplify_eq.
    destruct (IntType_from_BigInt_result _ _ _ _ Hd) as (p & o & -> & _). eauto. }
  destruct (obj_is_bound_function obj).
  - destruct (obj_callPyFunc_slot obj); [unfold ret in H; simplify_eq; eauto |].
    exact (Hnew _ H).
  - destruct (obj_builtin_class obj);
      first [ exact (Hnew _ H)
            | destruct (obj_is_supported_buffer obj); exact (Hnew _ H)
            | destruct (obj_unboxed obj); try done; first [exact (Hnew _ H) | exact (Hint _ H)]
            | destruct (obj_callPyFunc_slot obj);
              [unfold ret in H; simplify_eq; eauto | exact (Hnew _ H)] ].
Qed.


End MoreDispatcherFacts.

Lemma pyTypeFactory_null_iff_unrecognized_witness :
  exists r s',
    pyTypeFactory sample_construct sample_ToString (JSVal_Symbol "tag") initial_state
    = Some (r, s')
    /\ (r = None <-> unrecognized (JSVal_Symbol "tag") = true).
Proof.
  eexists _, _. split; [vm_compute; reflexivity |].
  eapply (pyTypeFactory_null_iff_unrecognized sample_construct sample_ToString
            (JSVal_Symbol "tag") initial_state).
  vm_compute. reflexivity.
Defined.

Lemma pyTypeFactory_boxed_primitive_witness :
  pyTypeFactory sample_construct sample_ToString (JSVal_Object sample_boxed_bigint) initial_state
  = pyTypeFactory sample_construct sample_ToString (JSVal_BigInt sample_bigint) initial_state.
Proof.
  apply (pyTypeFactory_boxed_primitive sample_construct sample_ToString sample_boxed_bigint
           (JSVal_BigInt sample_bigint) initial_state); reflexivity.
Defined.

Lemma pyTypeFactory_unwraps_own_function_witness :
  pyTypeFactory sample_construct sample_ToString (JSVal_Object sample_wrapped_function)
    initial_state
  = Some (Some (PyType_new cls_FuncType 20%positive), initial_state).
Proof.
  apply (pyTypeFactory_unwraps_own_function sample_construct sample_ToString
           sample_wrapped_function 20%positive initial_state).
  - reflexivity.
  - right. reflexivity.
  - reflexivity.
Defined.

Lemma pyTypeFactory_object_class_witness :
  exists r s',
    pyTypeFactory sample_construct sample_ToString (JSVal_Object sample_boxed_bigint)
      initial_state = Some (r, s')
    /\ exists w, r = Some w /\ returnType w = object_wrapper_class sample_boxed_bigint.
Proof.
  eexists _, _. split; [vm_compute; reflexivity |].
  eapply (pyTypeFactory_object_class sample_construct sample_ToString sample_boxed_bigint
            initial_state).
  vm_compute. reflexivity.
Defined.


(** ** The evaluator *)

Section EvaluatorFacts.
Variable PyRun_String : string -> M (option loc).
Variable PyObject_GetAttrString : string -> M (option loc).
Variable PyCallable_Check : loc -> M bool.
Variable PyObject_CallObject : loc -> loc -> M (option loc).
Variable show_PyType : PyType -> string.

Local Abbreviation eval :=
  (PyEvaluator_eval PyRun_String PyObject_GetAttrString PyCallable_Check
     PyObject_CallObject show_PyType).

(** X16. The evaluator uses the result of the call unchecked: when the
    called function returns [NULL] (it raised), or an object of a kind the
    dispatcher has no wrapper for (a [float], say), [eval] does not
    return; it dereferences a null pointer. *)
Theorem PyEvaluator_eval_unchecked_result (input func_name : string) (args : loc)
    (s s1 s2 s3 s4 : PyState) (c f : loc) (r : option loc) :
  PyRun_String input s = Some (Some c, s1) ->
  PyObject_GetAttrString func_name s1 = Some (Some f, s2) ->
  PyCallable_Check f s2 = Some (true, s3) ->
  PyObject_CallObject f args s3 = Some (r, s4) ->
  (r = None
   \/ exists q o, r = Some q /\ heap s4 !! q = Some o
                  /\ unrecognized_kind (ob_type o) = true) ->
  eval input func_name args s = None.
Proof.
  intros H1 H2 H3 H4 Hr. unfold PyEvaluator_eval.
  rewrite (bind_run _ _ _ _ _ H1), (bind_run _ _ _ _ _ H2), (bind_run _ _ _ _ _ H3),
    (bind_run _ _ _ _ _ H4).
  destruct Hr as [-> | (q & o & -> & Hq & Hu)]; [done |].
  destruct (pyTypeFactory_PyObject_run s4 q o Hq) as (w & Hw & Hn & _).
  rewrite (bind_run _ _ _ _ _ Hw). apply Hn in Hu as ->. done.
Qed.

(** X17. When the called function returns an object of a recognised kind,
    [eval] prints the wrapper the dispatcher makes for it, which holds the
    returned object itself, and changes nothing else in the state the call
    left. *)
Theorem PyEvaluator_eval_prints_result (input func_name : string) (args : loc)
    (s s1 s2 s3 s4 : PyState) (c f q : loc) (o : PyObject) :
  PyRun_String input s = Some (Some c, s1) ->
  PyObject_GetAttrString func_name s1 = Some (Some f, s2) ->
  PyCallable_Check f s2 = Some (true, s3) ->
  PyObject_CallObject f args s3 = Some (Some q, s4) ->
  heap s4 !! q = Some o ->
  unrecognized_kind (ob_type o) = false ->
  exists w,
    pyTypeFactory_PyObject q s4 = Some (Some w, s4)
    /\ pyObject w = Some q
    /\ eval input func_name args s = Some (tt, add_log [Ev_printf (show_PyType w)] s4).
Proof.
  intros H1 H2 H3 H4 Hq Hu. unfold PyEvaluator_eval.
  rewrite (bind_run _ _ _ _ _ H1), (bind_run _ _ _ _ _ H2), (bind_run _ _ _ _ _ H3),
    (bind_run _ _ _ _ _ H4).
  destruct (pyTypeFactory_PyObject_run s4 q o Hq) as ([w|] & Hw & Hn & Hobj).
  - exists w. split; [done |]. split; [by apply Hobj |].
    by rewrite (bind_run _ _ _ _ _ Hw).
  - destruct Hn as [Hn _]. rewrite Hn in Hu; done.
Qed.

(** X18. When the attribute is missing or not callable, [eval] returns
    normally; it always prints the fixed text naming the function
    ["blah"], whatever [func_name] is, preceded by "function is not
    callable" when an error is pending, and leaves heap and error
    indicator as the lookup left them. *)
Theorem PyEvaluator_eval_not_callable (input func_name : string) (args : loc)
    (s s1 s2 s3 : PyState) (c : loc) (py_func : option loc) :
  PyRun_String input s = Some (Some c, s1) ->
  PyObject_GetAttrString func_name s1 = Some (py_func, s2) ->
  (py_func = None /\ s3 = s2
   \/ exists f, py_func = Some f /\ PyCallable_Check f s2 = Some (false, s3)) ->
  eval input func_name args s
  = Some (tt, add_log (Ev_printf cannot_find_function
                       :: match err s3 with
                          | Some _ => [Ev_printf "function is not callable"]
                          | None => []
                          end) s3).
Proof.
  intros H1 H2 Hc. unfold PyEvaluator_eval.
  rewrite (bind_run _ _ _ _ _ H1), (bind_run _ _ _ _ _ H2).
  destruct Hc as [[-> ->] | (f & -> & Hf)].
  - munfold. unfold add_log. destruct s2 as [h [e|] l]; reflexivity.
  - rewrite (bind_run _ _ _ _ _ Hf). munfold. unfold add_log.
    destruct s3 as [h [e|] l]; reflexivity.
Qed.

(** X19. When the script itself does not run, [eval] returns before
    looking anything up: it prints its message only if an error is
    pending, and leaves that error pending. *)
Theorem PyEvaluator_eval_script_failure (input func_name : string) (args : loc)
    (s s1 : PyState) :
  PyRun_String input s = Some (None, s1) ->
  eval input func_name args s
  = Some (tt, add_log match err s1 with
                      | Some _ => [Ev_printf "Something wronog happened"]
                      | None => []
                      end s1).
Proof.
  intros H1. unfold PyEvaluator_eval.
  rewrite (bind_run _ _ _ _ _ H1). munfold. unfold add_log.
  destruct s1 as [h [e|] l]; reflexivity.
Qed.

(** X20. [eval] itself writes neither to the heap nor to the error
    indicator: any property of the two that every interpreter call
    preserves still holds when [eval] returns. *)
Theorem PyEvaluator_eval_frame (P : gmap loc PyObject -> option (PyExc * string) -> Prop)
    (input func_name : string) (args : loc) (s s' : PyState) :
  (forall i s0 r s1, PyRun_String i s0 = Some (r, s1) ->
                     P (heap s0) (err s0) -> P (heap s1) (err s1)) ->
  (forall n s0 r s1, PyObject_GetAttrString n s0 = Some (r, s1) ->
                     P (heap s0) (err s0) -> P (heap s1) (err s1)) ->
  (forall f s0 r s1, PyCallable_Check f s0 = Some (r, s1) ->
                     P (heap s0) (err s0) -> P (heap s1) (err s1)) ->
  (forall f a s0 r s1, PyObject_CallObject f a s0 = Some (r, s1) ->
                       P (heap s0) (err s0) -> P (heap s1) (err s1)) ->
  P (heap s) (err s) ->
  eval input func_name args s = Some (tt, s') ->
  P (heap s') (err s').
Proof.
  intros I1 I2 I3 I4 HP H. unfold PyEvaluator_eval in H.
  apply bind_Some in H as ([c|] & s1 & H1 & H).
  2:{ apply I1 in H1; [| done]. unfold printf in H. munfold. destruct s1 as [h1 [e1|] l1]; by simplify_eq /=. }
  apply I1 in H1; [| done].
  apply bind_Some in H as (py_func & s2 & H2 & H). apply I2 in H2; [| done].
  apply bind_Some in H as (callable & s3 & H3 & H).
  assert (P (heap s3) (err s3)) as HP3.
  { destruct py_func as [f|]; [by apply I3 in H3 |]. unfold ret in H3. by simplify_eq. }
  assert (forall t, (bind PyErr_Occurred (fun occurred =>
                       bind (if occurred : bool then printf "function is not callable" else ret tt)
                            (fun _ => printf cannot_find_function))) s3 = Some (t, s') ->
                    P (heap s') (err s')) as Hearly.
  { intros t Ht. unfold printf in Ht. munfold. destruct s3 as [h3 [e3|] l3]; by simplify_eq /=. }
  destruct py_func as [f|]; [| by eapply Hearly].
  destruct callable; [| by eapply Hearly].
  apply bind_Some in H as ([q|] & s4 & H4 & H); [| done].
  apply I4 in H4; [| done].
  apply bind_Some in H as (w & s5 & H5 & H).
  assert (s5 = s4) as ->.
  { unfold pyTypeFactory_PyObject, Py_TYPE in H5. munfold.
    destruct (heap s4 !! q); [| done]. cbn in H5. repeat case_match; by simplify_eq. }
  destruct w as [w|]; [| done]. unfold printf in H. munfold. by simplify_eq.
Qed.
End EvaluatorFacts.

Lemma PyEvaluator_eval_unchecked_result_witness :
  PyEvaluator_eval sample_PyRun_String sample_GetAttrString sample_Callable_Check
    sample_CallObject sample_show "def f(): return 1.5" "f" Py_None
    (sample_eval_state sample_float) = None.
Proof.
  apply (PyEvaluator_eval_unchecked_result sample_PyRun_String sample_GetAttrString
           sample_Callable_Check sample_CallObject sample_show
           "def f(): return 1.5" "f" Py_None (sample_eval_state sample_float)
           (sample_eval_state sample_float) (sample_eval_state sample_float)
           (sample_eval_state sample_float) (sample_eval_state sample_float)
           Py_None 20%positive (Some 21%positive)).
  - reflexivity.
  - reflexivity.
  - reflexivity.
  - reflexivity.
  - right. exists 21%positive, sample_float.
    split; [reflexivity |]. split; vm_compute; reflexivity.
Defined.

Lemma PyEvaluator_eval_prints_result_witness :
  let s := sample_eval_state (PyLong_FromZ 7) in
  exists w,
    pyTypeFactory_PyObject 21%positive s = Some (Some w, s)
    /\ pyObject w = Some 21%positive
    /\ PyEvaluator_eval sample_PyRun_String sample_GetAttrString sample_Callable_Check
         sample_CallObject sample_show "def f(): return 7" "f" Py_None s
       = Some (tt, add_log [Ev_printf (sample_show w)] s).
Proof.
  eapply (PyEvaluator_eval_prints_result sample_PyRun_String sample_GetAttrString
            sample_Callable_Check sample_CallObject sample_show).
  - reflexivity.
  - reflexivity.
  - reflexivity.
  - reflexivity.
  - vm_compute. reflexivity.
  - vm_compute. reflexivity.
Defined.

Lemma PyEvaluator_eval_not_callable_witness :
  let s3 := set_err (Some (PyExc_TypeError, "module has no such attribute"%string))
              initial_state in
  PyEvaluator_eval sample_PyRun_String sample_GetAttrString_missing sample_Callable_Check
    sample_CallObject sample_show "x = 1" "f" Py_None initial_state
  = Some (tt, add_log (Ev_printf cannot_find_function
                       :: match err s3 with
                          | Some _ => [Ev_printf "function is not callable"]
                          | None => []
                          end) s3).
Proof.
  eapply (PyEvaluator_eval_not_callable sample_PyRun_String sample_GetAttrString_missing
            sample_Callable_Check sample_CallObject sample_show).
  - reflexivity.
  - reflexivity.
  - left. split; reflexivity.
Defined.

Lemma PyEvaluator_eval_script_failure_witness :
  let s1 := set_err (Some (PyExc_TypeError, "invalid syntax"%string)) initial_state in
  PyEvaluator_eval sample_PyRun_String sample_GetAttrString sample_Callable_Check
    sample_CallObject sample_show "" "f" Py_None initial_state
  = Some (tt, add_log match err s1 with
                      | Some _ => [Ev_printf "Something wronog happened"]
                      | None => []
                      end s1).
Proof.
  apply (PyEvaluator_eval_script_failure sample_PyRun_String sample_GetAttrString
           sample_Callable_Check sample_CallObject sample_show).
  reflexivity.
Defined.

Lemma PyEvaluator_eval_frame_witness :
  let s := sample_eval_state (PyLong_FromZ 7) in
  let s' := add_log [Ev_printf (sample_show (PyType_new cls_IntType 21%positive))] s in
  heap s' !! 21%positive = Some (PyLong_FromZ 7).
Proof.
  intros s s'.
  apply (PyEvaluator_eval_frame sample_PyRun_String sample_GetAttrString
           sample_Callable_Check sample_CallObject sample_show
           (fun h _ => h !! 21%positive = Some (PyLong_FromZ 7))
           "def f(): return 7" "f" Py_None s s').
  - intros i s0 r s1 H Hh. unfold sample_PyRun_String in H. munfold.
    destruct (String.eqb i ""); injection H as _ <-; exact Hh.
  - intros n s0 r s1 H Hh. injection H as _ <-. exact Hh.
  - intros f s0 r s1 H Hh. injection H as _ <-. exact Hh.
  - intros f a s0 r s1 H Hh. injection H as _ <-. exact Hh.
  - vm_compute. reflexivity.
  - vm_compute. reflexivity.
Defined.
